(** * govw: supervision of a Vowpal Wabbit daemon

    A shallow embedding of [govw.go] (the daemon handle, its connection
    queue, the health check, the model watcher) and of [utils.go]
    ([runCommand], [RecreateDaemon], [modelFileChecker]).

    Go code is stateful: handles, models and channels live on a heap and are
    reached through pointers, and the operating system answers every command,
    stat and dial.  The embedding threads one [State] (heap, history of
    external calls, and the oracles that stand for the operating system)
    through a state-and-failure monad [M]. *)

From Stdlib Require Import ZArith Lia.
From Stdlib.Strings Require Import Byte.
From stdpp Require Import base option list gmap strings pretty.

Local Open Scope Z_scope.

(** ** Go's [int] on a 64-bit platform *)

Module GoInt.

Definition int_min : Z := - 2 ^ 63.
Definition int_max : Z := 2 ^ 63 - 1.

(** Two's complement wrap-around of an arithmetic result. *)
Definition wrap (z : Z) : Z := (z + 2 ^ 63) mod 2 ^ 64 - 2 ^ 63.

Definition add (a b : Z) : Z := wrap (a + b).
Definition sub (a b : Z) : Z := wrap (a - b).
(** [a / b] truncates toward zero. *)
Definition div (a b : Z) : Z := wrap (Z.quot a b).

Definition in_range (z : Z) : Prop := int_min <= z <= int_max.

End GoInt.

(** ** Data model *)

Definition loc := positive.
Definition Conn := nat.

Definition DefaultPort : Z := 26542.

#[global] Instance byte_eq_decision : EqDecision byte := Byte.byte_eq_dec.

(** [endOfLine] is the byte code of the end-of-line symbol. *)
Definition endOfLine : byte := x0a.

(** [ModTime] is a [time.Time]; the code only stores what [os.Stat] reports
    and compares two such values, it is kept as an integer. *)
Record VWModel := mkModel {
  Path : string;
  ModTime : Z;
  Updatable : bool
}.

(** Modelled from the spec: the field [Quite] of [VWDaemon].  [RecreateDaemon]
    reads [d.Quite], the declaration of the struct at hand has no such field;
    the spec lists a quiet flag among the fields of the daemon handle. *)
Record VWDaemon := mkDaemon {
  BinPath : string;
  Port : Z;
  Children : Z;
  Model : option loc;              (* *VWModel, [None] is nil *)
  Test : bool;
  Quite : bool;
  TCPQueue : option loc            (* chan *net.TCPConn, [None] is nil *)
}.

(** A buffered channel of connections: its capacity and the values queued. *)
Record Chan := mkChan {
  ch_cap : Z;
  ch_buf : list Conn
}.

(** ** The operating system *)

(** What a shell command prints is kept as what
    [strconv.Atoi(strings.Trim(string(res), "\n"))] makes of it: [Some n]
    when it is the decimal integer [n], [None] when it does not parse. *)
Definition Output := option Z.

(** [[]byte{}]: Atoi fails on the empty string. *)
Definition no_output : Output := None.

Inductive error :=
| ErrExec                          (* the command could not be run *)
| ErrAtoi.                         (* its output is not an integer *)

Inductive Event :=
| EvStat (path : string)
| EvOutput (cmd : string)          (* exec.Command("sh", "-c", cmd).Output() *)
| EvStart (cmd : string)           (* exec.Command("sh", "-c", cmd).Start() *)
| EvSleep (ms : Z)
| EvDial (port : Z)
| EvWrite (c : Conn) (data : list byte)
| EvRead (c : Conn)
| EvGo (vw : loc).                 (* go modelFileChecker(vw) *)

(** [net.ResolveTCPAddr] then [net.DialTCP] *)
Inductive DialAnswer := ResolveFails | DialFails | Connects.

Definition is_output (e : Event) : bool :=
  match e with EvOutput _ => true | _ => false end.

(** Number of [Output()] calls in a history: the polls made so far. *)
Definition polls (h : list Event) : nat := length (filter is_output h).

(** The answers of the operating system.  [sh_output] is the process-count
    source: it is asked with the number of polls made before and the command.
    The others are asked with the time, the number of external calls made
    before. *)
Record World := mkWorld {
  os_stat : nat -> string -> option Z;
  sh_output : nat -> string -> option Output;
  sh_start : nat -> string -> bool;
  tcp_dial : nat -> Z -> DialAnswer;
  tcp_write : nat -> Conn -> list byte -> bool;
  tcp_read : nat -> Conn -> option string
}.

Record State := mkState {
  daemons : gmap loc VWDaemon;
  models : gmap loc VWModel;
  chans : gmap loc Chan;
  history : list Event;            (* newest first *)
  env : World
}.

Definition now (s : State) : nat := length (history s).

(** ** The monad of Go statements *)

Inductive Failure :=
| Fatal (msg : string)             (* log.Fatal: the process exits *)
| Panic (msg : string)             (* panic: deferred calls run, then the goroutine dies *)
| Blocked.                         (* the goroutine waits on a channel forever *)

Inductive Outcome (A : Type) :=
| Ret (a : A) (s : State)
| Abort (f : Failure) (s : State).
Arguments Ret {A} a s.
Arguments Abort {A} f s.

Definition M (A : Type) := State -> Outcome A.

Definition ret {A} (a : A) : M A := fun s => Ret a s.

Definition bind {A B} (m : M A) (k : A -> M B) : M B :=
  fun s => match m s with
           | Ret a s' => k a s'
           | Abort f s' => Abort f s'
           end.

Definition abort {A} (f : Failure) : M A := fun s => Abort f s.

Declare Scope go_scope.
Delimit Scope go_scope with go.
Notation "x <- m ;; k" := (bind m (fun x => k))
  (at level 100, m at next level, right associativity) : go_scope.
Notation "m ;;; k" := (bind m (fun _ => k))
  (at level 100, right associativity) : go_scope.
Local Open Scope go_scope.

Definition final {A} (o : Outcome A) : State :=
  match o with Ret _ s => s | Abort _ s => s end.

(** [defer]: the deferred call runs when the body returns or panics, not
    when it exits the process or blocks. *)
Definition defer {A} (d : M unit) (body : M A) : M A :=
  fun s => match body s with
           | Ret a s' =>
               match d s' with
               | Ret _ s'' => Ret a s''
               | Abort f s'' => Abort f s''
               end
           | Abort (Panic msg) s' =>
               match d s' with
               | Ret _ s'' => Abort (Panic msg) s''
               | Abort f s'' => Abort f s''
               end
           | Abort f s' => Abort f s'
           end.

(** *** Heap access *)

Definition nil_deref : Failure := Panic "invalid memory address or nil pointer dereference".

Definition load_daemon (l : loc) : M VWDaemon :=
  fun s => match daemons s !! l with
           | Some d => Ret d s
           | None => Abort nil_deref s
           end.

Definition store_daemon (l : loc) (d : VWDaemon) : M unit :=
  fun s => Ret tt (mkState (<[l := d]> (daemons s)) (models s) (chans s) (history s) (env s)).

Definition alloc_daemon (d : VWDaemon) : M loc :=
  fun s => let l := fresh (dom (daemons s)) in
           Ret l (mkState (<[l := d]> (daemons s)) (models s) (chans s) (history s) (env s)).

Definition load_model (l : option loc) : M VWModel :=
  fun s => match l with
           | Some l => match models s !! l with
                       | Some m => Ret m s
                       | None => Abort nil_deref s
                       end
           | None => Abort nil_deref s
           end.

Definition alloc_model (m : VWModel) : M loc :=
  fun s => let l := fresh (dom (models s)) in
           Ret l (mkState (daemons s) (<[l := m]> (models s)) (chans s) (history s) (env s)).

(** *** External calls: each is recorded in the history *)

Definition record (e : Event) (s : State) : State :=
  mkState (daemons s) (models s) (chans s) (e :: history s) (env s).

Definition stat (path : string) : M (option Z) :=
  fun s => Ret (os_stat (env s) (now s) path) (record (EvStat path) s).

Definition sleep (ms : Z) : M unit :=
  fun s => Ret tt (record (EvSleep ms) s).

Definition go_modelFileChecker (vw : loc) : M unit :=
  fun s => Ret tt (record (EvGo vw) s).

(** ** utils.go: runCommand *)

(** [quiet = false] waits for the command and returns what it printed;
    [quiet = true] only starts it.  The [default] branch of the switch on a
    bool is unreachable. *)
Definition runCommand (command : string) (quiet : bool) : M (Output * option error) :=
  fun s =>
    match quiet with
    | false =>
        match sh_output (env s) (polls (history s)) command with
        | None => Ret (no_output, Some ErrExec) (record (EvOutput command) s)
        | Some val => Ret (val, None) (record (EvOutput command) s)
        end
    | true =>
        if sh_start (env s) (now s) command
        then Ret (no_output, None) (record (EvStart command) s)
        else Ret (no_output, Some ErrExec) (record (EvStart command) s)
    end.

(** ** govw.go: the process controller *)

Definition dquote : string := String (Ascii.ascii_of_nat 34) EmptyString.

Definition pgrep_command (port : Z) : string :=
  "pgrep -f 'vw.*--port " +:+ pretty port +:+ "' | wc -l".

Definition pkill_command (port : Z) : string :=
  "pkill -9 -f " +:+ dquote +:+ "vw.*--port " +:+ pretty port +:+ dquote.

Definition WorkersCount (vw : loc) : M (Z * option error) :=
  d <- load_daemon vw ;;
  r <- runCommand (pgrep_command (Port d)) false ;;
  match r.2 with
  | Some err => ret (0, Some err)
  | None =>
      match r.1 with
      | None => ret (0, Some ErrAtoi)
      (* one is subtracted for the [sh -c] process the listing matches *)
      | Some count => ret (GoInt.sub count 1, None)
      end
  end.

(** The loop of [IsExist] with [n] iterations left and [err] the error of
    the latest poll; at [O] the statements after the loop run. *)
Fixpoint IsExist_from (n : nat) (vw : loc) (delay : Z) (err : option error) : M bool :=
  match n with
  | O =>
      match err with
      | Some _ => abort (Fatal "Can't getting VW workers count.")
      | None => ret false
      end
  | S n' =>
      r <- WorkersCount vw ;;
      d <- load_daemon vw ;;
      (* one is added for the parent process *)
      if r.1 =? GoInt.add (Children d) 1 then ret true
      else sleep delay ;;; IsExist_from n' vw delay r.2
  end.

Definition IsExist (vw : loc) (tries : Z) (delay : Z) : M bool :=
  IsExist_from (Z.to_nat tries) vw delay None.

Definition Stop (vw : loc) : M (option error) :=
  d <- load_daemon vw ;;
  r <- runCommand (pkill_command (Port d)) true ;;
  match r.2 with
  | Some _ => abort (Panic "exec")
  | None =>
      alive <- IsExist vw 5 500 ;;
      if alive then abort (Fatal "Failed to stop daemon!") else ret None
  end.

(** ** govw.go: the queue of connections *)

(** Channel operations on the value of a channel; [None] when the operation
    cannot proceed now. *)
Definition chan_put (c : Conn) (ch : Chan) : option Chan :=
  if Z.of_nat (length (ch_buf ch)) <? ch_cap ch
  then Some (mkChan (ch_cap ch) (ch_buf ch ++ [c]))
  else None.

Definition chan_take (ch : Chan) : option (Conn * Chan) :=
  match ch_buf ch with
  | [] => None
  | c :: rest => Some (c, mkChan (ch_cap ch) rest)
  end.

Definition set_chan (l : loc) (ch : Chan) (s : State) : State :=
  mkState (daemons s) (models s) (<[l := ch]> (chans s)) (history s) (env s).

(** [make(chan *net.TCPConn, size)] *)
Definition make_chan (size : Z) : M (option loc) :=
  fun s => if size <? 0 then Abort (Panic "makechan: size out of range") s
           else let l := fresh (dom (chans s)) in
                Ret (Some l) (set_chan l (mkChan size []) s).

(** [q <- c] in a goroutine that runs alone: a send that cannot proceed
    (nil channel, full buffer) never will. *)
Definition chan_send (q : option loc) (c : Conn) : M unit :=
  fun s => match q ≫= (fun l => (chans s !! l) ≫= (fun ch => (fun ch' => (l, ch')) <$> chan_put c ch)) with
           | Some (l, ch') => Ret tt (set_chan l ch' s)
           | None => Abort Blocked s
           end.

(** [<-q] *)
Definition chan_recv (q : option loc) : M Conn :=
  fun s => match q ≫= (fun l => (chans s !! l) ≫= (fun ch => (fun r => (l, r)) <$> chan_take ch)) with
           | Some (l, (c, ch')) => Ret c (set_chan l ch' s)
           | None => Abort Blocked s
           end.

Definition getTCPConn (vw : loc) : M Conn :=
  d <- load_daemon vw ;;
  fun s =>
    match tcp_dial (env s) (now s) (Port d) with
    | ResolveFails => Abort (Fatal "Error while resolving IP addr: ") (record (EvDial (Port d)) s)
    | DialFails => Abort (Fatal "Error while dialing TCP") (record (EvDial (Port d)) s)
    | Connects => Ret (now s) (record (EvDial (Port d)) s)
    end.

(** The loop of [makeTCPConnQueue] with [n] iterations left. *)
Fixpoint fill_queue (n : nat) (vw : loc) : M unit :=
  match n with
  | O => ret tt
  | S n' =>
      d <- load_daemon vw ;;
      c <- getTCPConn vw ;;
      chan_send (TCPQueue d) c ;;;
      fill_queue n' vw
  end.

Definition makeTCPConnQueue (vw : loc) : M unit :=
  d <- load_daemon vw ;;
  let size := GoInt.div (Children d) 2 in
  fill_queue (Z.to_nat size) vw.

(** ** govw.go: the daemon handle *)

(** Modelled from the spec: the parameter [quiet] of [NewDaemon].
    [RecreateDaemon] passes seven arguments, [d.Quite] the sixth; the
    constructor at hand takes six.  The flag is kept in the handle, as the
    spec's daemon handle has it; the rest is the constructor as written. *)
Definition NewDaemon (binPath : string) (port children : Z) (modelPath : string)
    (test quiet updatable : bool) : M loc :=
  info <- stat modelPath ;;
  match info with
  | None => abort (Fatal "stat")
  | Some mtime =>
      m <- alloc_model (mkModel modelPath mtime updatable) ;;
      daemon <- alloc_daemon (mkDaemon binPath port children (Some m) test quiet None) ;;
      (if updatable then go_modelFileChecker daemon else ret tt) ;;;
      ret daemon
  end.

(** The command line [Run] builds. *)
Definition start_command (d : VWDaemon) (m : VWModel) : string :=
  let cmd := "vw --daemon --threads --quiet --port " +:+ pretty (Port d)
             +:+ " --num_children " +:+ pretty (Children d) in
  let cmd := if decide (Path m = EmptyString) then cmd else cmd +:+ " -i  " +:+ Path m in
  let cmd := if Test d then cmd +:+ " -t" else cmd in
  cmd.

Definition set_queue (d : VWDaemon) (q : option loc) : VWDaemon :=
  mkDaemon (BinPath d) (Port d) (Children d) (Model d) (Test d) (Quite d) q.

Definition Run (vw : loc) : M (option error) :=
  running <- IsExist vw 3 100 ;;
  (if running then _ <- Stop vw ;; ret tt else ret tt) ;;;
  d <- load_daemon vw ;;
  m <- load_model (Model d) ;;
  r <- runCommand (start_command d m) true ;;
  match r.2 with
  | Some _ => abort (Panic "exec")
  | None =>
      started <- IsExist vw 5 500 ;;
      if negb started then abort (Fatal "Failed to start daemon!")
      else
        d <- load_daemon vw ;;
        q <- make_chan (GoInt.div (Children d) 2) ;;
        store_daemon vw (set_queue d q) ;;;
        makeTCPConnQueue vw ;;;
        ret None
  end.

(** The line-termination step of [Predict]; [None] is the run-time panic of
    indexing [pData[len(pData)-1]] out of range. *)
Definition terminate (pData : list byte) : option (list byte) :=
  match last pData with
  | None => None
  | Some b => if Byte.eqb b endOfLine then Some pData else Some (pData ++ [endOfLine])
  end.

Definition conn_write (c : Conn) (data : list byte) : M bool :=
  fun s => Ret (tcp_write (env s) (now s) c data) (record (EvWrite c data) s).

Definition conn_read_line (c : Conn) : M (option string) :=
  fun s => Ret (tcp_read (env s) (now s) c) (record (EvRead c) s).

(** [ParsePredictResult] is declared elsewhere; [Predict] takes it as a
    parameter. *)
Definition Predict {P : Type} (ParsePredictResult : string -> P)
    (vw : loc) (pData : list byte) : M (P * option error) :=
  match terminate pData with
  | None => abort (Panic "index out of range [-1]")
  | Some pData =>
      d <- load_daemon vw ;;
      conn <- chan_recv (TCPQueue d) ;;
      ok <- conn_write conn pData ;;
      if negb ok then abort (Fatal "Error via writing to VW TCP connections: ")
      else
        res <- conn_read_line conn ;;
        match res with
        | None => abort (Fatal "Error via reading VW response: ")
        | Some res =>
            d <- load_daemon vw ;;
            chan_send (TCPQueue d) conn ;;;
            ret (ParsePredictResult res, None)
        end
  end.

(** [DeepCopy] sends the handle through gob and back: the copy has its own
    model, and no channel (gob leaves channel fields out). *)
Definition DeepCopy (vw : loc) : M loc :=
  d <- load_daemon vw ;;
  m' <- match Model d with
        | None => ret None
        | Some _ => m <- load_model (Model d) ;; l <- alloc_model m ;; ret (Some l)
        end ;;
  alloc_daemon (mkDaemon (BinPath d) (Port d) (Children d) m' (Test d) (Quite d) None).

(** ** govw.go: the model watcher *)

Definition IsChanged (model : option loc) : M bool :=
  m <- load_model model ;;
  info <- stat (Path m) ;;
  match info with
  | None => abort (Panic "stat")
  | Some mtime => if decide (ModTime m <> mtime) then ret true else ret false
  end.

(** ** utils.go: the supervisor *)

(** The port of the new daemon, as [RecreateDaemon] picks it from the port
    of the old one. *)
Definition alternate_port (port : Z) : Z :=
  if port =? DefaultPort then GoInt.add port 1 else DefaultPort.

Definition RecreateDaemon (d : loc) : M unit :=
  tmpVW <- DeepCopy d ;;
  defer (_ <- Stop tmpVW ;; ret tt)
    (old <- load_daemon d ;;
     let port := alternate_port (Port old) in
     m <- load_model (Model old) ;;
     newVW <- NewDaemon (BinPath old) port (Children old) (Path m) (Test old)
                        (Quite old) (Updatable m) ;;
     err <- Run newVW ;;
     match err with
     | Some _ => abort (Fatal "run")
     | None => new <- load_daemon newVW ;; store_daemon d new
     end).

(** The first [rounds] turns of the endless loop of [modelFileChecker]. *)
Fixpoint modelFileChecker (rounds : nat) (vw : loc) : M unit :=
  match rounds with
  | O => ret tt
  | S rounds' =>
      sleep 1000 ;;;
      d <- load_daemon vw ;;
      changed <- IsChanged (Model d) ;;
      (if changed then RecreateDaemon vw else ret tt) ;;;
      modelFileChecker rounds' vw
  end.

(** ** The connection pool as a transition system

    [Predict] is the only user of the queue once it is filled: it takes a
    connection ([<-vw.TCPQueue]) and later puts the same connection back
    ([vw.TCPQueue <- conn]).  With several goroutines inside [Predict] the
    queue sees an interleaving of these two operations; an operation that
    cannot proceed waits, and leaves the pool as it is. *)

Fixpoint remove_one (c : Conn) (l : list Conn) : list Conn :=
  match l with
  | [] => []
  | x :: rest => if decide (x = c) then rest else x :: remove_one c rest
  end.

Record Pool := mkPool {
  pool_chan : Chan;
  pool_out : list Conn              (* connections held by callers of Predict *)
}.

Inductive PoolOp :=
| Checkout
| Checkin (c : Conn).

(** [None]: the operation does not take place now (the goroutine waits, or
    no goroutine holds [c]). *)
Definition pool_step (op : PoolOp) (p : Pool) : option Pool :=
  match op with
  | Checkout =>
      match chan_take (pool_chan p) with
      | Some (c, ch) => Some (mkPool ch (c :: pool_out p))
      | None => None
      end
  | Checkin c =>
      if decide (c ∈ pool_out p)
      then match chan_put c (pool_chan p) with
           | Some ch => Some (mkPool ch (remove_one c (pool_out p)))
           | None => None
           end
      else None
  end.

Definition pool_run (ops : list PoolOp) (p : Pool) : Pool :=
  foldl (fun p op => default p (pool_step op p)) p ops.

(** All connections of a pool, queued or held. *)
Definition pool_conns (p : Pool) : list Conn := ch_buf (pool_chan p) ++ pool_out p.

(** What a poll yields, from the answer of the shell: the value and error
    [WorkersCount] returns. *)
Definition count_result (r : option Output) : Z * option error :=
  match r with
  | None => (0, Some ErrExec)
  | Some None => (0, Some ErrAtoi)
  | Some (Some count) => (GoInt.sub count 1, None)
  end.

(** The count [IsExist] waits for: the workers and their parent. *)
Definition expected (h : VWDaemon) : Z := GoInt.add (Children h) 1.

(** The [i]-th poll of a health check on handle [h] that starts in [s]. *)
Definition poll_at (s : State) (h : VWDaemon) (i : nat) : Z * option error :=
  count_result (sh_output (env s) (polls (history s) + i) (pgrep_command (Port h))).

(** A round of the loop of [IsExist] that does not return: a poll, a sleep. *)
Definition missed_round (h : VWDaemon) (delay : Z) (s : State) : State :=
  record (EvSleep delay) (record (EvOutput (pgrep_command (Port h))) s).

Definition after_rounds (k : nat) (h : VWDaemon) (delay : Z) (s : State) : State :=
  Nat.iter k (missed_round h delay) s.

(** The error [IsExist] looks at after a loop of [n] polls that started with
    [err]: the one of the last poll. *)
Definition last_err (h : VWDaemon) (n : nat) (err : option error) (s : State) : option error :=
  match n with
  | O => err
  | S m => (poll_at s h m).2
  end.

(** A process-count source that always answers with a count. *)
Definition count_source (src : nat -> Z) : nat -> string -> option Output :=
  fun i _ => Some (Some (src i)).

(** The timestamp a handle has stored, through its model reference. *)
Definition stored_mtime (d : loc) (s : State) : option Z :=
  h ← daemons s !! d; l ← Model h; m ← models s !! l; Some (ModTime m).

Definition port_of (d : loc) (s : State) : option Z := Port <$> daemons s !! d.

(** What [NewDaemon] takes from its arguments, but the port: the settings of
    a handle with its model. *)
Definition settings (h : VWDaemon) (m : VWModel) : string * Z * string * bool * bool * bool :=
  (BinPath h, Children h, Path m, Test h, Quite h, Updatable m).

(** ** Relations between states *)

Definition keeps {A} (R : State -> State -> Prop) (m : M A) (s : State) : Prop :=
  R s (final (m s)).

Definition preserves {A} (R : State -> State -> Prop) (m : M A) : Prop :=
  forall s, keeps R m s.

(** The history of [s'] continues the one of [s]. *)
Definition later (s s' : State) : Prop :=
  exists evs, history s' = evs ++ history s.

(** The heap of [s'] is the heap of [s]. *)
Definition frame (s s' : State) : Prop :=
  daemons s' = daemons s /\ models s' = models s /\ chans s' = chans s
  /\ env s' = env s /\ later s s'.

Abbreviation pure_io := (preserves frame).

(** What a pool made of the [conns] keeps true: the capacity, the
    connections (none is made, none is lost), and so their number. *)
Definition pool_inv (cap : Z) (conns : list Conn) (p : Pool) : Prop :=
  ch_cap (pool_chan p) = cap /\ pool_conns p ≡ₚ conns.

(** Only channels are made or changed. *)
Definition chans_only (s s' : State) : Prop :=
  daemons s' = daemons s /\ models s' = models s /\ env s' = env s /\ later s s'.

(** Of the handles only [vw] changes, and of [vw] only the queue. *)
Definition queue_only (vw : loc) (s s' : State) : Prop :=
  models s' = models s /\ env s' = env s /\ later s s'
  /\ (forall l, l <> vw -> daemons s' !! l = daemons s !! l)
  /\ exists q, daemons s' !! vw = (fun d => set_queue d q) <$> daemons s !! vw.

(** From [s] to [s'] the only commands started are ones [P] holds of. *)
Definition emits (P : string -> Prop) (s s' : State) : Prop :=
  exists evs, history s' = evs ++ history s /\ forall c, EvStart c ∈ evs -> P c.

(** The commands a history has started, oldest first. *)
Definition started (h : list Event) : list string :=
  omap (fun e => match e with EvStart cmd => Some cmd | _ => None end) (reverse h).

(** The command line as the interface description gives it. *)
Definition described_command (d : VWDaemon) (m : VWModel) : string :=
  BinPath d +:+ " --daemon --threads --quiet --port " +:+ pretty (Port d)
  +:+ " --num_children " +:+ pretty (Children d)
  +:+ (if decide (Path m = EmptyString) then EmptyString else " -i " +:+ Path m)
  +:+ (if Test d then " -t" else EmptyString).

(** The heap only grows: what is allocated stays as it is. *)
Definition grows (s s' : State) : Prop :=
  env s' = env s /\ later s s' /\ chans s' = chans s
  /\ daemons s ⊆ daemons s' /\ models s ⊆ models s'.

(** Handle [d] and every model stay as they are. *)
Definition kept (d : loc) (s s' : State) : Prop :=
  env s' = env s /\ later s s'
  /\ (forall x, daemons s !! d = Some x -> daemons s' !! d = Some x)
  /\ models s ⊆ models s'.

(** The statements of [RecreateDaemon] under its [defer]. *)
Abbreviation swap_body d :=
  (old <- load_daemon d ;;
   let port := alternate_port (Port old) in
   m <- load_model (Model old) ;;
   newVW <- NewDaemon (BinPath old) port (Children old) (Path m) (Test old)
                      (Quite old) (Updatable m) ;;
   err <- Run newVW ;;
   match err with
   | Some _ => abort (Fatal "run")
   | None => new <- load_daemon newVW ;; store_daemon d new
   end).

(** The handle [RecreateDaemon] constructs from [old] and its model [m],
    the model at [lm] and the queue [q]. *)
Definition replacement (old : VWDaemon) (lm : loc) (q : option loc) : VWDaemon :=
  mkDaemon (BinPath old) (alternate_port (Port old)) (Children old) (Some lm)
           (Test old) (Quite old) q.

(** The swap: [d] holds the fields of a new handle, which was started on the
    alternate port with the settings of [old], a model statted when
    [RecreateDaemon] was called, and a queue of its own. *)
Definition swapped (d : loc) (s s' : State) : Prop :=
  exists old l m t newVW lm q ch,
    daemons s !! d = Some old /\ Model old = Some l /\ models s !! l = Some m
    /\ os_stat (env s) (now s) (Path m) = Some t
    /\ newVW <> d /\ daemons s !! newVW = None /\ models s !! lm = None
    /\ chans s !! q = None
    /\ daemons s' !! d = Some (replacement old lm (Some q))
    /\ daemons s' !! newVW = Some (replacement old lm (Some q))
    /\ models s' !! lm = Some (mkModel (Path m) t (Updatable m))
    /\ models s ⊆ models s' /\ env s' = env s
    /\ chans s' !! q = Some ch
    /\ ch_cap ch = GoInt.div (Children old) 2
    /\ Z.of_nat (length (ch_buf ch)) = GoInt.div (Children old) 2.

(** [n] reloads in a row. *)
Fixpoint RecreateDaemon_times (n : nat) (d : loc) : M unit :=
  match n with
  | O => ret tt
  | S n' => RecreateDaemon d ;;; RecreateDaemon_times n' d
  end.

(** ** States the statements are tried on *)

(** A world in which every call succeeds, the model file has modification
    time 100, and [src] answers the process-count queries. *)
Definition quiet_world (src : nat -> string -> option Output) : World :=
  mkWorld (fun _ _ => Some 100) src (fun _ _ => true) (fun _ _ => Connects)
          (fun _ _ _ => true) (fun _ _ => Some "0.5 tag1"%string).

Definition handle4 : VWDaemon :=
  mkDaemon "/usr/local/bin/vw" DefaultPort 4 (Some 1%positive) true false None.

Definition model4 : VWModel := mkModel "/tmp/model.vw" 100 true.

Definition state4 (src : nat -> string -> option Output) : State :=
  mkState {[ 1%positive := handle4 ]} {[ 1%positive := model4 ]} ∅ [] (quiet_world src).

(** A source that reports six processes at its second poll, one otherwise. *)
Definition six_at_second (i : nat) : Z := if (i =? 1)%nat then 6 else 1.

(** A source whose first query cannot be run and whose later queries report
    six processes. *)
Definition fails_then_six (i : nat) (cmd : string) : option Output :=
  if (i =? 0)%nat then None else Some (Some 6).

(** A source whose first query cannot be run and whose later queries report
    one process. *)
Definition fails_then_one (i : nat) (cmd : string) : option Output :=
  if (i =? 0)%nat then None else Some (Some 1).

(** A source none of whose queries can be run. *)
Definition always_fails (i : nat) (cmd : string) : option Output := None.

(** A source under which a daemon starts: nothing runs on the port during
    the three polls before the start, the parent and four workers are seen at
    the first poll after it. *)
Definition starts_at_fourth (i : nat) : Z := if (i =? 3)%nat then 6 else 1.

Definition ready4 : State := state4 (count_source starts_at_fourth).

(** A source under which two reloads in a row succeed: the new daemon is
    seen, with its four workers, at the first poll after its start (the
    fourth and the thirteenth poll), and nothing is seen on a port
    otherwise. *)
Definition reloads_twice (i : nat) : Z :=
  if (i =? 3)%nat || (i =? 12)%nat then 6 else 1.

Definition reload4 : State := state4 (count_source reloads_twice).

(** The model file of the examples after it was written again. *)
Definition touched4 : State :=
  mkState {[ 1%positive := handle4 ]} {[ 1%positive := model4 ]} ∅ []
          (mkWorld (fun _ _ => Some 200) (count_source reloads_twice) (fun _ _ => true)
                   (fun _ _ => Connects) (fun _ _ _ => true) (fun _ _ => None)).

(** ** What a history shows *)

(** The events of one kind in a history, oldest first: [f] picks what is
    kept of an event. *)
Definition seen {A} (f : Event -> option A) (h : list Event) : list A :=
  omap f (reverse h).

Definition start_of (e : Event) : option string :=
  match e with EvStart cmd => Some cmd | _ => None end.

Definition sleep_of (e : Event) : option Z :=
  match e with EvSleep ms => Some ms | _ => None end.

Definition dial_of (e : Event) : option Z :=
  match e with EvDial port => Some port | _ => None end.

Definition go_of (e : Event) : option loc :=
  match e with EvGo vw => Some vw | _ => None end.

(** The events of a health check: queries of the process count and sleeps. *)
Definition polling (e : Event) : bool :=
  match e with EvOutput _ | EvSleep _ => true | _ => false end.

(** From [s] to [s'] the heap stays and only polls and sleeps happen. *)
Definition waits (s s' : State) : Prop :=
  frame s s' /\ exists evs, history s' = evs ++ history s /\ Forall (fun e => polling e = true) evs.

(** The ways the supervisor fails: a panic, or an exit of the process other
    than the one [RecreateDaemon] keeps for an error returned by [Run]; not a
    wait on a channel. *)
Definition exits_or_panics (f : Failure) : Prop :=
  match f with
  | Blocked => False
  | Fatal msg => msg <> "run"%string
  | Panic _ => True
  end.

(** A statement all of whose failures are in [F]. *)
Definition fails_only {A} (F : Failure -> Prop) (m : M A) : Prop :=
  forall s f s', m s = Abort f s' -> F f.

(** The state right after [Stop] has launched its kill command. *)
Definition killed (d : VWDaemon) (s : State) : State :=
  record (EvStart (pkill_command (Port d))) s.

(** A source that sees no daemon: only the shell of the query itself. *)
Definition idle_source (i : nat) : Z := 1.

Definition idle4 : State := state4 (count_source idle_source).

(** A handle with one worker, and a source that sees its daemon (the parent
    and the worker, with the shell of the query) at the fourth poll. *)
Definition handle1 : VWDaemon :=
  mkDaemon "/usr/local/bin/vw" DefaultPort 1 (Some 1%positive) false false None.

Definition one_worker_at_fourth (i : nat) : Z := if (i =? 3)%nat then 3 else 1.

Definition ready1 : State :=
  mkState {[ 1%positive := handle1 ]} {[ 1%positive := model4 ]} ∅ []
          (quiet_world (count_source one_worker_at_fourth)).

(** The state [Predict] returns in: the connection went from the head of the
    queue to its end, a write and a read were made on it. *)
Definition predicted (q : loc) (ch : Chan) (conn : Conn) (rest : list Conn)
    (wire : list byte) (s : State) : State :=
  mkState (daemons s) (models s)
          (<[q := mkChan (ch_cap ch) (rest ++ [conn])]> (chans s))
          (EvRead conn :: EvWrite conn wire :: history s) (env s).

(** What the check before a start leaves in the history, newest first:
    nothing, or the kill of the daemon found on [port] and the polls that saw
    it go. *)
Definition kill_and_polls (port : Z) (evs : list Event) : Prop :=
  evs = [] \/ exists w, evs = w ++ [EvStart (pkill_command port)]
                        /\ Forall (fun e => polling e = true) w.

(** The events of a [Run] that returns, newest first: the polls [w1] of the
    check that nothing runs on the port, [pk], the start of the daemon, the
    polls [w2] until it is seen, the dials of the connections. *)
Definition run_events (d : VWDaemon) (m : VWModel) (w1 pk w2 : list Event) : list Event :=
  replicate (Z.to_nat (GoInt.div (Children d) 2)) (EvDial (Port d))
  ++ w2 ++ [EvStart (start_command d m)] ++ pk ++ w1.

(** The events of a [RecreateDaemon] that returns, newest first: the stat
    of the model file, the start of a watcher on the new handle [newVW] when
    the model is updatable, the events of the [Run] of the new handle, the
    kill of the old daemon by the deferred [Stop], and its polls [w3]. *)
Definition reload_events (old : VWDaemon) (m : VWModel) (newVW lm : loc)
    (w1 pk w2 w3 : list Event) : list Event :=
  w3 ++ [EvStart (pkill_command (Port old))]
  ++ run_events (replacement old lm None) m w1 pk w2
  ++ (if Updatable m then [EvGo newVW] else []) ++ [EvStat (Path m)].

(** The events of [rounds] turns of the model watcher that find the model
    file unchanged, newest first. *)
Definition idle_rounds (m : VWModel) (rounds : nat) : list Event :=
  concat (replicate rounds [EvStat (Path m); EvSleep 1000]).

(** A failure other than the exit of [Run] for a daemon that does not come
    up. *)
Definition not_the_start_exit (f : Failure) : Prop :=
  f <> Fatal "Failed to start daemon!".

(** A source that never sees the new daemon. *)
Definition never4 : State := state4 (count_source idle_source).

Definition write_of (e : Event) : option Conn :=
  match e with EvWrite c _ => Some c | _ => None end.

(** A client that calls [Predict] on the requests, one after the other. *)
Fixpoint Predict_each {P : Type} (ParsePredictResult : string -> P)
    (vw : loc) (reqs : list (list byte)) : M (list (P * option error)) :=
  match reqs with
  | [] => ret []
  | pData :: reqs' =>
      r <- Predict ParsePredictResult vw pData ;;
      rs <- Predict_each ParsePredictResult vw reqs' ;;
      ret (r :: rs)
  end.

(** * Properties *)

(** ** Go integers *)

Lemma wrap_in_range z : GoInt.in_range z -> GoInt.wrap z = z.
Proof.
  unfold GoInt.in_range, GoInt.int_min, GoInt.int_max, GoInt.wrap. intros H.
  rewrite Z.mod_small by lia. lia.
Qed.

Lemma div2_in_range n : GoInt.in_range n -> GoInt.div n 2 = Z.quot n 2.
Proof.
  intros H. unfold GoInt.div. apply wrap_in_range.
  unfold GoInt.in_range, GoInt.int_min, GoInt.int_max in *.
  destruct (Z.le_gt_cases 0 n).
  - rewrite Z.quot_div_nonneg by lia.
    pose proof (Z.div_pos n 2). pose proof (Z.div_le_upper_bound n 2 n). lia.
  - pose proof (Z.quot_opp_l n 2 ltac:(lia)) as Ho.
    assert (Z.quot n 2 = - Z.quot (- n) 2) as -> by lia.
    rewrite Z.quot_div_nonneg by lia.
    pose proof (Z.div_pos (- n) 2). pose proof (Z.div_le_upper_bound (- n) 2 (- n)). lia.
Qed.

(** ** The monad *)

Lemma bind_Ret {A B} (m : M A) (k : A -> M B) s b s' :
  bind m k s = Ret b s' -> exists a s1, m s = Ret a s1 /\ k a s1 = Ret b s'.
Proof. unfold bind. destruct (m s) as [a s1|f s1]; [eauto | discriminate]. Qed.

Lemma bind_eq {A B} (m : M A) (k : A -> M B) s a s1 :
  m s = Ret a s1 -> bind m k s = k a s1.
Proof. unfold bind. by intros ->. Qed.

Lemma bind_abort {A B} (m : M A) (k : A -> M B) s f s1 :
  m s = Abort f s1 -> bind m k s = Abort f s1.
Proof. unfold bind. by intros ->. Qed.

(** *** Relations every step of a statement keeps *)

Section Preservation.

Variable R : State -> State -> Prop.
Hypothesis R_refl : forall s, R s s.
Hypothesis R_trans : forall s1 s2 s3, R s1 s2 -> R s2 s3 -> R s1 s3.

Lemma keeps_bind {A B} (m : M A) (k : A -> M B) s :
  keeps R m s ->
  (forall a s1, m s = Ret a s1 -> keeps R (k a) s1) ->
  keeps R (bind m k) s.
Proof.
  unfold keeps, bind. intros Hm Hk.
  destruct (m s) as [a s1|f s1]; simpl in *; [|done].
  eapply R_trans; [done | by apply Hk].
Qed.

Lemma preserves_ret {A} (a : A) : preserves R (ret a).
Proof. intros s. apply R_refl. Qed.

Lemma preserves_abort {A} f : preserves R (@abort A f).
Proof. intros s. apply R_refl. Qed.

Lemma preserves_bind {A B} (m : M A) (k : A -> M B) :
  preserves R m -> (forall a, preserves R (k a)) -> preserves R (bind m k).
Proof. intros Hm Hk s. apply keeps_bind; [apply Hm | intros; apply Hk]. Qed.

Lemma keeps_defer {A} (d : M unit) (body : M A) s :
  keeps R body s -> preserves R d -> keeps R (defer d body) s.
Proof.
  unfold keeps, defer. intros Hb Hd.
  destruct (body s) as [a s1|[msg|msg|] s1]; simpl in *; try done.
  - specialize (Hd s1). unfold keeps in Hd.
    destruct (d s1); simpl in *; eapply R_trans; done.
  - specialize (Hd s1). unfold keeps in Hd.
    destruct (d s1); simpl in *; eapply R_trans; done.
Qed.

Lemma preserves_load_daemon l : preserves R (load_daemon l).
Proof. intros s. unfold keeps, load_daemon. destruct (daemons s !! l); apply R_refl. Qed.

Lemma preserves_load_model l : preserves R (load_model l).
Proof.
  intros s. unfold keeps, load_model. destruct l as [l|]; [|apply R_refl].
  destruct (models s !! l); apply R_refl.
Qed.

End Preservation.

Lemma preserves_weaken {A} (R R' : State -> State -> Prop) (m : M A) :
  (forall s s', R s s' -> R' s s') -> preserves R m -> preserves R' m.
Proof. intros Hsub Hm s. apply Hsub, Hm. Qed.

(** *** Statements that only talk to the operating system *)

Lemma later_refl s : later s s.
Proof. by exists []. Qed.

Lemma later_trans s1 s2 s3 : later s1 s2 -> later s2 s3 -> later s1 s3.
Proof. intros [e1 H1] [e2 H2]. exists (e2 ++ e1). by rewrite H2, H1, app_assoc. Qed.

Lemma later_elem_of e s s' : later s s' -> e ∈ history s -> e ∈ history s'.
Proof. intros [evs ->] He. apply elem_of_app. by right. Qed.

Lemma frame_refl s : frame s s.
Proof. unfold frame. auto using later_refl. Qed.

Lemma frame_trans s1 s2 s3 : frame s1 s2 -> frame s2 s3 -> frame s1 s3.
Proof.
  unfold frame. intros (?&?&?&?&?) (?&?&?&?&?).
  repeat split; try congruence. by eapply later_trans.
Qed.

Lemma frame_record e s : frame s (record e s).
Proof. unfold frame. repeat split. by exists [e]. Qed.

Lemma pure_io_ret {A} (a : A) : pure_io (ret a).
Proof. apply preserves_ret, frame_refl. Qed.

Lemma pure_io_abort {A} f : pure_io (@abort A f).
Proof. apply preserves_abort, frame_refl. Qed.

Lemma pure_io_bind {A B} (m : M A) (k : A -> M B) :
  pure_io m -> (forall a, pure_io (k a)) -> pure_io (bind m k).
Proof. apply preserves_bind, frame_trans. Qed.

Lemma pure_io_load_daemon l : pure_io (load_daemon l).
Proof. apply preserves_load_daemon, frame_refl. Qed.

Lemma pure_io_load_model l : pure_io (load_model l).
Proof. apply preserves_load_model, frame_refl. Qed.

Lemma pure_io_stat path : pure_io (stat path).
Proof. intros s. apply frame_record. Qed.

Lemma pure_io_sleep ms : pure_io (sleep ms).
Proof. intros s. apply frame_record. Qed.

Lemma pure_io_runCommand cmd quiet : pure_io (runCommand cmd quiet).
Proof.
  intros s. unfold keeps, runCommand. destruct quiet.
  - destruct (sh_start _ _ _); apply frame_record.
  - destruct (sh_output _ _ _); apply frame_record.
Qed.

Create HintDb pure_io.
#[local] Hint Resolve pure_io_ret pure_io_abort pure_io_load_daemon pure_io_load_model
  pure_io_stat pure_io_sleep pure_io_runCommand : pure_io.

Ltac pure_io_step :=
  match goal with
  | |- pure_io (bind _ _) => apply pure_io_bind; [|intros ?]
  | |- pure_io (match ?x with _ => _ end) => destruct x
  | |- pure_io (if ?x then _ else _) => destruct x
  | |- pure_io _ => solve [auto with pure_io]
  end.

Lemma pure_io_WorkersCount vw : pure_io (WorkersCount vw).
Proof. unfold WorkersCount. repeat pure_io_step. Qed.

Lemma pure_io_IsExist_from n vw delay err : pure_io (IsExist_from n vw delay err).
Proof.
  revert err. induction n as [|n IH]; intros err; simpl.
  - repeat pure_io_step.
  - pose proof pure_io_WorkersCount. repeat pure_io_step.
Qed.

Lemma pure_io_IsExist vw tries delay : pure_io (IsExist vw tries delay).
Proof. apply pure_io_IsExist_from. Qed.

Lemma pure_io_Stop vw : pure_io (Stop vw).
Proof. pose proof pure_io_IsExist. unfold Stop. repeat pure_io_step. Qed.

Lemma pure_io_IsChanged model : pure_io (IsChanged model).
Proof. unfold IsChanged. repeat pure_io_step. Qed.

(** ** The health check *)

Section HealthCheck.

Variables (vw : loc) (h : VWDaemon) (delay : Z).

Lemma load_daemon_eq s : daemons s !! vw = Some h -> load_daemon vw s = Ret h s.
Proof. unfold load_daemon. by intros ->. Qed.

Lemma WorkersCount_eq s :
  daemons s !! vw = Some h ->
  WorkersCount vw s
  = Ret (poll_at s h 0) (record (EvOutput (pgrep_command (Port h))) s).
Proof.
  intros Hh. unfold WorkersCount. rewrite (bind_eq _ _ _ _ _ (load_daemon_eq s Hh)).
  unfold poll_at, bind, runCommand, count_result. rewrite Nat.add_0_r.
  by destruct (sh_output _ _ _) as [[c|]|].
Qed.

Lemma polls_missed_round s :
  polls (history (missed_round h delay s)) = S (polls (history s)).
Proof. done. Qed.

Lemma poll_at_missed_round s i :
  poll_at (missed_round h delay s) h i = poll_at s h (S i).
Proof. unfold poll_at. rewrite polls_missed_round. simpl. by rewrite Nat.add_succ_r. Qed.

Lemma after_rounds_S k s :
  after_rounds (S k) h delay s = after_rounds k h delay (missed_round h delay s).
Proof. unfold after_rounds. by rewrite Nat.iter_succ_r. Qed.

Lemma frame_after_rounds k s : frame s (after_rounds k h delay s).
Proof.
  induction k as [|k IH]; [apply frame_refl|].
  unfold after_rounds in *. simpl. eapply frame_trans; [exact IH|].
  unfold missed_round. eapply frame_trans; apply frame_record.
Qed.

Lemma polls_after_rounds k s :
  polls (history (after_rounds k h delay s)) = (polls (history s) + k)%nat.
Proof.
  induction k as [|k IH]; [by rewrite Nat.add_0_r|].
  unfold after_rounds in *. rewrite Nat.iter_succ, polls_missed_round, IH. lia.
Qed.

(** One turn of the loop. *)
Lemma IsExist_from_S n err s :
  daemons s !! vw = Some h ->
  IsExist_from (S n) vw delay err s
  = if (poll_at s h 0).1 =? (expected h)
    then Ret true (record (EvOutput (pgrep_command (Port h))) s)
    else IsExist_from n vw delay (poll_at s h 0).2 (missed_round h delay s).
Proof.
  intros Hh. simpl.
  rewrite (bind_eq _ _ _ _ _ (WorkersCount_eq s Hh)).
  rewrite (bind_eq _ _ _ h (record (EvOutput (pgrep_command (Port h))) s))
    by (by apply load_daemon_eq).
  fold (expected h). by destruct (_ =? (expected h)).
Qed.

(** The first poll that sees the expected count ends the check. *)
Lemma IsExist_from_hit k : forall n err s,
  (k < n)%nat ->
  daemons s !! vw = Some h ->
  (poll_at s h k).1 = (expected h) ->
  (forall j, (j < k)%nat -> (poll_at s h j).1 <> (expected h)) ->
  IsExist_from n vw delay err s
  = Ret true (record (EvOutput (pgrep_command (Port h))) (after_rounds k h delay s)).
Proof.
  induction k as [|k IH]; intros n err s Hk Hh Hhit Hmiss.
  - destruct n as [|n]; [lia|]. rewrite IsExist_from_S by done.
    rewrite Hhit, Z.eqb_refl. done.
  - destruct n as [|n]; [lia|]. rewrite IsExist_from_S by done.
    destruct (Z.eqb_spec (poll_at s h 0).1 (expected h)) as [E|_].
    { by destruct (Hmiss 0%nat ltac:(lia)). }
    rewrite after_rounds_S. apply IH.
    + lia.
    + done.
    + by rewrite poll_at_missed_round.
    + intros j Hj. rewrite poll_at_missed_round. apply Hmiss. lia.
Qed.

Lemma IsExist_from_miss n : forall err s,
  daemons s !! vw = Some h ->
  (forall j, (j < n)%nat -> (poll_at s h j).1 <> (expected h)) ->
  IsExist_from n vw delay err s
  = match last_err h n err s with
    | Some _ => Abort (Fatal "Can't getting VW workers count.") (after_rounds n h delay s)
    | None => Ret false (after_rounds n h delay s)
    end.
Proof.
  induction n as [|n IH]; intros err s Hh Hmiss.
  - simpl. by destruct err.
  - rewrite IsExist_from_S by done.
    destruct (Z.eqb_spec (poll_at s h 0).1 (expected h)) as [E|_].
    { by destruct (Hmiss 0%nat ltac:(lia)). }
    rewrite after_rounds_S, IH.
    + destruct n as [|n]; simpl; [done|]. by rewrite poll_at_missed_round.
    + done.
    + intros j Hj. rewrite poll_at_missed_round. apply Hmiss. lia.
Qed.

End HealthCheck.

(** Among the first [n] polls either one is the first to see the expected
    count, or none sees it. *)
Lemma first_hit_or_miss (obs : nat -> Z) (target : Z) (n : nat) :
  (exists k, (k < n)%nat /\ obs k = target /\ forall j, (j < k)%nat -> obs j <> target)
  \/ (forall j, (j < n)%nat -> obs j <> target).
Proof.
  induction n as [|n [(k & Hk & Hhit & Hmiss)|Hmiss]].
  - right. intros j Hj. lia.
  - left. exists k. repeat split; [lia|done|done].
  - destruct (Z.eq_dec (obs n) target) as [E|NE].
    + left. exists n. repeat split; [lia|done|done].
    + right. intros j Hj. destruct (Nat.eq_dec j n) as [->|]; [done|]. apply Hmiss. lia.
Qed.

Lemma poll_at_count_source s h src i :
  sh_output (env s) = count_source src ->
  poll_at s h i = (GoInt.sub (src (polls (history s) + i)%nat) 1, None).
Proof. unfold poll_at. by intros ->. Qed.

(** C4. For every [tries >= 1] and every process-count source, [IsExist]
    polls at most [tries] times; it returns true at the first poll whose
    count, as [WorkersCount] reports it, is [Children + 1], with no poll
    after that one; it returns false, after [tries] polls, when no poll sees
    that count. *)
Theorem IsExist_polls_until_expected_count :
  forall (tries : Z) (src : nat -> Z) (vw : loc) (h : VWDaemon) (delay : Z) (s : State),
    1 <= tries ->
    daemons s !! vw = Some h ->
    sh_output (env s) = count_source src ->
    let expected := GoInt.add (Children h) 1 in
    let observed (i : nat) := GoInt.sub (src (polls (history s) + i)%nat) 1 in
    let made (s' : State) := (polls (history s') - polls (history s))%nat in
    Z.of_nat (made (final (IsExist vw tries delay s))) <= tries
    /\ (forall k : nat,
          Z.of_nat k < tries -> observed k = expected ->
          (forall j, (j < k)%nat -> observed j <> expected) ->
          exists s', IsExist vw tries delay s = Ret true s' /\ made s' = S k)
    /\ ((forall j : nat, Z.of_nat j < tries -> observed j <> expected) ->
        exists s', IsExist vw tries delay s = Ret false s' /\ Z.of_nat (made s') = tries).
Proof.
  intros tries src vw h delay s Htries Hh Hsrc expected observed made.
  assert (Hobs : forall i, (poll_at s h i).1 = observed i).
  { intros i. by rewrite (poll_at_count_source s h src i Hsrc). }
  assert (Hhit : forall k : nat,
            Z.of_nat k < tries -> observed k = expected ->
            (forall j, (j < k)%nat -> observed j <> expected) ->
            exists s', IsExist vw tries delay s = Ret true s' /\ made s' = S k).
  { intros k Hk Hhit Hmiss. eexists. split.
    - unfold IsExist. apply (IsExist_from_hit vw h delay k); [lia|done|..].
      + by rewrite Hobs.
      + intros j Hj. rewrite Hobs. by apply Hmiss.
    - unfold made. simpl. change (S (polls ?x)) with (S (polls x)).
      unfold polls at 1. simpl. fold (polls (history (after_rounds k h delay s))).
      rewrite polls_after_rounds. lia. }
  assert (Hmiss : (forall j : nat, Z.of_nat j < tries -> observed j <> expected) ->
            exists s', IsExist vw tries delay s = Ret false s' /\ Z.of_nat (made s') = tries).
  { intros Hmiss. exists (after_rounds (Z.to_nat tries) h delay s). split.
    - unfold IsExist. rewrite (IsExist_from_miss vw h delay) by
        (try done; intros j Hj; rewrite Hobs; apply Hmiss; lia).
      assert (last_err h (Z.to_nat tries) None s = None) as ->; [|done].
      destruct (Z.to_nat tries) as [|n] eqn:En; [lia|]. simpl.
      by rewrite (poll_at_count_source s h src n Hsrc).
    - unfold made. rewrite polls_after_rounds. lia. }
  split; [|split; done].
  destruct (first_hit_or_miss observed expected (Z.to_nat tries))
    as [(k & Hk & Hk1 & Hk2)|Hnone].
  - destruct (Hhit k ltac:(lia) Hk1 Hk2) as (s' & -> & Hm). simpl. fold (made s'). lia.
  - destruct Hmiss as (s' & -> & Hm); [intros j Hj; apply Hnone; lia|].
    simpl. fold (made s'). lia.
Qed.

Lemma IsExist_polls_until_expected_count_witness :
  1 <= 3 /\
  exists s', IsExist 1%positive 3 500 (state4 (count_source six_at_second)) = Ret true s'
             /\ polls (history s') = 2%nat.
Proof.
  split; [lia|].
  pose proof (IsExist_polls_until_expected_count 3 six_at_second 1%positive handle4 500
                (state4 (count_source six_at_second)) ltac:(lia) eq_refl eq_refl) as H.
  cbv zeta in H. destruct H as (_ & Hhit & _).
  destruct (Hhit 1%nat) as (s' & Hs' & Hmade).
  - lia.
  - reflexivity.
  - intros j Hj. assert (j = 0%nat) as -> by lia. vm_compute. discriminate.
  - exists s'. split; [exact Hs'|].
    change (polls (history s') - 0 = 2)%nat in Hmade. lia.
Defined.

(** C5, as stated, fails: the first query of a check with two tries cannot be
    run, the check polls again and returns true (or false), it is not
    fatal. *)
Lemma IsExist_recovers_from_failed_query :
  (poll_at (state4 fails_then_six) handle4 0).2 = Some ErrExec
  /\ (exists s', IsExist 1%positive 2 500 (state4 fails_then_six) = Ret true s'
                 /\ polls (history s') = 2%nat)
  /\ (poll_at (state4 fails_then_one) handle4 0).2 = Some ErrExec
  /\ (exists s', IsExist 1%positive 2 500 (state4 fails_then_one) = Ret false s'
                 /\ polls (history s') = 2%nat).
Proof.
  split; [reflexivity|]. split; [eexists; split; reflexivity|].
  split; [reflexivity|]. eexists; split; reflexivity.
Qed.

(** C5, amended. A query that fails does not end the check: the failure is
    kept, the check sleeps and polls again.  The check is fatal exactly when
    no poll among the [tries] saw the expected count and the last of them
    failed (a failed poll counts as seeing zero); it is then fatal after all
    [tries] polls. *)
Theorem IsExist_fatal_iff_last_query_fails :
  forall (tries : Z) (vw : loc) (h : VWDaemon) (delay : Z) (s : State),
    1 <= tries ->
    daemons s !! vw = Some h ->
    let expected := GoInt.add (Children h) 1 in
    let n := Z.to_nat tries in
    forall (f : Failure) (s' : State),
      IsExist vw tries delay s = Abort f s'
      <-> ((forall j, (j < n)%nat -> (poll_at s h j).1 <> expected)
           /\ (poll_at s h (n - 1)).2 <> None
           /\ f = Fatal "Can't getting VW workers count."
           /\ s' = after_rounds n h delay s).
Proof.
  intros tries vw h delay s Htries Hh expected n f s'.
  assert (Hlast : last_err h n None s = (poll_at s h (n - 1)).2).
  { subst n. destruct (Z.to_nat tries) as [|m] eqn:E; [lia|].
    simpl. by rewrite Nat.sub_0_r. }
  unfold IsExist. fold n. split.
  - destruct (first_hit_or_miss (fun i => (poll_at s h i).1) expected n)
      as [(k & Hk & Hk1 & Hk2)|Hnone].
    + by rewrite (IsExist_from_hit vw h delay k n None s Hk Hh Hk1 Hk2).
    + rewrite (IsExist_from_miss vw h delay n None s Hh Hnone), Hlast.
      destruct (poll_at s h (n - 1)).2; [|done].
      intros [= <- <-]. done.
  - intros (Hnone & Hfail & -> & ->).
    rewrite (IsExist_from_miss vw h delay n None s Hh Hnone), Hlast.
    by destruct (poll_at s h (n - 1)).2.
Qed.

Lemma IsExist_fatal_iff_last_query_fails_witness :
  1 <= 2 /\
  IsExist 1%positive 2 500 (state4 always_fails)
  = Abort (Fatal "Can't getting VW workers count.")
          (after_rounds 2 handle4 500 (state4 always_fails)).
Proof.
  split; [lia|].
  apply (IsExist_fatal_iff_last_query_fails 2 1%positive handle4 500 (state4 always_fails)
           ltac:(lia) eq_refl).
  split; [|split; [|split]]; try reflexivity.
  - intros j _. vm_compute. discriminate.
  - vm_compute. discriminate.
Defined.

(** ** The line terminator of a request *)

Lemma terminate_index (pData : list byte) :
  terminate pData
  = match pData !! pred (length pData) with
    | None => None
    | Some b => if Byte.eqb b endOfLine then Some pData else Some (pData ++ [endOfLine])
    end.
Proof. unfold terminate. by rewrite last_lookup. Qed.

Lemma terminate_terminated (pData : list byte) :
  last pData = Some endOfLine -> terminate pData = Some pData.
Proof. unfold terminate. by intros ->. Qed.

Lemma terminate_unterminated (pData : list byte) :
  pData <> [] -> last pData <> Some endOfLine ->
  terminate pData = Some (pData ++ [endOfLine]).
Proof.
  unfold terminate. intros Hne Hlast.
  destruct (last pData) as [b|] eqn:E; [|by apply last_None in E].
  destruct (Byte.eqb b endOfLine) eqn:Eb; [|done].
  apply byte_dec_bl in Eb. by subst.
Qed.

(** C8, as stated, fails on the empty request: it does not end in the
    terminator, and the step does not give the payload of one terminator
    byte, it gives no payload. *)
Lemma terminate_empty_request :
  last ([] : list byte) <> Some endOfLine
  /\ terminate [] <> Some ([] ++ [endOfLine])
  /\ terminate [] = None.
Proof. by repeat split. Qed.

(** C8, amended. For every request of at least one byte: when it ends in the
    terminator the payload is the request; when it does not, the payload is
    the request with one terminator byte after it; and the step applied to
    the payload gives the payload again, which ends in one terminator. *)
Theorem terminate_idempotent :
  forall pData : list byte,
    pData <> [] ->
    (last pData = Some endOfLine -> terminate pData = Some pData)
    /\ (last pData <> Some endOfLine -> terminate pData = Some (pData ++ [endOfLine]))
    /\ (exists wire, terminate pData = Some wire
                     /\ terminate wire = Some wire
                     /\ (terminate pData ≫= terminate) = terminate pData
                     /\ last wire = Some endOfLine
                     /\ (wire = pData \/ wire = pData ++ [endOfLine])).
Proof.
  intros pData Hne. split; [apply terminate_terminated|].
  split; [by apply terminate_unterminated|].
  destruct (decide (last pData = Some endOfLine)) as [E|NE].
  - exists pData. rewrite (terminate_terminated _ E). simpl.
    rewrite (terminate_terminated _ E). repeat split; auto.
  - exists (pData ++ [endOfLine]). rewrite (terminate_unterminated _ Hne NE). simpl.
    rewrite (terminate_terminated (pData ++ [endOfLine])) by apply last_snoc.
    repeat split; auto using last_snoc.
Qed.

Lemma terminate_idempotent_witness :
  [x31; x20; x7c] <> ([] : list byte)
  /\ terminate [x31; x20; x7c] = Some [x31; x20; x7c; x0a]
  /\ terminate [x31; x20; x7c; x0a] = Some [x31; x20; x7c; x0a].
Proof.
  split; [discriminate|].
  destruct (terminate_idempotent [x31; x20; x7c] ltac:(discriminate)) as (_ & Hadd & _).
  destruct (terminate_idempotent [x31; x20; x7c; x0a] ltac:(discriminate)) as (Hkeep & _).
  split; [apply Hadd; discriminate | apply Hkeep; reflexivity].
Defined.

(** C10. [Predict] on the empty request panics at its first statement, the
    index [len(pData)-1] being out of range: the state is the one it was
    called in, no connection is taken from the queue.  The empty request is
    the only one on which that statement fails. *)
Theorem Predict_empty_request_panics :
  forall (P : Type) (ParsePredictResult : string -> P) (vw : loc) (s : State),
    Predict ParsePredictResult vw [] s = Abort (Panic "index out of range [-1]") s
    /\ forall pData : list byte, terminate pData = None <-> pData = [].
Proof.
  intros P parse vw s. split; [done|].
  intros pData. unfold terminate. split.
  - destruct (last pData) as [b|] eqn:E.
    + by destruct (Byte.eqb b endOfLine).
    + intros _. by apply last_None.
  - by intros ->.
Qed.

(** ** The connection pool *)

Lemma remove_one_perm (c : Conn) (l : list Conn) :
  c ∈ l -> c :: remove_one c l ≡ₚ l.
Proof.
  induction l as [|x l IH]; [by intros ?%elem_of_nil|].
  intros Hc. simpl. destruct (decide (x = c)) as [->|NE]; [done|].
  apply elem_of_cons in Hc as [->|Hc]; [done|].
  rewrite Permutation_swap. by rewrite IH.
Qed.

Lemma pool_step_inv cap conns op p p' :
  pool_inv cap conns p -> pool_step op p = Some p' -> pool_inv cap conns p'.
Proof.
  unfold pool_inv, pool_conns. intros [Hcap Hperm] Hstep.
  destruct op as [|c]; simpl in Hstep.
  - unfold chan_take in Hstep. destruct (ch_buf (pool_chan p)) as [|c rest] eqn:E; [done|].
    injection Hstep as <-. simpl. split; [done|].
    rewrite <- Hperm. simpl. by rewrite Permutation_middle.
  - destruct (decide (c ∈ pool_out p)) as [Hin|]; [|done].
    unfold chan_put in Hstep.
    destruct (Z.of_nat (length (ch_buf (pool_chan p))) <? ch_cap (pool_chan p)); [|done].
    injection Hstep as <-. simpl. split; [done|].
    rewrite <- Hperm, <- app_assoc. simpl.
    apply Permutation_app_head. by apply remove_one_perm.
Qed.

Lemma pool_run_inv cap conns ops : forall p,
  pool_inv cap conns p -> pool_inv cap conns (pool_run ops p).
Proof.
  induction ops as [|op ops IH]; intros p Hp; [done|].
  unfold pool_run. simpl. apply IH.
  destruct (pool_step op p) as [p'|] eqn:E; [|done].
  simpl. by eapply pool_step_inv.
Qed.

Lemma pool_inv_out cap conns p :
  pool_inv cap conns p ->
  (length (ch_buf (pool_chan p)) + length (pool_out p) = length conns)%nat.
Proof. intros [_ Hperm]. rewrite <- Hperm. unfold pool_conns. by rewrite length_app. Qed.

(** A goroutine that holds a connection of a pool with as many connections
    as the capacity can always put it back. *)
Lemma pool_checkin_proceeds cap conns p c :
  pool_inv cap conns p -> Z.of_nat (length conns) = cap ->
  c ∈ pool_out p -> is_Some (pool_step (Checkin c) p).
Proof.
  intros Hinv Hlen Hin. pose proof (pool_inv_out _ _ _ Hinv) as Hsum.
  destruct Hinv as [Hcap _]. simpl.
  destruct (decide (c ∈ pool_out p)); [|done]. unfold chan_put.
  destruct (pool_out p) as [|x out]; [by apply elem_of_nil in Hin|]. simpl in Hsum.
  destruct (Z.ltb_spec (Z.of_nat (length (ch_buf (pool_chan p)))) (ch_cap (pool_chan p)));
    [done|lia].
Qed.

(** ** Starting a daemon *)

Lemma chans_only_refl s : chans_only s s.
Proof. unfold chans_only. auto using later_refl. Qed.

Lemma chans_only_trans s1 s2 s3 : chans_only s1 s2 -> chans_only s2 s3 -> chans_only s1 s3.
Proof.
  unfold chans_only. intros (?&?&?&?) (?&?&?&?).
  repeat split; try congruence. by eapply later_trans.
Qed.

Lemma frame_chans_only s s' : frame s s' -> chans_only s s'.
Proof. unfold frame, chans_only. intros (?&?&?&?&?). done. Qed.

Lemma set_queue_same d : set_queue d (TCPQueue d) = d.
Proof. by destruct d. Qed.

Lemma set_queue_twice d q q' : set_queue (set_queue d q) q' = set_queue d q'.
Proof. done. Qed.

Lemma queue_only_refl vw s : queue_only vw s s.
Proof.
  unfold queue_only. repeat split; auto using later_refl.
  destruct (daemons s !! vw) as [d|] eqn:E.
  - exists (TCPQueue d). simpl. by rewrite set_queue_same.
  - by exists None.
Qed.

Lemma queue_only_trans vw s1 s2 s3 :
  queue_only vw s1 s2 -> queue_only vw s2 s3 -> queue_only vw s1 s3.
Proof.
  unfold queue_only. intros (?&?&?&Ha&q1&Hq1) (?&?&?&Hb&q2&Hq2).
  repeat split; try congruence.
  - by eapply later_trans.
  - intros l Hl. by rewrite Hb, Ha.
  - exists q2. rewrite Hq2, Hq1. by destruct (daemons s1 !! vw).
Qed.

Lemma chans_only_queue_only vw s s' : chans_only s s' -> queue_only vw s s'.
Proof.
  intros (Hd&?&?&?). unfold queue_only. repeat split; try done.
  - intros l _. by rewrite Hd.
  - rewrite Hd. apply (queue_only_refl vw s).
Qed.

Lemma load_daemon_Ret l d s s' :
  load_daemon l s = Ret d s' -> s' = s /\ daemons s !! l = Some d.
Proof. unfold load_daemon. destruct (daemons s !! l); naive_solver. Qed.

Lemma load_model_Ret o m s s' :
  load_model o s = Ret m s' -> s' = s /\ exists l, o = Some l /\ models s !! l = Some m.
Proof.
  unfold load_model. destruct o as [l|]; [|done].
  destruct (models s !! l) eqn:E; naive_solver.
Qed.

Lemma load_model_eq l m s : models s !! l = Some m -> load_model (Some l) s = Ret m s.
Proof. unfold load_model. by intros ->. Qed.

Lemma pure_io_getTCPConn vw : pure_io (getTCPConn vw).
Proof.
  unfold getTCPConn. apply pure_io_bind; [apply pure_io_load_daemon|].
  intros d s. unfold keeps. destruct (tcp_dial _ _ _); apply frame_record.
Qed.

Lemma getTCPConn_Ret vw c s s' :
  getTCPConn vw s = Ret c s' -> frame s s' /\ c = now s.
Proof.
  intros H. split; [by pose proof (pure_io_getTCPConn vw s) as Hf; unfold keeps in Hf; rewrite H in Hf|].
  unfold getTCPConn in H. apply bind_Ret in H as (d & s1 & (-> & _)%load_daemon_Ret & H).
  destruct (tcp_dial _ _ _); naive_solver.
Qed.

Lemma chans_only_set_chan l ch s : chans_only s (set_chan l ch s).
Proof. unfold chans_only. simpl. repeat split. by exists []. Qed.

Lemma preserves_chan_send q c : preserves chans_only (chan_send q c).
Proof.
  intros s. unfold keeps, chan_send.
  destruct (q ≫= _) as [[l ch']|]; [apply chans_only_set_chan | apply chans_only_refl].
Qed.

Lemma preserves_chan_recv q : preserves chans_only (chan_recv q).
Proof.
  intros s. unfold keeps, chan_recv.
  destruct (q ≫= _) as [[l [c ch']]|]; [apply chans_only_set_chan | apply chans_only_refl].
Qed.

Lemma preserves_make_chan size : preserves chans_only (make_chan size).
Proof.
  intros s. unfold keeps, make_chan.
  destruct (size <? 0); [apply chans_only_refl | apply chans_only_set_chan].
Qed.

Lemma preserves_fill_queue n vw : preserves chans_only (fill_queue n vw).
Proof.
  induction n as [|n IH]; simpl.
  - apply preserves_ret, chans_only_refl.
  - apply preserves_bind; [apply chans_only_trans|apply preserves_load_daemon, chans_only_refl|].
    intros d. apply preserves_bind; [apply chans_only_trans| |].
    + eapply preserves_weaken; [apply frame_chans_only | apply pure_io_getTCPConn].
    + intros c. apply preserves_bind; [apply chans_only_trans|apply preserves_chan_send|done].
Qed.

Lemma preserves_makeTCPConnQueue vw : preserves chans_only (makeTCPConnQueue vw).
Proof.
  unfold makeTCPConnQueue.
  apply preserves_bind; [apply chans_only_trans|apply preserves_load_daemon, chans_only_refl|].
  intros d. apply preserves_fill_queue.
Qed.

Lemma chan_send_Ret l c s s' :
  chan_send (Some l) c s = Ret tt s' ->
  exists ch, chans s !! l = Some ch
             /\ Z.of_nat (length (ch_buf ch)) < ch_cap ch
             /\ s' = set_chan l (mkChan (ch_cap ch) (ch_buf ch ++ [c])) s.
Proof.
  unfold chan_send. simpl. destruct (chans s !! l) as [ch|] eqn:E; [|done]. simpl.
  unfold chan_put. destruct (Z.ltb_spec (Z.of_nat (length (ch_buf ch))) (ch_cap ch)); [|done].
  simpl. intros [= <-]. by exists ch.
Qed.

(** A loop of [n] sends that returns has put [n] connections in the queue. *)
Lemma fill_queue_Ret vw d l n : forall ch s s',
  fill_queue n vw s = Ret tt s' ->
  daemons s !! vw = Some d -> TCPQueue d = Some l -> chans s !! l = Some ch ->
  chans_only s s'
  /\ exists new, length new = n
                 /\ chans s' = <[l := mkChan (ch_cap ch) (ch_buf ch ++ new)]> (chans s).
Proof.
  induction n as [|n IH]; intros ch s s' Hrun Hd Hq Hch.
  - injection Hrun as <-. split; [apply chans_only_refl|]. exists []. simpl.
    rewrite app_nil_r. split; [done|].
    destruct ch. by rewrite insert_id.
  - simpl in Hrun.
    apply bind_Ret in Hrun as (d' & s0 & (-> & Hd')%load_daemon_Ret & Hrun).
    assert (d' = d) as -> by congruence.
    apply bind_Ret in Hrun as (c & s1 & (Hf1 & ->)%getTCPConn_Ret & Hrun).
    apply bind_Ret in Hrun as ([] & s2 & Hsend & Hrun).
    rewrite Hq in Hsend. apply chan_send_Ret in Hsend as (ch1 & Hch1 & Hroom & ->).
    pose proof Hf1 as (Hd1 & Hm1 & Hc1 & He1 & Hl1).
    assert (ch1 = ch) as -> by congruence.
    destruct (IH (mkChan (ch_cap ch) (ch_buf ch ++ [now s])) _ _ Hrun)
      as (Hco & new & Hlen & Hchans).
    + simpl. congruence.
    + done.
    + simpl. by rewrite lookup_insert_eq.
    + split.
      * eapply chans_only_trans; [|exact Hco].
        eapply chans_only_trans; [apply frame_chans_only, Hf1|].
        apply chans_only_set_chan.
      * exists (now s :: new). simpl in *. rewrite <- app_assoc in Hchans. simpl in Hchans.
        split; [by rewrite Hlen|].
        rewrite Hchans, insert_insert_eq. by rewrite Hc1.
Qed.

Lemma pure_io_Run_precheck vw running :
  pure_io (if running : bool then bind (Stop vw) (fun _ => ret tt) else ret tt).
Proof.
  destruct running; [|apply pure_io_ret].
  apply pure_io_bind; [apply pure_io_Stop | intros; apply pure_io_ret].
Qed.

Lemma frame_of_Ret {A} (m : M A) a s s' : pure_io m -> m s = Ret a s' -> frame s s'.
Proof. intros Hm H. specialize (Hm s). unfold keeps in Hm. by rewrite H in Hm. Qed.

Lemma store_daemon_queue_only vw d q s :
  daemons s !! vw = Some d -> keeps (queue_only vw) (store_daemon vw (set_queue d q)) s.
Proof.
  intros Hd. unfold keeps, queue_only. simpl. repeat split; [by exists []|..].
  - intros l Hl. by rewrite lookup_insert_ne.
  - exists q. by rewrite lookup_insert_eq, Hd.
Qed.

(** Whatever becomes of [Run], it leaves the models and the other handles
    alone, and changes of its own handle only the queue. *)
Lemma preserves_Run vw : preserves (queue_only vw) (Run vw).
Proof.
  pose proof (queue_only_refl vw) as Hrefl. pose proof (queue_only_trans vw) as Htrans.
  assert (Hio : forall A (m : M A), pure_io m -> preserves (queue_only vw) m).
  { intros A m. apply preserves_weaken. intros ?? ?%frame_chans_only.
    by apply chans_only_queue_only. }
  assert (Hco : forall A (m : M A), preserves chans_only m -> preserves (queue_only vw) m).
  { intros A m. apply preserves_weaken. apply chans_only_queue_only. }
  intros s. unfold Run.
  apply keeps_bind; [done|apply Hio, pure_io_IsExist|]. intros running s1 _.
  apply keeps_bind; [done|apply Hio, pure_io_Run_precheck|]. intros _ s2 _.
  apply keeps_bind; [done|apply Hio, pure_io_load_daemon|]. intros d s3 _.
  apply keeps_bind; [done|apply Hio, pure_io_load_model|]. intros m s4 _.
  apply keeps_bind; [done|apply Hio, pure_io_runCommand|]. intros r s5 _.
  destruct r.2; [apply preserves_abort, Hrefl|].
  apply keeps_bind; [done|apply Hio, pure_io_IsExist|]. intros started s6 _.
  destruct started; simpl; [|apply preserves_abort, Hrefl].
  apply keeps_bind; [done|apply Hio, pure_io_load_daemon|].
  intros d' s7 (-> & Hd')%load_daemon_Ret.
  apply keeps_bind; [done|apply Hco, preserves_make_chan|]. intros q s8 Hq.
  apply keeps_bind; [done| |].
  { apply store_daemon_queue_only.
    pose proof (preserves_make_chan (GoInt.div (Children d') 2) s6) as Hk.
    unfold keeps in Hk. rewrite Hq in Hk. simpl in Hk. destruct Hk as (Hk & _).
    by rewrite Hk. }
  intros _ s9 _.
  apply keeps_bind; [done|apply Hco, preserves_makeTCPConnQueue|]. intros _ s10 _.
  apply preserves_ret, Hrefl.
Qed.

(** What a [Run] that returns has done. *)
Lemma Run_Ret vw r s s' :
  Run vw s = Ret r s' ->
  r = None
  /\ exists d l m q buf s1,
       daemons s !! vw = Some d /\ Model d = Some l /\ models s !! l = Some m
       /\ frame s s1 /\ later (record (EvStart (start_command d m)) s1) s'
       /\ chans s !! q = None
       /\ daemons s' = <[vw := set_queue d (Some q)]> (daemons s)
       /\ models s' = models s /\ env s' = env s
       /\ chans s' = <[q := mkChan (GoInt.div (Children d) 2) buf]> (chans s)
       /\ Z.of_nat (length buf) = GoInt.div (Children d) 2.
Proof.
  unfold Run. intros H.
  apply bind_Ret in H as (running & s1 & Hf1%(frame_of_Ret _ _ _ _ (pure_io_IsExist _ _ _)) & H).
  apply bind_Ret in H as (? & s2 & Hf2%(frame_of_Ret _ _ _ _ (pure_io_Run_precheck _ _)) & H).
  apply bind_Ret in H as (d & ? & (-> & Hd)%load_daemon_Ret & H).
  apply bind_Ret in H as (m & ? & (-> & l & Hl & Hm)%load_model_Ret & H).
  apply bind_Ret in H as (out & s3 & Hstart & H).
  destruct out.2 eqn:Eout; [done|].
  assert (s3 = record (EvStart (start_command d m)) s2) as ->.
  { unfold runCommand in Hstart. destruct (sh_start _ _ _); by injection Hstart. }
  apply bind_Ret in H as (started & s4 & Hf4%(frame_of_Ret _ _ _ _ (pure_io_IsExist _ _ _)) & H).
  destruct started; simpl in H; [|done].
  apply bind_Ret in H as (d' & ? & (-> & Hd')%load_daemon_Ret & H).
  apply bind_Ret in H as (q & s5 & Hmk & H).
  apply bind_Ret in H as ([] & s6 & Hst & H).
  apply bind_Ret in H as ([] & s7 & Hfill & H).
  injection H as <- <-. split; [done|].
  pose proof (frame_trans _ _ _ Hf1 Hf2) as Hf12.
  pose proof (frame_trans _ _ _ (frame_record (EvStart (start_command d m)) s2) Hf4) as Hf24.
  pose proof (frame_trans _ _ _ Hf12 Hf24) as (Hd04 & Hm04 & Hc04 & He04 & Hl04).
  destruct Hf12 as (Hd02 & Hm02 & Hc02 & He02 & Hl02).
  assert (d' = d) as -> by (destruct Hf24 as (E & _); congruence).
  unfold make_chan in Hmk.
  destruct (Z.ltb_spec (GoInt.div (Children d) 2) 0) as [|Hsize]; [done|].
  injection Hmk as <- <-. injection Hst as <-.
  set (lq := fresh (dom (chans s4))) in *.
  assert (Hfresh : chans s4 !! lq = None).
  { apply not_elem_of_dom. apply is_fresh. }
  unfold makeTCPConnQueue in Hfill.
  apply bind_Ret in Hfill as (d2 & ? & (-> & Hd2)%load_daemon_Ret & Hfill).
  simpl in Hd2. rewrite lookup_insert_eq in Hd2. injection Hd2 as <-.
  eapply (fill_queue_Ret vw _ lq) in Hfill as (Hco & new & Hlen & Hchans);
    [|simpl; by rewrite lookup_insert_eq|done|simpl; by rewrite lookup_insert_eq].
  destruct Hco as (Hd7 & Hm7 & He7 & Hl7). simpl in *.
  exists d, l, m, lq, new, s2.
  split; [congruence|]. split; [done|]. split; [congruence|].
  split; [by repeat split|]. split.
  { eapply later_trans; [|exact Hl7]. destruct Hf4 as (_&_&_&_&Hl4). exact Hl4. }
  split; [congruence|]. split; [congruence|]. split; [congruence|]. split; [congruence|].
  split; [rewrite Hchans, insert_insert_eq; congruence|].
  rewrite Hlen. lia.
Qed.

(** C6. When [Run] returns, the queue of the handle is a channel this [Run]
    made, of capacity [Children / 2] (Go's integer division), holding exactly
    [Children / 2] connections.  Whatever sequence of checkouts and checkins
    follows, the connections held are at most [Children / 2], the connections
    queued and held together are the ones the queue was filled with (none is
    made), and a checkout on an empty queue does not proceed. *)
Theorem pool_holds_half_the_workers :
  forall (vw : loc) (r : option error) (s s' : State),
    Run vw s = Ret r s' ->
    exists (d : VWDaemon) (q : loc) (ch : Chan),
      daemons s !! vw = Some d
      /\ daemons s' !! vw = Some (set_queue d (Some q))
      /\ chans s !! q = None
      /\ chans s' !! q = Some ch
      /\ ch_cap ch = GoInt.div (Children d) 2
      /\ (GoInt.in_range (Children d) -> ch_cap ch = Z.quot (Children d) 2)
      /\ Z.of_nat (length (ch_buf ch)) = GoInt.div (Children d) 2
      /\ forall ops : list PoolOp,
           let p := pool_run ops (mkPool ch []) in
           Z.of_nat (length (pool_out p)) <= GoInt.div (Children d) 2
           /\ pool_conns p ≡ₚ ch_buf ch
           /\ (ch_buf (pool_chan p) = [] ->
               pool_step Checkout p = None
               /\ forall (s0 : State) (l : loc),
                    chans s0 !! l = Some (pool_chan p) ->
                    chan_recv (Some l) s0 = Abort Blocked s0).
Proof.
  intros vw r s s' (_ & d & l & m & q & buf & s1 & Hd & _ & _ & _ & _ & Hq & Hds & _ & _ & Hcs & Hlen)%Run_Ret.
  exists d, q, (mkChan (GoInt.div (Children d) 2) buf). simpl.
  split; [done|]. split; [by rewrite Hds, lookup_insert_eq|]. split; [done|].
  split; [by rewrite Hcs, lookup_insert_eq|]. split; [done|].
  split; [apply div2_in_range|]. split; [done|].
  intros ops. set (p := pool_run ops _).
  assert (Hinv : pool_inv (GoInt.div (Children d) 2) buf p).
  { apply pool_run_inv. split; simpl; [done|]. unfold pool_conns. simpl. by rewrite app_nil_r. }
  pose proof (pool_inv_out _ _ _ Hinv) as Hsum. destruct Hinv as [_ Hperm].
  split; [lia|]. split; [done|].
  intros Hempty. split.
  - simpl. unfold chan_take. by rewrite Hempty.
  - intros s0 l0 Hl0. unfold chan_recv. simpl. rewrite Hl0. simpl.
    unfold chan_take. by rewrite Hempty.
Qed.

Lemma pool_holds_half_the_workers_witness :
  Run 1%positive ready4 = Ret None (final (Run 1%positive ready4))
  /\ exists q ch, chans (final (Run 1%positive ready4)) !! q = Some ch
                  /\ ch_cap ch = 2 /\ length (ch_buf ch) = 2%nat.
Proof.
  assert (Hrun : Run 1%positive ready4 = Ret None (final (Run 1%positive ready4)))
    by (vm_compute; reflexivity).
  split; [exact Hrun|].
  destruct (pool_holds_half_the_workers _ _ _ _ Hrun)
    as (d & q & ch & Hd & _ & _ & Hch & Hcap & _ & Hlen & _).
  assert (d = handle4) as -> by (change (Some handle4 = Some d) in Hd; congruence).
  exists q, ch. split; [done|]. split; [exact Hcap|].
  change (GoInt.div (Children handle4) 2) with 2 in Hlen. lia.
Defined.

(** ** The command that starts the daemon *)

Lemma append_nil_r (a : string) : a +:+ EmptyString = a.
Proof.
  induction a as [|c a IH]; [done|].
  change (String c (a +:+ EmptyString) = String c a). by rewrite IH.
Qed.

Lemma append_assoc (a b c : string) : (a +:+ b) +:+ c = a +:+ (b +:+ c).
Proof.
  induction a as [|x a IH]; [done|].
  change (String x ((a +:+ b) +:+ c) = String x (a +:+ (b +:+ c))). by rewrite IH.
Qed.

(** C7, as stated, fails: a handle configured with the binary path
    [/usr/local/bin/vw] is started with the program name [vw], and the model
    follows [-i] after two blanks. *)
Lemma Run_does_not_use_BinPath :
  BinPath handle4 = "/usr/local/bin/vw"%string
  /\ Run 1%positive ready4 = Ret None (final (Run 1%positive ready4))
  /\ started (history (final (Run 1%positive ready4)))
     = ["vw --daemon --threads --quiet --port 26542 --num_children 4 -i  /tmp/model.vw -t"%string]
  /\ described_command handle4 model4
     = "/usr/local/bin/vw --daemon --threads --quiet --port 26542 --num_children 4 -i /tmp/model.vw -t"%string
  /\ start_command handle4 model4 <> described_command handle4 model4.
Proof. repeat split; try (vm_compute; reflexivity). vm_compute. discriminate. Qed.

(** *** The commands a statement starts *)

Section Emits.

Variable P : string -> Prop.

Lemma emits_refl s : emits P s s.
Proof. exists []. split; [done|]. by intros c ?%elem_of_nil. Qed.

Lemma emits_trans s1 s2 s3 : emits P s1 s2 -> emits P s2 s3 -> emits P s1 s3.
Proof.
  intros (e1 & H1 & HP1) (e2 & H2 & HP2). exists (e2 ++ e1).
  split; [by rewrite H2, H1, app_assoc|].
  intros c [?|?]%elem_of_app; auto.
Qed.

Lemma emits_same_history s s' : history s' = history s -> emits P s s'.
Proof. intros H. exists []. split; [done|]. by intros c ?%elem_of_nil. Qed.

Lemma emits_record e s :
  (forall c, e = EvStart c -> P c) -> emits P s (record e s).
Proof.
  intros He. exists [e]. split; [done|].
  intros c Hc%list_elem_of_singleton. by apply He.
Qed.

Lemma emits_elem_of s s' c :
  emits P s s' -> EvStart c ∈ history s' -> EvStart c ∈ history s \/ P c.
Proof. intros (evs & -> & HP) [?|?]%elem_of_app; auto. Qed.

Lemma emits_ret {A} (a : A) : preserves (emits P) (ret a).
Proof. apply preserves_ret, emits_refl. Qed.

Lemma emits_abort {A} f : preserves (emits P) (@abort A f).
Proof. apply preserves_abort, emits_refl. Qed.

Lemma emits_bind {A B} (m : M A) (k : A -> M B) :
  preserves (emits P) m -> (forall a, preserves (emits P) (k a)) ->
  preserves (emits P) (bind m k).
Proof. apply preserves_bind, emits_trans. Qed.

Lemma emits_load_daemon l : preserves (emits P) (load_daemon l).
Proof. apply preserves_load_daemon, emits_refl. Qed.

Lemma emits_load_model l : preserves (emits P) (load_model l).
Proof. apply preserves_load_model, emits_refl. Qed.

Lemma emits_sleep ms : preserves (emits P) (sleep ms).
Proof. intros s. by apply emits_record. Qed.

Lemma emits_runCommand_output cmd : preserves (emits P) (runCommand cmd false).
Proof.
  intros s. unfold keeps, runCommand.
  destruct (sh_output _ _ _); by apply emits_record.
Qed.

Lemma emits_runCommand_start cmd : P cmd -> preserves (emits P) (runCommand cmd true).
Proof.
  intros Hc s. unfold keeps, runCommand.
  destruct (sh_start _ _ _); apply emits_record; by intros c [= <-].
Qed.

Lemma emits_WorkersCount vw : preserves (emits P) (WorkersCount vw).
Proof.
  unfold WorkersCount. apply emits_bind; [apply emits_load_daemon|]. intros d.
  apply emits_bind; [apply emits_runCommand_output|]. intros r.
  destruct r.2; [apply emits_ret|]. destruct r.1; apply emits_ret.
Qed.

Lemma emits_IsExist_from n vw delay err : preserves (emits P) (IsExist_from n vw delay err).
Proof.
  revert err. induction n as [|n IH]; intros err; simpl.
  - destruct err; [apply emits_abort | apply emits_ret].
  - apply emits_bind; [apply emits_WorkersCount|]. intros r.
    apply emits_bind; [apply emits_load_daemon|]. intros d.
    destruct (_ =? _); [apply emits_ret|].
    apply emits_bind; [apply emits_sleep | intros; apply IH].
Qed.

Lemma emits_IsExist vw tries delay : preserves (emits P) (IsExist vw tries delay).
Proof. apply emits_IsExist_from. Qed.

Lemma emits_chans_only_step {A} (m : M A) :
  (forall s, history (final (m s)) = history s) -> preserves (emits P) m.
Proof. intros H s. apply emits_same_history, H. Qed.

Lemma emits_getTCPConn vw : preserves (emits P) (getTCPConn vw).
Proof.
  unfold getTCPConn. apply emits_bind; [apply emits_load_daemon|].
  intros d s. unfold keeps. destruct (tcp_dial _ _ _); by apply emits_record.
Qed.

Lemma emits_chan_send q c : preserves (emits P) (chan_send q c).
Proof.
  apply emits_chans_only_step. intros s. unfold chan_send.
  by destruct (q ≫= _) as [[l ch']|].
Qed.

Lemma emits_make_chan size : preserves (emits P) (make_chan size).
Proof.
  apply emits_chans_only_step. intros s. unfold make_chan. by destruct (size <? 0).
Qed.

Lemma emits_store_daemon l d : preserves (emits P) (store_daemon l d).
Proof. by apply emits_chans_only_step. Qed.

Lemma emits_makeTCPConnQueue vw : preserves (emits P) (makeTCPConnQueue vw).
Proof.
  unfold makeTCPConnQueue. apply emits_bind; [apply emits_load_daemon|]. intros d.
  induction (Z.to_nat _) as [|n IH]; simpl; [apply emits_ret|].
  apply emits_bind; [apply emits_load_daemon|]. intros d'.
  apply emits_bind; [apply emits_getTCPConn|]. intros c.
  apply emits_bind; [apply emits_chan_send|done].
Qed.

Lemma emits_Stop vw d s :
  daemons s !! vw = Some d -> P (pkill_command (Port d)) -> keeps (emits P) (Stop vw) s.
Proof.
  intros Hd Hp. unfold Stop.
  apply keeps_bind; [apply emits_trans|apply emits_load_daemon|].
  intros d' s1 (-> & Hd')%load_daemon_Ret. assert (d' = d) as -> by congruence.
  apply keeps_bind; [apply emits_trans|by apply emits_runCommand_start|].
  intros r s2 _. destruct r.2; [apply emits_abort|].
  apply emits_bind; [apply emits_IsExist|].
  intros []; [apply emits_abort | apply emits_ret].
Qed.

(** [Run] starts the command of [start_command], after the kill of [Stop]
    when a daemon was found on the port, and nothing else. *)
Lemma emits_Run vw d l m s :
  daemons s !! vw = Some d -> Model d = Some l -> models s !! l = Some m ->
  P (pkill_command (Port d)) -> P (start_command d m) ->
  keeps (emits P) (Run vw) s.
Proof.
  intros Hd Hl Hm Hkill Hstart. unfold Run.
  apply keeps_bind; [apply emits_trans|apply emits_IsExist|].
  intros running s1 (Hd1 & Hm1 & _)%(frame_of_Ret _ _ _ _ (pure_io_IsExist _ _ _)).
  apply keeps_bind; [apply emits_trans| |].
  { destruct running; [|apply emits_ret].
    apply keeps_bind; [apply emits_trans| |intros; apply emits_ret].
    eapply emits_Stop; [by rewrite Hd1|done]. }
  intros _ s2 (Hd2 & Hm2 & _)%(frame_of_Ret _ _ _ _ (pure_io_Run_precheck _ _)).
  apply keeps_bind; [apply emits_trans|apply emits_load_daemon|].
  intros d' ? (-> & Hd')%load_daemon_Ret.
  assert (d' = d) as -> by congruence.
  apply keeps_bind; [apply emits_trans|apply emits_load_model|].
  intros m' ? (-> & l' & Hl' & Hm')%load_model_Ret.
  assert (m' = m) as -> by congruence.
  apply keeps_bind; [apply emits_trans|by apply emits_runCommand_start|].
  intros r s3 _. destruct r.2; [apply emits_abort|].
  apply emits_bind; [apply emits_IsExist|].
  intros []; simpl; [|apply emits_abort].
  apply emits_bind; [apply emits_load_daemon|]. intros d2.
  apply emits_bind; [apply emits_make_chan|]. intros q.
  apply emits_bind; [apply emits_store_daemon|]. intros _.
  apply emits_bind; [apply emits_makeTCPConnQueue|]. intros _. apply emits_ret.
Qed.

End Emits.

(** C7, amended. The command [Run] starts is the program name [vw] followed
    by [--daemon --threads --quiet --port P --num_children N], then [-i] and
    the model path (two blanks between them) exactly when the path is not
    empty, then [-t] exactly when the test flag is set.  The binary path of
    the handle is not part of it.  However [Run] ends, it starts no other
    command, but the kill of [Stop] when a daemon was found on the port; when
    it returns, it has started this one. *)
Theorem Run_start_command :
  forall (vw : loc) (d : VWDaemon) (l : loc) (m : VWModel) (s : State),
    daemons s !! vw = Some d -> Model d = Some l -> models s !! l = Some m ->
    start_command d m
    = "vw --daemon --threads --quiet --port " +:+ pretty (Port d)
      +:+ " --num_children " +:+ pretty (Children d)
      +:+ (if decide (Path m = EmptyString) then EmptyString else " -i  " +:+ Path m)
      +:+ (if Test d then " -t" else EmptyString)
    /\ (forall cmd, EvStart cmd ∈ history (final (Run vw s)) ->
          EvStart cmd ∈ history s
          \/ cmd = pkill_command (Port d) \/ cmd = start_command d m)
    /\ (forall r s', Run vw s = Ret r s' -> EvStart (start_command d m) ∈ history s').
Proof.
  intros vw d l m s Hd Hl Hm. split; [|split].
  - unfold start_command.
    destruct (decide (Path m = EmptyString)), (Test d); simpl;
      rewrite ?append_nil_r, ?append_assoc; simpl; rewrite ?append_assoc; reflexivity.
  - intros cmd Hin.
    eapply (emits_elem_of (fun c => c = pkill_command (Port d) \/ c = start_command d m));
      [|exact Hin].
    eapply emits_Run; eauto.
  - intros r s' (_ & d' & l' & m' & q & buf & s1 & Hd' & Hl' & Hm' & _ & Hlater & _)%Run_Ret.
    assert (d' = d) as -> by congruence.
    assert (l' = l) as -> by congruence.
    assert (m' = m) as -> by congruence.
    eapply later_elem_of; [exact Hlater|]. simpl. apply elem_of_cons. by left.
Qed.

Lemma Run_start_command_witness :
  Run 1%positive ready4 = Ret None (final (Run 1%positive ready4))
  /\ EvStart (start_command handle4 model4) ∈ history (final (Run 1%positive ready4)).
Proof.
  assert (Hrun : Run 1%positive ready4 = Ret None (final (Run 1%positive ready4)))
    by (vm_compute; reflexivity).
  split; [exact Hrun|].
  destruct (Run_start_command 1%positive handle4 1%positive model4 ready4
              eq_refl eq_refl eq_refl) as (_ & _ & Hin).
  exact (Hin _ _ Hrun).
Defined.

(** ** Replacing a daemon *)

Lemma grows_refl s : grows s s.
Proof. unfold grows. auto using later_refl. Qed.

Lemma grows_trans s1 s2 s3 : grows s1 s2 -> grows s2 s3 -> grows s1 s3.
Proof.
  unfold grows. intros (?&?&?&?&?) (?&?&?&?&?).
  split; [congruence|]. split; [by eapply later_trans|]. split; [congruence|].
  split; by etrans.
Qed.

Lemma kept_refl d s : kept d s s.
Proof. unfold kept. auto using later_refl. Qed.

Lemma kept_trans d s1 s2 s3 : kept d s1 s2 -> kept d s2 s3 -> kept d s1 s3.
Proof.
  unfold kept. intros (?&?&?&?) (?&?&?&?).
  split; [congruence|]. split; [by eapply later_trans|]. split; [auto|by etrans].
Qed.

Lemma frame_grows s s' : frame s s' -> grows s s'.
Proof. unfold frame, grows. intros (->&->&->&->&?). done. Qed.

Lemma grows_kept d s s' : grows s s' -> kept d s s'.
Proof.
  unfold grows, kept. intros (?&?&?&Hd&?). repeat split; try done.
  intros x Hx. by eapply lookup_weaken.
Qed.

Lemma queue_only_kept vw d s s' : vw <> d -> queue_only vw s s' -> kept d s s'.
Proof.
  unfold queue_only, kept. intros Hne (Hm&?&?&Hd&_). repeat split; try done.
  - intros x Hx. by rewrite Hd.
  - by rewrite Hm.
Qed.

Lemma preserves_alloc_model m : preserves grows (alloc_model m).
Proof.
  intros s. unfold keeps, grows. simpl. repeat split; [by exists []|done|].
  apply insert_subseteq, not_elem_of_dom, is_fresh.
Qed.

Lemma preserves_alloc_daemon d : preserves grows (alloc_daemon d).
Proof.
  intros s. unfold keeps, grows. simpl. repeat split; [by exists []| |done].
  apply insert_subseteq, not_elem_of_dom, is_fresh.
Qed.

Lemma preserves_go vw : preserves grows (go_modelFileChecker vw).
Proof. intros s. apply frame_grows, frame_record. Qed.

Lemma grows_of_pure_io {A} (m : M A) : pure_io m -> preserves grows m.
Proof. apply preserves_weaken. apply frame_grows. Qed.

Lemma preserves_NewDaemon binPath port children modelPath test quiet updatable :
  preserves grows (NewDaemon binPath port children modelPath test quiet updatable).
Proof.
  unfold NewDaemon.
  apply preserves_bind; [apply grows_trans|apply grows_of_pure_io, pure_io_stat|].
  intros [t|]; [|apply preserves_abort, grows_refl].
  apply preserves_bind; [apply grows_trans|apply preserves_alloc_model|]. intros lm.
  apply preserves_bind; [apply grows_trans|apply preserves_alloc_daemon|]. intros l.
  apply preserves_bind; [apply grows_trans| |intros; apply preserves_ret, grows_refl].
  destruct updatable; [apply preserves_go | apply preserves_ret, grows_refl].
Qed.

Lemma preserves_DeepCopy vw : preserves grows (DeepCopy vw).
Proof.
  unfold DeepCopy.
  apply preserves_bind; [apply grows_trans|apply preserves_load_daemon, grows_refl|].
  intros d. apply preserves_bind; [apply grows_trans| |intros; apply preserves_alloc_daemon].
  destruct (Model d); [|apply preserves_ret, grows_refl].
  apply preserves_bind; [apply grows_trans|apply preserves_load_model, grows_refl|].
  intros m. apply preserves_bind; [apply grows_trans|apply preserves_alloc_model|].
  intros; apply preserves_ret, grows_refl.
Qed.

Lemma rel_of_Ret {A} R (m : M A) a s s' : preserves R m -> m s = Ret a s' -> R s s'.
Proof. intros Hm H. specialize (Hm s). unfold keeps in Hm. by rewrite H in Hm. Qed.

Lemma rel_of_Abort {A} R (m : M A) f s s' : preserves R m -> m s = Abort f s' -> R s s'.
Proof. intros Hm H. specialize (Hm s). unfold keeps in Hm. by rewrite H in Hm. Qed.

(** [DeepCopy] makes no call to the operating system. *)
Lemma DeepCopy_Ret vw tmp s s1 :
  DeepCopy vw s = Ret tmp s1 ->
  grows s s1 /\ history s1 = history s
  /\ exists old, daemons s !! vw = Some old /\ daemons s !! tmp = None
                 /\ exists m', daemons s1 !! tmp
                    = Some (mkDaemon (BinPath old) (Port old) (Children old) m'
                                     (Test old) (Quite old) None).
Proof.
  intros H. split; [by eapply rel_of_Ret; [apply preserves_DeepCopy|]|].
  unfold DeepCopy in H.
  apply bind_Ret in H as (old & ? & (-> & Hold)%load_daemon_Ret & H).
  apply bind_Ret in H as (m' & s0 & Hm & H).
  assert (history s0 = history s /\ daemons s0 = daemons s) as [Hh Hd].
  { destruct (Model old) as [lo|]; [|by injection Hm as <- <-].
    apply bind_Ret in Hm as (m & ? & (-> & _)%load_model_Ret & Hm).
    apply bind_Ret in Hm as (lc & ? & Ha & Hm). injection Hm as <- <-.
    by injection Ha as <- <-. }
  injection H as <- <-. simpl. split; [done|].
  exists old. split; [done|]. split.
  - rewrite <- Hd. apply not_elem_of_dom, is_fresh.
  - exists m'. by rewrite lookup_insert_eq.
Qed.

Lemma DeepCopy_Abort vw f s s1 : DeepCopy vw s = Abort f s1 -> s1 = s.
Proof.
  unfold DeepCopy, bind, load_daemon. destruct (daemons s !! vw) as [old|]; [|by intros [= <- <-]].
  destruct (Model old) as [lm|]; simpl; [|done].
  unfold load_model. destruct (models s !! lm); simpl; [done|]. by intros [= <- <-].
Qed.

Lemma NewDaemon_Ret binPath port children modelPath test quiet updatable newVW s s' :
  NewDaemon binPath port children modelPath test quiet updatable s = Ret newVW s' ->
  grows s s'
  /\ exists t lm,
       os_stat (env s) (now s) modelPath = Some t
       /\ models s !! lm = None /\ daemons s !! newVW = None
       /\ models s' = <[lm := mkModel modelPath t updatable]> (models s)
       /\ daemons s' = <[newVW := mkDaemon binPath port children (Some lm) test quiet None]> (daemons s).
Proof.
  intros H. split; [by eapply rel_of_Ret; [apply preserves_NewDaemon|]|].
  unfold NewDaemon in H.
  apply bind_Ret in H as (info & s1 & Hstat & H). injection Hstat as <- <-.
  destruct (os_stat (env s) (now s) modelPath) as [t|] eqn:Et; [|done].
  apply bind_Ret in H as (lm & s2 & Hm & H). injection Hm as <- <-.
  apply bind_Ret in H as (l & s3 & Hd & H). injection Hd as <- <-.
  apply bind_Ret in H as ([] & s4 & Hgo & H). injection H as <- <-.
  exists t, (fresh (dom (models s))). simpl in *.
  split; [done|]. split; [apply not_elem_of_dom, is_fresh|].
  split; [apply not_elem_of_dom, is_fresh|].
  destruct updatable; by injection Hgo as <-.
Qed.

Lemma defer_Ret {A} (d : M unit) (body : M A) a s s' :
  defer d body s = Ret a s' -> exists s1, body s = Ret a s1 /\ d s1 = Ret tt s'.
Proof.
  unfold defer. destruct (body s) as [a1 s1|[msg|msg|] s1]; try done.
  - destruct (d s1) as [[] s2|] eqn:E; [|done]. intros [= <- <-]. by exists s1.
  - by destruct (d s1).
Qed.

Lemma RecreateDaemon_unfold d :
  RecreateDaemon d
  = (tmpVW <- DeepCopy d ;; defer (_ <- Stop tmpVW ;; ret tt) (swap_body d)).
Proof. reflexivity. Qed.

(** The body up to the call of [Run]: the model file is statted, the new
    model and the new handle are allocated. *)
Lemma swap_body_eq d s old l m :
  daemons s !! d = Some old -> Model old = Some l -> models s !! l = Some m ->
  match os_stat (env s) (now s) (Path m) with
  | None => swap_body d s = Abort (Fatal "stat") (record (EvStat (Path m)) s)
  | Some t =>
      exists newVW lm s2,
        newVW <> d /\ daemons s !! newVW = None /\ models s !! lm = None
        /\ grows s s2
        /\ daemons s2 = <[newVW := replacement old lm None]> (daemons s)
        /\ models s2 = <[lm := mkModel (Path m) t (Updatable m)]> (models s)
        /\ swap_body d s
           = bind (Run newVW)
               (fun err => match err with
                           | Some _ => abort (Fatal "run")
                           | None => new <- load_daemon newVW ;; store_daemon d new
                           end) s2
  end.
Proof.
  intros Hd Hl Hm.
  destruct (os_stat (env s) (now s) (Path m)) as [t|] eqn:Et.
  - destruct (NewDaemon (BinPath old) (alternate_port (Port old)) (Children old) (Path m)
                (Test old) (Quite old) (Updatable m) s) as [newVW s2|f s2] eqn:HN.
    + pose proof HN as (Hg & t' & lm & Ht' & Hlm & Hnew & Hms & Hds)%NewDaemon_Ret.
      assert (t' = t) as -> by congruence.
      exists newVW, lm, s2. split; [congruence|].
      do 5 (split; [done|]).
      rewrite (bind_eq _ _ _ _ _ (load_daemon_eq d old s Hd)). simpl.
      rewrite Hl, (bind_eq _ _ _ _ _ (load_model_eq l m s Hm)).
      by rewrite (bind_eq _ _ _ _ _ HN).
    + exfalso. unfold NewDaemon, bind, stat in HN. rewrite Et in HN. simpl in HN.
      by destruct (Updatable m).
  - rewrite (bind_eq _ _ _ _ _ (load_daemon_eq d old s Hd)). simpl.
    rewrite Hl, (bind_eq _ _ _ _ _ (load_model_eq l m s Hm)).
    unfold NewDaemon, bind, stat. by rewrite Et.
Qed.

Lemma swapped_frame d s s1 s2 : swapped d s s1 -> frame s1 s2 -> swapped d s s2.
Proof.
  intros (old & l & m & t & newVW & lm & q & ch & H) (Hd & Hm & Hc & He & _).
  exists old, l, m, t, newVW, lm, q, ch. rewrite Hd, Hm, Hc, He. exact H.
Qed.

(** Both ways the body ends. *)
Lemma swap_body_cases d s old l m :
  daemons s !! d = Some old -> Model old = Some l -> models s !! l = Some m ->
  match swap_body d s with
  | Ret _ s' => swapped d s s'
  | Abort _ s' => kept d s s'
  end.
Proof.
  intros Hd Hl Hm. pose proof (swap_body_eq d s old l m Hd Hl Hm) as Heq.
  destruct (os_stat (env s) (now s) (Path m)) as [t|] eqn:Et.
  - destruct Heq as (newVW & lm & s2 & Hne & Hnew & Hlm & Hg & Hds & Hms & ->).
    unfold bind. destruct (Run newVW s2) as [err s3|f s3] eqn:HR.
    + apply Run_Ret in HR
        as (-> & n & ln & mn & q & buf & s21 & Hn & _ & _ & _ & _ & Hq & Hds3 & Hms3 & He3 & Hcs3 & Hlen).
      assert (n = replacement old lm None) as ->.
      { rewrite Hds, lookup_insert_eq in Hn. congruence. }
      assert (Hload : daemons s3 !! newVW = Some (replacement old lm (Some q))).
      { by rewrite Hds3, lookup_insert_eq. }
      unfold load_daemon. rewrite Hload. simpl.
      destruct Hg as (He2 & _ & Hc2 & _ & _).
      exists old, l, m, t, newVW, lm, q, (mkChan (GoInt.div (Children old) 2) buf). simpl.
      do 7 (split; [done|]). split; [congruence|].
      split; [by rewrite lookup_insert_eq|].
      split; [by rewrite lookup_insert_ne by done|].
      split; [by rewrite Hms3, Hms, lookup_insert_eq|].
      split; [rewrite Hms3, Hms; by apply insert_subseteq|].
      split; [congruence|]. split; [by rewrite Hcs3, lookup_insert_eq|]. done.
    + eapply kept_trans; [apply grows_kept, Hg|].
      eapply queue_only_kept; [exact Hne|].
      by eapply rel_of_Abort; [apply preserves_Run|].
  - rewrite Heq. apply grows_kept, frame_grows, frame_record.
Qed.

Lemma DeepCopy_Ret_model vw tmp s s1 old l :
  DeepCopy vw s = Ret tmp s1 -> daemons s !! vw = Some old -> Model old = Some l ->
  is_Some (models s !! l).
Proof.
  unfold DeepCopy. intros H Hold Hl.
  rewrite (bind_eq _ _ _ _ _ (load_daemon_eq vw old s Hold)) in H.
  rewrite Hl in H. unfold bind at 1 2 in H. unfold load_model in H.
  by destruct (models s !! l).
Qed.

Lemma swapped_grows d s s1 s' old :
  grows s s1 -> history s1 = history s ->
  daemons s !! d = Some old ->
  (forall l, Model old = Some l -> is_Some (models s !! l)) ->
  swapped d s1 s' -> swapped d s s'.
Proof.
  intros (He & _ & Hc & Hds & Hms) Hh Hold Hmodel
    (old1 & l & m & t & newVW & lm & q & ch
     & Hd1 & Hl & Hm & Ht & Hne & Hnew & Hlm & Hq & H).
  assert (old1 = old) as ->.
  { pose proof (lookup_weaken _ _ _ _ Hold Hds). congruence. }
  destruct (Hmodel l Hl) as [m0 Hm0].
  assert (m0 = m) as ->.
  { pose proof (lookup_weaken _ _ _ _ Hm0 Hms). congruence. }
  exists old, l, m, t, newVW, lm, q, ch.
  split; [done|]. split; [done|]. split; [done|].
  split; [unfold now in *; by rewrite <- He, <- Hh|].
  split; [done|].
  split; [by eapply lookup_weaken_None|].
  split; [by eapply lookup_weaken_None|].
  split; [congruence|].
  destruct H as (? & ? & ? & Hsub & He' & ?).
  split; [done|]. split; [done|]. split; [done|].
  split; [by etrans|]. split; [congruence|]. done.
Qed.

Lemma pure_io_deferred_Stop tmp : pure_io (bind (Stop tmp) (fun _ => ret tt)).
Proof. apply pure_io_bind; [apply pure_io_Stop | intros; apply pure_io_ret]. Qed.

(** A deferred call that only talks to the operating system leaves the heap
    the body ended with. *)
Lemma final_defer {A} (dfr : M unit) (body : M A) s :
  pure_io dfr -> frame (final (body s)) (final (defer dfr body s)).
Proof.
  intros Hd. unfold defer.
  destruct (body s) as [a s1|[msg|msg|] s1]; simpl; try apply frame_refl.
  - specialize (Hd s1). unfold keeps in Hd. by destruct (dfr s1).
  - specialize (Hd s1). unfold keeps in Hd. by destruct (dfr s1).
Qed.

Lemma kept_frame d s s1 s2 : kept d s s1 -> frame s1 s2 -> kept d s s2.
Proof. intros H Hf. eapply kept_trans; [exact H|]. by apply grows_kept, frame_grows. Qed.

(** Both ways [RecreateDaemon] ends: it returns only after the swap; when it
    does not return, either handle [d] and all models are as they were, or
    the swap was made (and the old daemon did not stop). *)
Lemma RecreateDaemon_cases d s :
  match RecreateDaemon d s with
  | Ret _ s' => swapped d s s'
  | Abort _ s' => kept d s s' \/ swapped d s s'
  end.
Proof.
  rewrite RecreateDaemon_unfold. unfold bind at 1.
  destruct (DeepCopy d s) as [tmp s1|f s1] eqn:HD.
  2:{ apply DeepCopy_Abort in HD as ->. left. apply kept_refl. }
  pose proof HD as (Hg & Hh & old & Hold & Htmp & _)%DeepCopy_Ret.
  pose proof (final_defer (_ <- Stop tmp ;; ret tt) (swap_body d) s1
                (pure_io_deferred_Stop tmp)) as Hfin.
  assert (Hold1 : daemons s1 !! d = Some old).
  { destruct Hg as (_ & _ & _ & Hds & _). by eapply lookup_weaken. }
  destruct (Model old) as [l|] eqn:Hl.
  - destruct (DeepCopy_Ret_model _ _ _ _ _ _ HD Hold Hl) as [m Hm].
    assert (Hm1 : models s1 !! l = Some m).
    { destruct Hg as (_ & _ & _ & _ & Hms). by eapply lookup_weaken. }
    pose proof (swap_body_cases d s1 old l m Hold1 Hl Hm1) as Hbody.
    assert (Hmodel : forall l0, Model old = Some l0 -> is_Some (models s !! l0)).
    { intros l0 E. rewrite Hl in E. injection E as <-. by exists m. }
    destruct (defer _ (swap_body d) s1) as [[] s'|f s'] eqn:HDf.
    + apply defer_Ret in HDf as (s2 & Hb & Hstop).
      rewrite Hb in Hbody, Hfin. simpl in Hfin.
      eapply swapped_frame; [|exact Hfin].
      by eapply swapped_grows.
    + simpl in Hfin. destruct (swap_body d s1) as [[] s2|f2 s2]; simpl in Hfin.
      * right. eapply swapped_frame; [|exact Hfin]. by eapply swapped_grows.
      * left. eapply kept_frame; [|exact Hfin].
        eapply kept_trans; [apply grows_kept, Hg|exact Hbody].
  - assert (Hb : swap_body d s1 = Abort nil_deref s1).
    { rewrite (bind_eq _ _ _ _ _ (load_daemon_eq d old s1 Hold1)). simpl. by rewrite Hl. }
    rewrite Hb in Hfin. simpl in Hfin.
    destruct (defer _ (swap_body d) s1) as [[] s'|f s'] eqn:HDf.
    + apply defer_Ret in HDf as (s2 & Hb' & _). congruence.
    + left. eapply kept_frame; [apply grows_kept, Hg|exact Hfin].
Qed.

Lemma RecreateDaemon_Ret d s s' : RecreateDaemon d s = Ret tt s' -> swapped d s s'.
Proof. intros H. pose proof (RecreateDaemon_cases d s) as Hc. by rewrite H in Hc. Qed.

(** *** The alternate port *)

Lemma alternate_port_spec p :
  alternate_port p = if decide (p = DefaultPort) then DefaultPort + 1 else DefaultPort.
Proof.
  unfold alternate_port. destruct (Z.eqb_spec p DefaultPort) as [->|NE].
  - by rewrite decide_True.
  - by rewrite decide_False.
Qed.

Lemma alternate_port_ne p : alternate_port p <> p.
Proof.
  rewrite alternate_port_spec. destruct (decide (p = DefaultPort)) as [->|NE]; [done|].
  congruence.
Qed.

Lemma alternate_port_two p :
  alternate_port p = DefaultPort \/ alternate_port p = DefaultPort + 1.
Proof. rewrite alternate_port_spec. destruct (decide (p = DefaultPort)); auto. Qed.

Lemma swapped_port d s s' p :
  swapped d s s' -> port_of d s = Some p -> port_of d s' = Some (alternate_port p).
Proof.
  intros (old & l & m & t & newVW & lm & q & ch & Hold & _ & _ & _ & _ & _ & _ & _ & Hd & _) Hp.
  unfold port_of in *. rewrite Hold in Hp. rewrite Hd. simpl in *. congruence.
Qed.

Lemma RecreateDaemon_times_port n : forall d s s' p,
  RecreateDaemon_times n d s = Ret tt s' ->
  port_of d s = Some p ->
  port_of d s' = Some (Nat.iter n alternate_port p).
Proof.
  induction n as [|n IH]; intros d s s' p H Hp.
  - injection H as <-. done.
  - simpl in H. apply bind_Ret in H as ([] & s1 & H1 & H).
    rewrite Nat.iter_succ_r. eapply IH; [exact H|].
    eapply swapped_port; [by apply RecreateDaemon_Ret|done].
Qed.

(** C1. When [RecreateDaemon d] returns, the handle at [d], the reference
    every holder has, carries the fields of the new instance: the handle
    [newVW] that was allocated and started during the call.  Its port is the
    alternate of the old port, its queue is the one of the new instance. *)
Theorem RecreateDaemon_swaps_in_place :
  forall (d : loc) (s s' : State),
    RecreateDaemon d s = Ret tt s' ->
    exists (old new : VWDaemon) (newVW : loc),
      daemons s !! d = Some old
      /\ newVW <> d /\ daemons s !! newVW = None
      /\ daemons s' !! newVW = Some new
      /\ daemons s' !! d = Some new
      /\ load_daemon d s' = Ret new s'
      /\ Port new = alternate_port (Port old)
      /\ Port new <> Port old
      /\ Children new = Children old
      /\ exists q, TCPQueue new = Some q /\ chans s !! q = None /\ is_Some (chans s' !! q).
Proof.
  intros d s s' (old & l & m & t & newVW & lm & q & ch & Hold & _ & _ & _ & Hne & Hnew & _
                 & Hq & Hd & Hn & _ & _ & _ & Hch & _)%RecreateDaemon_Ret.
  exists old, (replacement old lm (Some q)), newVW.
  do 5 (split; [done|]). split; [by apply load_daemon_eq|].
  split; [done|]. split; [apply alternate_port_ne|]. split; [done|].
  exists q. by rewrite Hch.
Qed.

Lemma RecreateDaemon_swaps_in_place_witness :
  RecreateDaemon 1%positive reload4 = Ret tt (final (RecreateDaemon 1%positive reload4))
  /\ port_of 1%positive reload4 = Some 26542
  /\ port_of 1%positive (final (RecreateDaemon 1%positive reload4)) = Some 26543.
Proof.
  assert (Hrun : RecreateDaemon 1%positive reload4
                 = Ret tt (final (RecreateDaemon 1%positive reload4)))
    by (vm_compute; reflexivity).
  split; [exact Hrun|]. split; [reflexivity|].
  destruct (RecreateDaemon_swaps_in_place _ _ _ Hrun)
    as (old & new & newVW & Hold & _ & _ & _ & Hd & _ & Hport & _).
  assert (old = handle4) as -> by (change (Some handle4 = Some old) in Hold; congruence).
  unfold port_of. rewrite Hd. simpl. by rewrite Hport.
Defined.

(** C2. Each [RecreateDaemon] that returns moves the handle to the alternate
    of its port: the default port plus one when the port is the default,
    the default port otherwise.  So after one or more reloads the port is the
    default or the default plus one, and the next reload takes the other of
    the two. *)
Theorem RecreateDaemon_alternates_two_ports :
  forall (n : nat) (d : loc) (s s' : State) (p : Z),
    RecreateDaemon_times (S n) d s = Ret tt s' ->
    port_of d s = Some p ->
    (forall x, alternate_port x = if decide (x = DefaultPort) then DefaultPort + 1 else DefaultPort)
    /\ port_of d s' = Some (Nat.iter (S n) alternate_port p)
    /\ (Nat.iter (S n) alternate_port p = DefaultPort
        \/ Nat.iter (S n) alternate_port p = DefaultPort + 1)
    /\ (forall s2 s3, port_of d s2 = port_of d s' -> RecreateDaemon d s2 = Ret tt s3 ->
          exists p', port_of d s3 = Some p'
                     /\ p' <> Nat.iter (S n) alternate_port p
                     /\ (p' = DefaultPort \/ p' = DefaultPort + 1)).
Proof.
  intros n d s s' p H Hp. split; [apply alternate_port_spec|].
  pose proof (RecreateDaemon_times_port _ _ _ _ _ H Hp) as Hp'.
  split; [done|]. split; [rewrite Nat.iter_succ; apply alternate_port_two|].
  intros s2 s3 Hp2 H2. rewrite Hp' in Hp2.
  exists (alternate_port (Nat.iter (S n) alternate_port p)).
  split; [eapply swapped_port; [by apply RecreateDaemon_Ret|done]|].
  split; [apply alternate_port_ne | apply alternate_port_two].
Qed.

Lemma RecreateDaemon_alternates_two_ports_witness :
  RecreateDaemon_times 2 1%positive reload4
  = Ret tt (final (RecreateDaemon_times 2 1%positive reload4))
  /\ port_of 1%positive reload4 = Some 26542
  /\ port_of 1%positive (final (RecreateDaemon 1%positive reload4)) = Some 26543
  /\ port_of 1%positive (final (RecreateDaemon_times 2 1%positive reload4)) = Some 26542.
Proof.
  assert (Hrun : RecreateDaemon_times 2 1%positive reload4
                 = Ret tt (final (RecreateDaemon_times 2 1%positive reload4)))
    by (vm_compute; reflexivity).
  split; [exact Hrun|]. split; [reflexivity|]. split; [vm_compute; reflexivity|].
  destruct (RecreateDaemon_alternates_two_ports 1 1%positive _ _ 26542 Hrun eq_refl)
    as (_ & Hport & _).
  rewrite Hport. reflexivity.
Defined.

(** *** The replacement handle *)

(** However the body ends, the replacement was constructed if the model file
    could be statted. *)
Lemma swap_body_constructs d s old l m t :
  daemons s !! d = Some old -> Model old = Some l -> models s !! l = Some m ->
  os_stat (env s) (now s) (Path m) = Some t ->
  exists newVW lm q,
    daemons s !! newVW = None /\ models s !! lm = None
    /\ daemons (final (swap_body d s)) !! newVW = Some (replacement old lm q)
    /\ models (final (swap_body d s)) !! lm = Some (mkModel (Path m) t (Updatable m)).
Proof.
  intros Hd Hl Hm Ht. pose proof (swap_body_eq d s old l m Hd Hl Hm) as Heq.
  rewrite Ht in Heq. destruct Heq as (newVW & lm & s2 & Hne & Hnew & Hlm & Hg & Hds & Hms & ->).
  pose proof (preserves_Run newVW s2) as (Hms3 & _ & _ & _ & q & Hq).
  rewrite Hds, lookup_insert_eq in Hq. simpl in Hq.
  exists newVW, lm, q. split; [done|]. split; [done|].
  set (s4 := final _).
  assert (daemons s4 !! newVW = Some (replacement old lm q) /\ models s4 = models s2)
    as [-> ->]; [|by rewrite Hms, lookup_insert_eq].
  subst s4. destruct (Run newVW s2) as [[e|] s3|f s3] eqn:HR; simpl in *.
  - rewrite (bind_eq _ _ _ _ _ HR). split; [exact Hq | exact Hms3].
  - rewrite (bind_eq _ _ _ _ _ HR).
    rewrite (bind_eq _ _ _ _ _ (load_daemon_eq newVW _ s3 Hq)). simpl.
    rewrite lookup_insert_ne by done. split; [exact Hq | exact Hms3].
  - rewrite (bind_abort _ _ _ _ _ HR). split; [exact Hq | exact Hms3].
Qed.

Lemma DeepCopy_total vw s old l m :
  daemons s !! vw = Some old -> Model old = Some l -> models s !! l = Some m ->
  exists tmp s1, DeepCopy vw s = Ret tmp s1.
Proof.
  intros Hd Hl Hm. unfold DeepCopy, bind, load_daemon, load_model.
  rewrite Hd, Hl, Hm. simpl. by eexists _, _.
Qed.

(** C3. When [RecreateDaemon] is called on a handle whose model file can be
    statted, a replacement handle is constructed, however the call ends: a
    handle that was not allocated before, with the binary path, worker
    count, model path, test flag, quiet flag and updatable flag of the old
    handle.  Its port, the alternate port, is the one setting that
    differs. *)
Theorem RecreateDaemon_replacement_settings :
  forall (d : loc) (s : State) (old : VWDaemon) (l : loc) (m : VWModel) (t : Z),
    daemons s !! d = Some old -> Model old = Some l -> models s !! l = Some m ->
    os_stat (env s) (now s) (Path m) = Some t ->
    let s' := final (RecreateDaemon d s) in
    exists (newVW : loc) (new : VWDaemon) (lm : loc) (m' : VWModel),
      daemons s !! newVW = None /\ models s !! lm = None
      /\ daemons s' !! newVW = Some new /\ Model new = Some lm /\ models s' !! lm = Some m'
      /\ BinPath new = BinPath old
      /\ Children new = Children old
      /\ Path m' = Path m
      /\ Test new = Test old
      /\ Quite new = Quite old
      /\ Updatable m' = Updatable m
      /\ settings new m' = settings old m
      /\ Port new = alternate_port (Port old)
      /\ Port new <> Port old.
Proof.
  intros d s old l m t Hd Hl Hm Ht s'.
  destruct (DeepCopy_total d s old l m Hd Hl Hm) as (tmp & s1 & HD).
  pose proof HD as ((He & _ & _ & Hds & Hms) & Hh & _)%DeepCopy_Ret.
  pose proof (final_defer (_ <- Stop tmp ;; ret tt) (swap_body d) s1
                (pure_io_deferred_Stop tmp)) as (Hfd & Hfm & _).
  destruct (swap_body_constructs d s1 old l m t) as (newVW & lm & q & Hnew & Hlm & Hn & Hm').
  { by eapply lookup_weaken. } { done. } { by eapply lookup_weaken. }
  { unfold now. by rewrite He, Hh. }
  assert (Hs' : s' = final (defer (_ <- Stop tmp ;; ret tt) (swap_body d) s1)).
  { subst s'. rewrite RecreateDaemon_unfold. unfold bind at 1. by rewrite HD. }
  exists newVW, (replacement old lm q), lm, (mkModel (Path m) t (Updatable m)).
  split; [by eapply lookup_weaken_None|]. split; [by eapply lookup_weaken_None|].
  rewrite Hs', Hfd, Hfm. split; [done|]. split; [done|]. split; [done|].
  simpl. do 7 (split; [done|]). split; [done|]. apply alternate_port_ne.
Qed.

Lemma RecreateDaemon_replacement_settings_witness :
  exists (newVW : loc) (new : VWDaemon),
    daemons reload4 !! newVW = None
    /\ daemons (final (RecreateDaemon 1%positive reload4)) !! newVW = Some new
    /\ BinPath new = "/usr/local/bin/vw"%string /\ Children new = 4
    /\ Test new = true /\ Quite new = false /\ Port new = 26543.
Proof.
  destruct (RecreateDaemon_replacement_settings 1%positive reload4 handle4 1%positive
              model4 100 eq_refl eq_refl eq_refl eq_refl)
    as (newVW & new & lm & m' & Hnew & _ & Hn & _ & _ & Hb & Hc & _ & Ht & Hq & _ & _ & Hp & _).
  exists newVW, new. repeat split; try done.
Defined.

(** ** The model watcher *)

Lemma IsChanged_eq l m s :
  models s !! l = Some m ->
  IsChanged (Some l) s
  = match os_stat (env s) (now s) (Path m) with
    | None => Abort (Panic "stat") (record (EvStat (Path m)) s)
    | Some t => Ret (bool_decide (ModTime m <> t)) (record (EvStat (Path m)) s)
    end.
Proof.
  intros Hm. unfold IsChanged. rewrite (bind_eq _ _ _ _ _ (load_model_eq l m s Hm)).
  unfold bind, stat. destruct (os_stat _ _ _) as [t|]; [|done].
  destruct (decide (ModTime m <> t)).
  - by rewrite bool_decide_true.
  - by rewrite bool_decide_false.
Qed.

Lemma kept_stored_mtime d s s' old l m :
  daemons s !! d = Some old -> Model old = Some l -> models s !! l = Some m ->
  kept d s s' -> stored_mtime d s' = Some (ModTime m).
Proof.
  intros Hd Hl Hm (_ & _ & Hd' & Hms). unfold stored_mtime.
  rewrite (Hd' _ Hd). simpl. rewrite Hl. simpl.
  by rewrite (lookup_weaken _ _ _ _ Hm Hms).
Qed.

(** C9. For the model reference of a handle, with stored timestamp
    [ModTime m]: [IsChanged] returns true exactly when the file is statted
    with another modification time, false exactly when it is statted with
    the stored one, and leaves the heap, so the stored timestamp, as it is.
    However [RecreateDaemon] ends, the timestamp stored in the handle is
    either the one it was, or the swap was made and it is the modification
    time statted for the new handle when the call began.  A
    [RecreateDaemon] that returns has made the swap: the handle refers to a
    model that was not allocated before, which stores the modification time
    statted when the call began, and that time is the one stored in the
    handle. *)
Theorem stored_mtime_changes_only_by_swap :
  forall (d : loc) (old : VWDaemon) (l : loc) (m : VWModel) (s : State),
    daemons s !! d = Some old -> Model old = Some l -> models s !! l = Some m ->
    let current := os_stat (env s) (now s) (Path m) in
    (forall s', IsChanged (Model old) s = Ret true s'
                <-> (exists t, current = Some t /\ t <> ModTime m)
                    /\ s' = record (EvStat (Path m)) s)
    /\ (forall s', IsChanged (Model old) s = Ret false s'
                   <-> current = Some (ModTime m) /\ s' = record (EvStat (Path m)) s)
    /\ frame s (final (IsChanged (Model old) s))
    /\ stored_mtime d s = Some (ModTime m)
    /\ stored_mtime d (final (IsChanged (Model old) s)) = Some (ModTime m)
    /\ (stored_mtime d (final (RecreateDaemon d s)) = Some (ModTime m)
        \/ (swapped d s (final (RecreateDaemon d s))
            /\ stored_mtime d (final (RecreateDaemon d s)) = current))
    /\ (forall s', RecreateDaemon d s = Ret tt s' ->
          exists (new : VWDaemon) (lm : loc) (t : Z),
            swapped d s s'
            /\ current = Some t
            /\ daemons s' !! d = Some new /\ Model new = Some lm
            /\ lm <> l /\ models s !! lm = None
            /\ models s' !! lm = Some (mkModel (Path m) t (Updatable m))
            /\ stored_mtime d s' = Some t).
Proof.
  intros d old l m s Hd Hl Hm current.
  rewrite Hl, (IsChanged_eq l m s Hm). fold current.
  assert (Hstored : stored_mtime d s = Some (ModTime m)).
  { eapply kept_stored_mtime; [done..|apply kept_refl]. }
  split; [|split; [|split; [|split; [|split; [|split]]]]].
  - intros s'. destruct current as [t|]; [|split; [done|by intros [(t & ? & _) _]]].
    split.
    + intros [= Hb <-]. split; [|done]. exists t. split; [done|].
      apply bool_decide_eq_true in Hb. congruence.
    + intros [(t' & [= <-] & Hne) ->]. by rewrite bool_decide_true by congruence.
  - intros s'. destruct current as [t|]; [|split; [done|by intros [? _]]].
    split.
    + intros [= Hb <-]. split; [|done].
      apply bool_decide_eq_false in Hb. f_equal. by destruct (decide (ModTime m = t)).
    + intros [[= <-] ->]. by rewrite bool_decide_false by (intros ?; done).
  - destruct current; apply frame_record.
  - done.
  - eapply kept_stored_mtime; [done..|].
    apply grows_kept, frame_grows. destruct current; apply frame_record.
  - pose proof (RecreateDaemon_cases d s) as Hc.
    assert (Hsw : swapped d s (final (RecreateDaemon d s)) ->
                  stored_mtime d (final (RecreateDaemon d s)) = current).
    { intros (old1 & l1 & m1 & t & newVW & lm & q & ch & Hd1 & Hl1 & Hm1 & Ht & _ & _ & _ & _
              & Hd' & _ & Hm' & _).
      assert (old1 = old) as -> by congruence.
      assert (l1 = l) as -> by congruence.
      assert (m1 = m) as -> by congruence.
      unfold stored_mtime. rewrite Hd'. simpl. rewrite Hm'. simpl. by subst current. }
    destruct (RecreateDaemon d s) as [[] s'|f s']; simpl in *.
    + right. auto.
    + destruct Hc as [Hk|Hs]; [left|right; auto].
      by eapply kept_stored_mtime.
  - intros s' H. pose proof (RecreateDaemon_Ret _ _ _ H) as Hsw.
    pose proof Hsw as (old1 & l1 & m1 & t & newVW & lm & q & ch & Hd1 & Hl1 & Hm1 & Ht & _ & _
                       & Hlm & _ & Hd' & _ & Hm' & _).
    assert (old1 = old) as -> by congruence.
    assert (l1 = l) as -> by congruence.
    assert (m1 = m) as -> by congruence.
    exists (replacement old lm (Some q)), lm, t.
    split; [done|]. split; [done|]. split; [done|]. split; [done|].
    split; [intros ->; congruence|]. split; [done|]. split; [done|].
    unfold stored_mtime. rewrite Hd'. simpl. by rewrite Hm'.
Qed.

Lemma stored_mtime_changes_only_by_swap_witness :
  IsChanged (Some 1%positive) touched4 = Ret true (record (EvStat "/tmp/model.vw") touched4)
  /\ stored_mtime 1%positive touched4 = Some 100
  /\ stored_mtime 1%positive (final (IsChanged (Some 1%positive) touched4)) = Some 100
  /\ RecreateDaemon 1%positive touched4 = Ret tt (final (RecreateDaemon 1%positive touched4))
  /\ stored_mtime 1%positive (final (RecreateDaemon 1%positive touched4)) = Some 200.
Proof.
  assert (Hrun : RecreateDaemon 1%positive touched4
                 = Ret tt (final (RecreateDaemon 1%positive touched4)))
    by (vm_compute; reflexivity).
  destruct (stored_mtime_changes_only_by_swap 1%positive handle4 1%positive model4 touched4
              eq_refl eq_refl eq_refl) as (Htrue & _ & _ & Hs & Hs' & _ & Hret).
  split; [|split; [exact Hs|split; [exact Hs'|split; [exact Hrun|]]]].
  - apply Htrue. split; [|reflexivity]. exists 200. split; [reflexivity|discriminate].
  - destruct (Hret _ Hrun) as (new & lm & t & _ & Ht & _ & _ & _ & _ & _ & Hst).
    rewrite Hst. exact (eq_sym Ht).
Defined.

(** * Further properties *)

(** ** Histories *)

Lemma seen_app {A} (f : Event -> option A) (evs h : list Event) :
  seen f (evs ++ h) = seen f h ++ seen f evs.
Proof. unfold seen. by rewrite reverse_app, omap_app. Qed.

Lemma seen_cons {A} (f : Event -> option A) (e : Event) (h : list Event) :
  seen f (e :: h) = seen f h ++ from_option (fun a => [a]) [] (f e).
Proof.
  change (e :: h) with ([e] ++ h). rewrite seen_app. f_equal.
Qed.

Lemma seen_polling {A} (f : Event -> option A) (evs : list Event) :
  (forall e, polling e = true -> f e = None) ->
  Forall (fun e => polling e = true) evs -> seen f evs = [].
Proof.
  intros Hf. induction 1 as [|e evs He _ IH]; [done|].
  by rewrite seen_cons, IH, (Hf e He).
Qed.

Lemma started_seen (h : list Event) : started h = seen start_of h.
Proof. reflexivity. Qed.

Lemma waits_refl s : waits s s.
Proof. split; [apply frame_refl|]. by exists []. Qed.

Lemma waits_trans s1 s2 s3 : waits s1 s2 -> waits s2 s3 -> waits s1 s3.
Proof.
  intros [Hf1 (e1 & H1 & Hp1)] [Hf2 (e2 & H2 & Hp2)].
  split; [by eapply frame_trans|]. exists (e2 ++ e1).
  split; [by rewrite H2, H1, app_assoc|]. by apply Forall_app.
Qed.

Lemma waits_record e s : polling e = true -> waits s (record e s).
Proof. intros He. split; [apply frame_record|]. exists [e]. split; [done|]. by constructor. Qed.

Lemma waits_seen {A} (f : Event -> option A) s s' :
  (forall e, polling e = true -> f e = None) ->
  waits s s' -> seen f (history s') = seen f (history s).
Proof.
  intros Hf [_ (evs & -> & Hp)]. by rewrite seen_app, (seen_polling f evs Hf Hp), app_nil_r.
Qed.

Lemma waits_WorkersCount vw : preserves waits (WorkersCount vw).
Proof.
  unfold WorkersCount.
  apply preserves_bind; [apply waits_trans|apply preserves_load_daemon, waits_refl|].
  intros d. apply preserves_bind; [apply waits_trans| |].
  - intros s. unfold keeps, runCommand. destruct (sh_output _ _ _); by apply waits_record.
  - intros r. destruct r.2; [apply preserves_ret, waits_refl|].
    destruct r.1; apply preserves_ret, waits_refl.
Qed.

Lemma waits_IsExist_from n vw delay err : preserves waits (IsExist_from n vw delay err).
Proof.
  revert err. induction n as [|n IH]; intros err; simpl.
  - destruct err; [apply preserves_abort, waits_refl | apply preserves_ret, waits_refl].
  - apply preserves_bind; [apply waits_trans|apply waits_WorkersCount|]. intros r.
    apply preserves_bind; [apply waits_trans|apply preserves_load_daemon, waits_refl|].
    intros d. destruct (_ =? _); [apply preserves_ret, waits_refl|].
    apply preserves_bind; [apply waits_trans| |intros; apply IH].
    intros s. by apply waits_record.
Qed.

Lemma waits_IsExist vw tries delay : preserves waits (IsExist vw tries delay).
Proof. apply waits_IsExist_from. Qed.

Lemma waits_after_rounds k h delay s : waits s (after_rounds k h delay s).
Proof.
  induction k as [|k IH]; [apply waits_refl|].
  unfold after_rounds in *. rewrite Nat.iter_succ.
  eapply waits_trans; [exact IH|]. unfold missed_round.
  eapply waits_trans; by apply waits_record.
Qed.

Lemma sleeps_after_rounds k h delay s :
  seen sleep_of (history (after_rounds k h delay s))
  = seen sleep_of (history s) ++ replicate k delay.
Proof.
  induction k as [|k IH]; [by rewrite app_nil_r|].
  rewrite replicate_S_end, app_assoc, <- IH.
  unfold after_rounds. rewrite Nat.iter_succ. unfold missed_round at 1.
  cbn [history record]. rewrite !seen_cons. simpl. by rewrite app_nil_r.
Qed.

(** ** The health check: time spent *)

(** X1. A health check that returns has slept after every poll that missed,
    also after the last one: when it returns false it has made [tries] polls
    and slept [tries] times [delay]; when it returns true it has slept once
    less than it polled.  The heap is as it was. *)
Theorem IsExist_sleeps_after_every_miss :
  forall (vw : loc) (h : VWDaemon) (tries delay : Z) (s : State) (b : bool) (s' : State),
    daemons s !! vw = Some h ->
    IsExist vw tries delay s = Ret b s' ->
    let made := (polls (history s') - polls (history s))%nat in
    seen sleep_of (history s')
    = seen sleep_of (history s) ++ replicate (if b then made - 1 else made)%nat delay
    /\ (b = false -> made = Z.to_nat tries)
    /\ (b = true -> (1 <= made <= Z.to_nat tries)%nat)
    /\ frame s s'.
Proof.
  intros vw h tries delay s b s' Hh H made.
  assert (Hframe : frame s s') by (by eapply frame_of_Ret; [apply pure_io_IsExist|]).
  unfold IsExist in H.
  destruct (first_hit_or_miss (fun i => (poll_at s h i).1) (expected h) (Z.to_nat tries))
    as [(k & Hk & Hk1 & Hk2)|Hnone].
  - rewrite (IsExist_from_hit vw h delay k _ None s Hk Hh Hk1 Hk2) in H.
    injection H as <- <-.
    assert (Hmade : made = S k).
    { subst made. cbn [history record]. unfold polls at 1. simpl.
      fold (polls (history (after_rounds k h delay s))). rewrite polls_after_rounds. lia. }
    rewrite Hmade. split; [|split; [done|split; [lia|done]]].
    cbn [history record]. rewrite seen_cons, sleeps_after_rounds. simpl.
    by rewrite app_nil_r, Nat.sub_0_r.
  - rewrite (IsExist_from_miss vw h delay _ None s Hh Hnone) in H.
    destruct (last_err h (Z.to_nat tries) None s); [done|]. injection H as <- <-.
    assert (Hmade : made = Z.to_nat tries).
    { subst made. rewrite polls_after_rounds. lia. }
    rewrite Hmade. split; [apply sleeps_after_rounds|]. done.
Qed.

Lemma IsExist_sleeps_after_every_miss_witness :
  exists s', IsExist 1%positive 3 500 idle4 = Ret false s'
             /\ seen sleep_of (history s') = [500; 500; 500].
Proof.
  assert (H : IsExist 1%positive 3 500 idle4
              = Ret false (final (IsExist 1%positive 3 500 idle4)))
    by (vm_compute; reflexivity).
  exists (final (IsExist 1%positive 3 500 idle4)). split; [exact H|].
  destruct (IsExist_sleeps_after_every_miss 1%positive handle4 3 500 idle4 _ _ eq_refl H)
    as (Hs & Hm & _).
  rewrite Hs, (Hm eq_refl). reflexivity.
Defined.

(** ** Stopping a daemon *)

Lemma Stop_eq vw d s :
  daemons s !! vw = Some d ->
  Stop vw s
  = if sh_start (env s) (now s) (pkill_command (Port d))
    then match IsExist vw 5 500 (killed d s) with
         | Ret true s2 => Abort (Fatal "Failed to stop daemon!") s2
         | Ret false s2 => Ret None s2
         | Abort f s2 => Abort f s2
         end
    else Abort (Panic "exec") (killed d s).
Proof.
  intros Hd. unfold Stop. rewrite (bind_eq _ _ _ _ _ (load_daemon_eq vw d s Hd)).
  unfold bind at 1, runCommand. destruct (sh_start _ _ _); [|done]. simpl.
  unfold bind, killed. by destruct (IsExist vw 5 500 _) as [[] ?|].
Qed.

(** X2. [Stop] returns (and then nil) exactly when the kill command could be
    launched, none of the five polls after it counted [Children + 1]
    processes and the query of the fifth did not fail: any other count passes
    for a stopped daemon.  It exits with [Failed to stop daemon!] exactly
    when one of the five polls counts [Children + 1].  The heap is never
    changed. *)
Theorem Stop_returns_iff :
  forall (vw : loc) (d : VWDaemon) (s : State),
    daemons s !! vw = Some d ->
    (forall r s',
       Stop vw s = Ret r s'
       <-> r = None
           /\ sh_start (env s) (now s) (pkill_command (Port d)) = true
           /\ (forall j, (j < 5)%nat -> (poll_at (killed d s) d j).1 <> expected d)
           /\ (poll_at (killed d s) d 4).2 = None
           /\ s' = after_rounds 5 d 500 (killed d s))
    /\ (forall s',
          Stop vw s = Abort (Fatal "Failed to stop daemon!") s'
          <-> sh_start (env s) (now s) (pkill_command (Port d)) = true
              /\ exists k, (k < 5)%nat
                   /\ (poll_at (killed d s) d k).1 = expected d
                   /\ (forall j, (j < k)%nat -> (poll_at (killed d s) d j).1 <> expected d)
                   /\ s' = record (EvOutput (pgrep_command (Port d)))
                                  (after_rounds k d 500 (killed d s)))
    /\ frame s (final (Stop vw s)).
Proof.
  intros vw d s Hd. split; [|split]; [| |apply pure_io_Stop].
  - intros r s'. rewrite (Stop_eq vw d s Hd).
    destruct (sh_start _ _ _); [|by split; [|intros (_ & ? & _)]].
    unfold IsExist. change (Z.to_nat 5) with 5%nat.
    destruct (first_hit_or_miss (fun i => (poll_at (killed d s) d i).1) (expected d) 5)
      as [(k & Hk & Hk1 & Hk2)|Hnone].
    + rewrite (IsExist_from_hit vw d 500 k 5 None (killed d s) Hk Hd Hk1 Hk2).
      split; [done|]. intros (_ & _ & Hmiss & _). by destruct (Hmiss k Hk).
    + rewrite (IsExist_from_miss vw d 500 5 None (killed d s) Hd Hnone). simpl.
      destruct (poll_at (killed d s) d 4).2.
      * split; [done|]. by intros (_ & _ & _ & ? & _).
      * split; [by intros [= <- <-]|]. by intros (-> & _ & _ & _ & ->).
  - intros s'. rewrite (Stop_eq vw d s Hd).
    destruct (sh_start _ _ _); [|by split; [|intros (? & _)]].
    unfold IsExist. change (Z.to_nat 5) with 5%nat.
    destruct (first_hit_or_miss (fun i => (poll_at (killed d s) d i).1) (expected d) 5)
      as [(k & Hk & Hk1 & Hk2)|Hnone].
    + rewrite (IsExist_from_hit vw d 500 k 5 None (killed d s) Hk Hd Hk1 Hk2).
      split.
      * intros [= <-]. split; [done|]. by exists k.
      * intros (_ & k' & Hk' & Hk'1 & Hk'2 & ->).
        assert (k' = k) as ->; [|done].
        destruct (Nat.lt_trichotomy k' k) as [Hlt|[->|Hlt]]; [|done|].
        -- by destruct (Hk2 k' Hlt).
        -- by destruct (Hk'2 k Hlt).
    + rewrite (IsExist_from_miss vw d 500 5 None (killed d s) Hd Hnone). simpl.
      split.
      * by destruct (poll_at (killed d s) d 4).2.
      * intros (_ & k & Hk & Hk1 & _). by destruct (Hnone k Hk).
Qed.

Lemma Stop_returns_iff_witness :
  Stop 1%positive idle4 = Ret None (after_rounds 5 handle4 500 (killed handle4 idle4)).
Proof.
  destruct (Stop_returns_iff 1%positive handle4 idle4 eq_refl) as (Hret & _).
  apply Hret. split; [done|]. split; [reflexivity|]. split; [|split; reflexivity].
  intros j _. vm_compute. discriminate.
Defined.

(** ** How the supervisor fails *)

Lemma bind_Abort {A B} (m : M A) (k : A -> M B) s f s' :
  bind m k s = Abort f s' ->
  m s = Abort f s' \/ exists a s1, m s = Ret a s1 /\ k a s1 = Abort f s'.
Proof.
  unfold bind. destruct (m s) as [a s1|f1 s1]; intros H; [right; eauto |].
  injection H as -> ->. by left.
Qed.

Section FailsOnly.

Variable F : Failure -> Prop.

Lemma fails_only_ret {A} (a : A) : fails_only F (ret a).
Proof. by intros s f s'. Qed.

Lemma fails_only_abort {A} f : F f -> fails_only F (@abort A f).
Proof. intros Hf s f' s' [= <- _]. done. Qed.

Lemma fails_only_bind {A B} (m : M A) (k : A -> M B) :
  fails_only F m -> (forall a, fails_only F (k a)) -> fails_only F (bind m k).
Proof.
  intros Hm Hk s f s' [H|(a & s1 & _ & H)]%bind_Abort; [by eapply Hm | by eapply Hk].
Qed.

Lemma fails_only_defer {A} (d : M unit) (body : M A) :
  fails_only F body -> fails_only F d -> fails_only F (defer d body).
Proof.
  intros Hb Hd s f s'. unfold defer.
  destruct (body s) as [a s1|[msg|msg|] s1] eqn:E.
  - destruct (d s1) as [|f1 s2] eqn:E1; [done|]. intros [= <- _]. by eapply Hd.
  - intros [= <- _]. by eapply Hb.
  - destruct (d s1) as [|f1 s2] eqn:E1; intros [= <- _]; [by eapply Hb | by eapply Hd].
  - intros [= <- _]. by eapply Hb.
Qed.

Hypothesis F_nil : F nil_deref.

Lemma fails_only_load_daemon l : fails_only F (load_daemon l).
Proof. intros s f s'. unfold load_daemon. destruct (daemons s !! l); [done|]. by intros [= <- _]. Qed.

Lemma fails_only_load_model l : fails_only F (load_model l).
Proof.
  intros s f s'. unfold load_model. destruct l as [l|]; [|by intros [= <- _]].
  destruct (models s !! l); [done|]. by intros [= <- _].
Qed.

Lemma fails_only_WorkersCount vw : fails_only F (WorkersCount vw).
Proof.
  unfold WorkersCount. apply fails_only_bind; [apply fails_only_load_daemon|]. intros d.
  apply fails_only_bind.
  - intros s f s'. unfold runCommand. by destruct (sh_output _ _ _).
  - intros r. destruct r.2; [apply fails_only_ret|]. destruct r.1; apply fails_only_ret.
Qed.

Hypothesis F_count : F (Fatal "Can't getting VW workers count.").

Lemma fails_only_IsExist_from n vw delay err : fails_only F (IsExist_from n vw delay err).
Proof.
  revert err. induction n as [|n IH]; intros err; simpl.
  - destruct err; [by apply fails_only_abort | apply fails_only_ret].
  - apply fails_only_bind; [apply fails_only_WorkersCount|]. intros r.
    apply fails_only_bind; [apply fails_only_load_daemon|]. intros d.
    destruct (_ =? _); [apply fails_only_ret|].
    apply fails_only_bind; [by intros s f s'|intros; apply IH].
Qed.

Hypothesis F_exec : F (Panic "exec").
Hypothesis F_stop : F (Fatal "Failed to stop daemon!").

Lemma fails_only_Stop vw : fails_only F (Stop vw).
Proof.
  unfold Stop. apply fails_only_bind; [apply fails_only_load_daemon|]. intros d.
  apply fails_only_bind.
  - intros s f s'. unfold runCommand. by destruct (sh_start _ _ _).
  - intros r. destruct r.2; [by apply fails_only_abort|].
    apply fails_only_bind; [apply fails_only_IsExist_from|].
    intros []; [by apply fails_only_abort | apply fails_only_ret].
Qed.

Hypothesis F_resolve : F (Fatal "Error while resolving IP addr: ").
Hypothesis F_dial : F (Fatal "Error while dialing TCP").

Lemma fails_only_getTCPConn vw : fails_only F (getTCPConn vw).
Proof.
  unfold getTCPConn. apply fails_only_bind; [apply fails_only_load_daemon|].
  intros d s f s'. destruct (tcp_dial _ _ _); [by intros [= <- _]..|done].
Qed.

(** The loop of [makeTCPConnQueue] does not wait on a queue with room for
    the connections it is about to send. *)
Lemma fails_only_fill_queue vw d l n : forall ch s f s',
  daemons s !! vw = Some d -> TCPQueue d = Some l -> chans s !! l = Some ch ->
  Z.of_nat (length (ch_buf ch)) + Z.of_nat n <= ch_cap ch ->
  fill_queue n vw s = Abort f s' -> F f.
Proof.
  induction n as [|n IH]; intros ch s f s' Hd Hq Hch Hroom H; [done|].
  simpl in H. rewrite (bind_eq _ _ _ _ _ (load_daemon_eq vw d s Hd)) in H.
  apply bind_Abort in H as [H|(c & s1 & Hc & H)]; [by eapply fails_only_getTCPConn|].
  apply getTCPConn_Ret in Hc as [(Hd1 & _ & Hc1 & _) ->].
  assert (Hsend : chan_send (TCPQueue d) (now s) s1
                  = Ret tt (set_chan l (mkChan (ch_cap ch) (ch_buf ch ++ [now s])) s1)).
  { unfold chan_send. rewrite Hq. simpl. rewrite Hc1, Hch. simpl. unfold chan_put.
    destruct (Z.ltb_spec (Z.of_nat (length (ch_buf ch))) (ch_cap ch)); [done|lia]. }
  rewrite (bind_eq _ _ _ _ _ Hsend) in H.
  apply (IH (mkChan (ch_cap ch) (ch_buf ch ++ [now s]))
            (set_chan l (mkChan (ch_cap ch) (ch_buf ch ++ [now s])) s1) f s').
  - simpl. congruence.
  - done.
  - simpl. by rewrite lookup_insert_eq.
  - simpl. rewrite length_app. simpl. lia.
  - exact H.
Qed.

Hypothesis F_makechan : F (Panic "makechan: size out of range").
Hypothesis F_start : F (Fatal "Failed to start daemon!").

Lemma fails_only_Run vw : fails_only F (Run vw).
Proof.
  intros s f s' H. unfold Run in H.
  apply bind_Abort in H as [H|(running & s1 & _ & H)]; [by eapply fails_only_IsExist_from|].
  apply bind_Abort in H as [H|(? & s2 & _ & H)].
  { destruct running; [|done].
    apply bind_Abort in H as [H|(? & ? & _ & H)]; [by eapply fails_only_Stop|done]. }
  apply bind_Abort in H as [H|(d & ? & _ & H)]; [by eapply fails_only_load_daemon|].
  apply bind_Abort in H as [H|(m & ? & _ & H)]; [by eapply fails_only_load_model|].
  apply bind_Abort in H as [H|(r & s3 & _ & H)].
  { unfold runCommand in H. by destruct (sh_start _ _ _). }
  destruct r.2; [by injection H as <- _|].
  apply bind_Abort in H as [H|(started & s4 & _ & H)]; [by eapply fails_only_IsExist_from|].
  destruct started; simpl in H; [|by injection H as <- _].
  apply bind_Abort in H as [H|(d' & ? & (-> & Hd')%load_daemon_Ret & H)];
    [by eapply fails_only_load_daemon|].
  apply bind_Abort in H as [H|(q & s5 & Hq & H)].
  { unfold make_chan in H. destruct (_ <? 0); [by injection H as <- _|done]. }
  unfold make_chan in Hq. destruct (Z.ltb_spec (GoInt.div (Children d') 2) 0) as [|Hsize]; [done|].
  injection Hq as <- <-.
  apply bind_Abort in H as [H|([] & s6 & Hst & H)]; [done|]. injection Hst as <-.
  apply bind_Abort in H as [H|(? & ? & _ & H)]; [|done].
  unfold makeTCPConnQueue in H.
  rewrite (bind_eq _ _ _ (set_queue d' (Some (fresh (dom (chans s4))))) _) in H
    by (apply load_daemon_eq; simpl; by rewrite lookup_insert_eq).
  simpl in H.
  eapply (fails_only_fill_queue vw (set_queue d' (Some (fresh (dom (chans s4)))))
            (fresh (dom (chans s4))) _ (mkChan (GoInt.div (Children d') 2) []) _ f s');
    [| | | |exact H].
  - simpl. by rewrite lookup_insert_eq.
  - done.
  - simpl. by rewrite lookup_insert_eq.
  - simpl. lia.
Qed.

Hypothesis F_stat : F (Fatal "stat").

Lemma fails_only_NewDaemon binPath port children modelPath test quiet updatable :
  fails_only F (NewDaemon binPath port children modelPath test quiet updatable).
Proof.
  unfold NewDaemon. apply fails_only_bind; [by intros s f s'|].
  intros [t|]; [|by apply fails_only_abort].
  apply fails_only_bind; [by intros s f s'|]. intros lm.
  apply fails_only_bind; [by intros s f s'|]. intros l.
  apply fails_only_bind; [|intros; apply fails_only_ret].
  destruct updatable; [by intros s f s' | apply fails_only_ret].
Qed.

Lemma fails_only_DeepCopy vw : fails_only F (DeepCopy vw).
Proof.
  unfold DeepCopy. apply fails_only_bind; [apply fails_only_load_daemon|]. intros d.
  apply fails_only_bind; [|by intros m' s f s'].
  destruct (Model d); [|apply fails_only_ret].
  apply fails_only_bind; [apply fails_only_load_model|]. intros m.
  apply fails_only_bind; [by intros s f s'|intros; apply fails_only_ret].
Qed.

Hypothesis F_stat_panic : F (Panic "stat").

Lemma fails_only_IsChanged model : fails_only F (IsChanged model).
Proof.
  unfold IsChanged. apply fails_only_bind; [apply fails_only_load_model|]. intros m.
  apply fails_only_bind; [by intros s f s'|].
  intros [t|]; [|by apply fails_only_abort].
  destruct (decide _); apply fails_only_ret.
Qed.

(** The exit [RecreateDaemon] keeps for an error of [Run] needs [Run] to
    return one. *)
Lemma fails_only_RecreateDaemon d : fails_only F (RecreateDaemon d).
Proof.
  rewrite RecreateDaemon_unfold.
  apply fails_only_bind; [apply fails_only_DeepCopy|]. intros tmp.
  apply fails_only_defer.
  2:{ apply fails_only_bind; [apply fails_only_Stop|intros; apply fails_only_ret]. }
  apply fails_only_bind; [apply fails_only_load_daemon|]. intros old.
  apply fails_only_bind; [apply fails_only_load_model|]. intros m.
  apply fails_only_bind; [apply fails_only_NewDaemon|]. intros newVW.
  intros s f s' [H|(err & s1 & (-> & _)%Run_Ret & H)]%bind_Abort;
    [by eapply fails_only_Run|].
  apply bind_Abort in H as [H|(? & ? & _ & H)]; [by eapply fails_only_load_daemon|done].
Qed.

Lemma fails_only_modelFileChecker rounds vw : fails_only F (modelFileChecker rounds vw).
Proof.
  induction rounds as [|n IH]; simpl; [apply fails_only_ret|].
  apply fails_only_bind; [by intros s f s'|]. intros _.
  apply fails_only_bind; [apply fails_only_load_daemon|]. intros d.
  apply fails_only_bind; [apply fails_only_IsChanged|]. intros changed.
  apply fails_only_bind; [|done].
  destruct changed; [apply fails_only_RecreateDaemon | apply fails_only_ret].
Qed.

End FailsOnly.

Lemma exits_or_panics_spec f :
  exits_or_panics f -> f <> Blocked /\ f <> Fatal "run".
Proof. destruct f as [msg|msg|]; simpl; [|done..]. intros H. split; congruence. Qed.

(** X3. [Run] and [Stop] return no error: when they return, the error is
    nil.  [Run] never waits on its queue: the channel it makes has room for
    every connection it sends.  Its failures are panics and exits of the
    process. *)
Theorem Run_returns_nil_and_never_blocks :
  forall (vw : loc) (s : State),
    (forall r s', Run vw s = Ret r s' -> r = None)
    /\ (forall r s', Stop vw s = Ret r s' -> r = None)
    /\ (forall f s', Run vw s = Abort f s' -> f <> Blocked)
    /\ (forall f s', Stop vw s = Abort f s' -> f <> Blocked).
Proof.
  intros vw s. split; [by intros r s' [? _]%Run_Ret|]. split; [|split].
  - intros r s' H. unfold Stop in H.
    apply bind_Ret in H as (d & ? & _ & H). apply bind_Ret in H as (out & ? & _ & H).
    destruct out.2; [done|]. apply bind_Ret in H as ([] & ? & _ & H); [done|].
    by injection H as <- _.
  - intros f s' H. eapply exits_or_panics_spec, (fails_only_Run exits_or_panics); try exact H; done.
  - intros f s' H. eapply exits_or_panics_spec, (fails_only_Stop exits_or_panics); try exact H; done.
Qed.

(** X4. [RecreateDaemon], and so the model watcher, never waits forever and
    never takes the exit it keeps for an error returned by [Run]: every
    failure of a reload is a panic or one of the other exits. *)
Theorem RecreateDaemon_fails_by_exit_or_panic :
  forall (d : loc) (rounds : nat) (s : State) (f : Failure) (s' : State),
    (RecreateDaemon d s = Abort f s' -> f <> Blocked /\ f <> Fatal "run")
    /\ (modelFileChecker rounds d s = Abort f s' -> f <> Blocked /\ f <> Fatal "run").
Proof.
  intros d rounds s f s'. split; intros H; apply exits_or_panics_spec.
  - eapply (fails_only_RecreateDaemon exits_or_panics); try exact H; done.
  - eapply (fails_only_modelFileChecker exits_or_panics); try exact H; done.
Qed.

(** ** Predictions *)

Lemma terminate_Some (pData : list byte) :
  pData <> [] -> exists wire, terminate pData = Some wire.
Proof.
  intros Hne. unfold terminate. destruct (last pData) as [b|] eqn:E.
  - destruct (Byte.eqb b endOfLine); eauto.
  - by apply last_None in E.
Qed.

(** X5. On a handle whose queue holds [conn :: rest], [Predict] returns
    exactly when the request has at least one byte, the write to [conn] and
    the read of a line from [conn] succeed and the queue has room to take
    [conn] back.  It has then written the terminated request to [conn], read
    the answer from the same connection, put [conn] at the end of the queue,
    and it returns the parsed line with a nil error. *)
Theorem Predict_returns_iff :
  forall (P : Type) (ParsePredictResult : string -> P) (vw : loc) (d : VWDaemon)
         (q : loc) (ch : Chan) (conn : Conn) (rest : list Conn)
         (pData : list byte) (s : State),
    daemons s !! vw = Some d -> TCPQueue d = Some q ->
    chans s !! q = Some ch -> ch_buf ch = conn :: rest ->
    forall r s',
      Predict ParsePredictResult vw pData s = Ret r s'
      <-> exists wire line,
            terminate pData = Some wire
            /\ tcp_write (env s) (now s) conn wire = true
            /\ tcp_read (env s) (S (now s)) conn = Some line
            /\ Z.of_nat (length rest) < ch_cap ch
            /\ r = (ParsePredictResult line, None)
            /\ s' = predicted q ch conn rest wire s.
Proof.
  intros P parse vw d q ch conn rest pData s Hd Hq Hch Hbuf r s'.
  unfold Predict, abort. destruct (terminate pData) as [wire|]; [|by split; [|intros (?&?&?&_)]].
  rewrite (bind_eq _ _ _ _ _ (load_daemon_eq vw d s Hd)).
  assert (Hrecv : chan_recv (TCPQueue d) s = Ret conn (set_chan q (mkChan (ch_cap ch) rest) s)).
  { unfold chan_recv. rewrite Hq. simpl. rewrite Hch. simpl. unfold chan_take. by rewrite Hbuf. }
  rewrite (bind_eq _ _ _ _ _ Hrecv). unfold bind at 1, conn_write. simpl.
  change (now (set_chan q (mkChan (ch_cap ch) rest) s)) with (now s).
  destruct (tcp_write (env s) (now s) conn wire) eqn:Ew; simpl.
  2:{ split; [done|]. intros (w & l & [= <-] & ? & _). congruence. }
  unfold bind at 1, conn_read_line. simpl.
  change (now (record (EvWrite conn wire) (set_chan q (mkChan (ch_cap ch) rest) s)))
    with (S (now s)).
  destruct (tcp_read (env s) (S (now s)) conn) as [line|] eqn:Er.
  2:{ split; [done|]. intros (w & l & _ & _ & ? & _). congruence. }
  rewrite (bind_eq _ _ _ d _) by (apply load_daemon_eq; simpl; exact Hd).
  unfold bind, chan_send. rewrite Hq. simpl. rewrite lookup_insert_eq. simpl.
  unfold chan_put. simpl.
  destruct (Z.ltb_spec (Z.of_nat (length rest)) (ch_cap ch)) as [Hroom|Hfull]; simpl.
  - unfold set_chan, record. simpl. rewrite insert_insert_eq. split.
    + intros [= <- <-]. by exists wire, line.
    + by intros (w & l & [= <-] & _ & [= <-] & _ & -> & ->).
  - split; [done|]. intros (w & l & _ & _ & _ & ? & _). lia.
Qed.

Lemma Predict_returns_iff_witness :
  exists q conn rest s',
    Predict (fun line => line) 1%positive [x31; x20; x7c] (final (Run 1%positive ready4))
    = Ret ("0.5 tag1"%string, None) s'
    /\ ch_buf <$> chans (final (Run 1%positive ready4)) !! q = Some (conn :: rest)
    /\ ch_buf <$> chans s' !! q = Some (rest ++ [conn]).
Proof.
  set (s := final (Run 1%positive ready4)).
  assert (Hq : exists q, TCPQueue <$> daemons s !! 1%positive = Some (Some q)
                         /\ exists conn rest, chans s !! q = Some (mkChan 2 (conn :: rest))
                            /\ tcp_write (env s) (now s) conn [x31; x20; x7c; x0a] = true
                            /\ tcp_read (env s) (S (now s)) conn = Some "0.5 tag1"%string
                            /\ length rest = 1%nat).
  { vm_compute. eexists. split; [reflexivity|]. eexists _, _. repeat split. }
  destruct Hq as (q & Hd & conn & rest & Hch & Hw & Hr & Hlen).
  destruct (daemons s !! 1%positive) as [d|] eqn:Ed; [|done].
  injection Hd as HqD.
  exists q, conn, rest, (predicted q (mkChan 2 (conn :: rest)) conn rest [x31; x20; x7c; x0a] s).
  split; [|split].
  - apply (Predict_returns_iff _ _ 1%positive d q (mkChan 2 (conn :: rest)) conn rest _ s
             Ed HqD Hch eq_refl).
    exists [x31; x20; x7c; x0a], "0.5 tag1"%string. simpl. rewrite Hlen.
    repeat split; try done.
  - by rewrite Hch.
  - simpl. by rewrite lookup_insert_eq.
Defined.

(** X6. A daemon run with fewer than two workers serves no prediction: its
    queue has capacity [Children / 2 = 0] and no connection, and [Predict],
    on any request of at least one byte, waits on it forever. *)
Theorem Predict_blocks_with_fewer_than_two_workers :
  forall (P : Type) (ParsePredictResult : string -> P) (vw : loc) (d : VWDaemon)
         (r : option error) (s s' : State) (pData : list byte),
    daemons s !! vw = Some d ->
    -1 <= Children d <= 1 ->
    Run vw s = Ret r s' ->
    pData <> [] ->
    Predict ParsePredictResult vw pData s' = Abort Blocked s'.
Proof.
  intros P parse vw d r s s' pData Hd Hc
    (_ & d' & l & m & q & buf & s1 & Hd' & _ & _ & _ & _ & _ & Hds & _ & _ & Hcs & Hlen)%Run_Ret Hne.
  assert (d' = d) as -> by congruence.
  assert (Hzero : GoInt.div (Children d) 2 = 0).
  { assert (Children d = -1 \/ Children d = 0 \/ Children d = 1) as [->|[->| ->]] by lia; done. }
  rewrite Hzero in Hlen, Hcs. destruct buf; [|simpl in Hlen; lia].
  destruct (terminate_Some pData Hne) as [wire Hw].
  unfold Predict. rewrite Hw.
  rewrite (bind_eq _ _ _ (set_queue d (Some q)) s')
    by (apply load_daemon_eq; by rewrite Hds, lookup_insert_eq).
  unfold bind, chan_recv. simpl. by rewrite Hcs, lookup_insert_eq.
Qed.

Lemma Predict_blocks_with_fewer_than_two_workers_witness :
  Run 1%positive ready1 = Ret None (final (Run 1%positive ready1))
  /\ Predict (fun line => line) 1%positive [x31] (final (Run 1%positive ready1))
     = Abort Blocked (final (Run 1%positive ready1)).
Proof.
  assert (Hrun : Run 1%positive ready1 = Ret None (final (Run 1%positive ready1)))
    by (vm_compute; reflexivity).
  split; [exact Hrun|].
  apply (Predict_blocks_with_fewer_than_two_workers _ _ 1%positive handle1 None ready1);
    [reflexivity| |exact Hrun|discriminate].
  change (Children handle1) with 1. lia.
Defined.

(** ** Constructing and copying a handle *)

(** X7. [NewDaemon] exits exactly when the model file cannot be statted, and
    has then allocated nothing.  Otherwise it returns a handle that was not
    allocated before, with the arguments as its fields and a new model that
    stores the modification time statted; the handle is not started (no
    command is issued, its queue is nil, and [Predict] on it waits forever);
    a watcher is started on it exactly when [updatable] is set. *)
Theorem NewDaemon_outcome :
  forall (binPath : string) (port children : Z) (modelPath : string)
         (test quiet updatable : bool) (s : State),
    match os_stat (env s) (now s) modelPath with
    | None =>
        NewDaemon binPath port children modelPath test quiet updatable s
        = Abort (Fatal "stat") (record (EvStat modelPath) s)
    | Some t =>
        exists (l lm : loc) (s' : State),
          NewDaemon binPath port children modelPath test quiet updatable s = Ret l s'
          /\ daemons s !! l = None /\ models s !! lm = None
          /\ daemons s' = <[l := mkDaemon binPath port children (Some lm) test quiet None]> (daemons s)
          /\ models s' = <[lm := mkModel modelPath t updatable]> (models s)
          /\ chans s' = chans s
          /\ history s' = (if updatable then [EvGo l] else []) ++ EvStat modelPath :: history s
          /\ forall (P : Type) (parse : string -> P) (pData : list byte),
               pData <> [] -> Predict parse l pData s' = Abort Blocked s'
    end.
Proof.
  intros binPath port children modelPath test quiet updatable s.
  destruct (os_stat (env s) (now s) modelPath) as [t|] eqn:Et;
    [|unfold NewDaemon, bind, stat; by rewrite Et].
  exists (fresh (dom (daemons s))), (fresh (dom (models s))).
  destruct updatable;
    (eexists; split; [unfold NewDaemon, bind, stat; rewrite Et; reflexivity|]);
    (split; [apply not_elem_of_dom, is_fresh|]);
    (split; [apply not_elem_of_dom, is_fresh|]); simpl; (do 4 (split; [done|]));
    intros P parse pData [wire Hw]%terminate_Some;
    unfold Predict; rewrite Hw;
    (erewrite bind_eq by (apply load_daemon_eq; simpl; apply lookup_insert_eq)); done.
Qed.

(** X8. [DeepCopy] returns a handle that was not allocated before, with the
    binary path, port, worker count and flags of the original and no queue;
    its model is a new copy of the original's model, not the same reference.
    The original, the channels and the history are as they were: the copy
    makes no call to the operating system. *)
Theorem DeepCopy_independent_copy :
  forall (vw tmp : loc) (s s' : State),
    DeepCopy vw s = Ret tmp s' ->
    exists (d copy : VWDaemon),
      daemons s !! vw = Some d
      /\ tmp <> vw /\ daemons s !! tmp = None
      /\ daemons s' = <[tmp := copy]> (daemons s)
      /\ BinPath copy = BinPath d /\ Port copy = Port d /\ Children copy = Children d
      /\ Test copy = Test d /\ Quite copy = Quite d
      /\ TCPQueue copy = None
      /\ match Model d with
         | None => Model copy = None /\ models s' = models s
         | Some l =>
             exists l' m, Model copy = Some l' /\ l' <> l
                          /\ models s !! l = Some m /\ models s !! l' = None
                          /\ models s' = <[l' := m]> (models s)
         end
      /\ chans s' = chans s /\ history s' = history s /\ env s' = env s.
Proof.
  intros vw tmp s s' H. unfold DeepCopy in H.
  apply bind_Ret in H as (d & ? & (-> & Hd)%load_daemon_Ret & H).
  apply bind_Ret in H as (m' & s0 & Hm & H). injection H as <- <-.
  assert (Hfresh : forall s0 : State, daemons s0 = daemons s ->
                     daemons s !! fresh (dom (daemons s0)) = None).
  { intros s1 <-. apply not_elem_of_dom, is_fresh. }
  assert (Hne : fresh (dom (daemons s)) <> vw).
  { intros E. pose proof (Hfresh s eq_refl) as Hn. rewrite E in Hn. congruence. }
  destruct (Model d) as [l|] eqn:Hl.
  - apply bind_Ret in Hm as (m & ? & (-> & l0 & [= <-] & Hlm)%load_model_Ret & Hm).
    apply bind_Ret in Hm as (lc & ? & Ha & Hm). injection Hm as <- <-.
    injection Ha as <- <-. simpl.
    eexists d, _. rewrite Hl. split; [done|]. split; [done|]. split; [by apply Hfresh|].
    split; [reflexivity|]. simpl. do 6 (split; [done|]).
    split; [|done]. exists (fresh (dom (models s))), m.
    assert (Hn : models s !! fresh (dom (models s)) = None) by apply not_elem_of_dom, is_fresh.
    split; [done|]. split; [congruence|]. done.
  - injection Hm as <- <-. simpl.
    eexists d, _. rewrite Hl. split; [done|]. split; [done|]. split; [by apply Hfresh|].
    split; [reflexivity|]. simpl. done.
Qed.

Lemma DeepCopy_independent_copy_witness :
  exists tmp s' copy,
    DeepCopy 1%positive (final (Run 1%positive ready4)) = Ret tmp s'
    /\ daemons s' !! tmp = Some copy
    /\ Port copy = 26542 /\ Children copy = 4 /\ TCPQueue copy = None.
Proof.
  set (s := final (Run 1%positive ready4)).
  assert (H : DeepCopy 1%positive s = Ret 2%positive (final (DeepCopy 1%positive s)))
    by (vm_compute; reflexivity).
  destruct (DeepCopy_independent_copy _ _ _ _ H)
    as (d & copy & Hd & _ & _ & Hds & _ & Hp & Hc & _ & _ & Hq & _).
  exists 2%positive, (final (DeepCopy 1%positive s)), copy.
  split; [exact H|]. split; [by rewrite Hds, lookup_insert_eq|].
  assert (Hd4 : Port d = 26542 /\ Children d = 4).
  { assert (Hv : Port <$> daemons s !! (1%positive : loc) = Some 26542
                 /\ Children <$> daemons s !! (1%positive : loc) = Some 4)
      by (vm_compute; done).
    rewrite Hd in Hv. simpl in Hv. destruct Hv as [[= ->] [= ->]]. done. }
  destruct Hd4 as [Hp4 Hc4]. rewrite Hp, Hc. done.
Defined.

(** ** The order of external calls *)

Lemma seen_singleton {A} (f : Event -> option A) (e : Event) :
  seen f [e] = from_option (fun a => [a]) [] (f e).
Proof. unfold seen. simpl. by destruct (f e). Qed.

Lemma seen_replicate {A} (f : Event -> option A) (e : Event) (a : A) (n : nat) :
  f e = Some a -> seen f (replicate n e) = replicate n a.
Proof.
  intros He. induction n as [|n IH]; [done|].
  rewrite replicate_S at 1. rewrite seen_cons, IH, He. simpl.
  by rewrite <- replicate_S_end.
Qed.

Lemma seen_replicate_None {A} (f : Event -> option A) (e : Event) (n : nat) :
  f e = None -> seen f (replicate n e) = [].
Proof.
  intros He. induction n as [|n IH]; [done|].
  rewrite replicate_S, seen_cons, IH, He. done.
Qed.

Lemma polling_start_of e : polling e = true -> start_of e = None.
Proof. by destruct e. Qed.

Lemma polling_dial_of e : polling e = true -> dial_of e = None.
Proof. by destruct e. Qed.

Lemma polling_go_of e : polling e = true -> go_of e = None.
Proof. by destruct e. Qed.

Lemma waits_history s s' :
  waits s s' -> exists w, history s' = w ++ history s /\ Forall (fun e => polling e = true) w.
Proof. by intros [_ H]. Qed.

Lemma fill_queue_history vw d n : forall s s',
  fill_queue n vw s = Ret tt s' -> daemons s !! vw = Some d ->
  history s' = replicate n (EvDial (Port d)) ++ history s.
Proof.
  induction n as [|n IH]; intros s s' H Hd; [cbv in H; by injection H as <-|].
  simpl in H. rewrite (bind_eq _ _ _ _ _ (load_daemon_eq vw d s Hd)) in H.
  apply bind_Ret in H as (c & s1 & Hc & H).
  assert (Hs1 : s1 = record (EvDial (Port d)) s).
  { unfold getTCPConn in Hc. rewrite (bind_eq _ _ _ _ _ (load_daemon_eq vw d s Hd)) in Hc.
    destruct (tcp_dial _ _ _); [done|done|by injection Hc]. }
  subst s1. apply bind_Ret in H as ([] & s2 & Hsend & H).
  assert (Hs2 : history s2 = EvDial (Port d) :: history s /\ daemons s2 = daemons s).
  { unfold chan_send in Hsend. destruct (_ ≫= _) as [[l ch']|]; [|done].
    by injection Hsend as <-. }
  destruct Hs2 as [Hh2 Hd2].
  rewrite (IH _ _ H) by congruence.
  rewrite Hh2, replicate_S_end, <- app_assoc. done.
Qed.

Lemma Stop_Ret_waits vw d r s s' :
  Stop vw s = Ret r s' -> daemons s !! vw = Some d -> waits (killed d s) s'.
Proof.
  intros H Hd. rewrite (Stop_eq vw d s Hd) in H.
  destruct (sh_start _ _ _); [|done].
  destruct (IsExist vw 5 500 (killed d s)) as [[] s2|] eqn:E; [done| |done].
  injection H as _ <-. by eapply rel_of_Ret; [apply waits_IsExist|].
Qed.

(** The history of a [Run] that returns. *)
Lemma Run_Ret_history vw d l m r s s' :
  Run vw s = Ret r s' ->
  daemons s !! vw = Some d -> Model d = Some l -> models s !! l = Some m ->
  exists w1 pk w2,
    history s' = run_events d m w1 pk w2 ++ history s
    /\ Forall (fun e => polling e = true) w1
    /\ kill_and_polls (Port d) pk
    /\ Forall (fun e => polling e = true) w2.
Proof.
  unfold Run. intros H Hd Hl Hm.
  apply bind_Ret in H as (running & s1 & H1 & H).
  pose proof (rel_of_Ret _ _ _ _ _ (waits_IsExist _ _ _) H1) as [Hf1 (w1 & Hh1 & Hw1)].
  apply bind_Ret in H as (? & s2 & H2 & H).
  assert (Hd1 : daemons s1 !! vw = Some d) by (destruct Hf1 as (-> & _); done).
  assert (Hpk : exists pk, history s2 = pk ++ history s1 /\ kill_and_polls (Port d) pk
                           /\ frame s1 s2).
  { destruct running.
    - apply bind_Ret in H2 as (rs & s2' & HS & H2). injection H2 as _ <-.
      pose proof (Stop_Ret_waits _ _ _ _ _ HS Hd1) as [_ (wk & Hwk & Hpw)].
      exists (wk ++ [EvStart (pkill_command (Port d))]). split; [|split].
      + rewrite Hwk. unfold killed. simpl. by rewrite <- app_assoc.
      + right. by exists wk.
      + by eapply frame_of_Ret; [apply pure_io_Stop|].
    - injection H2 as _ <-. exists []. split; [done|]. split; [by left|apply frame_refl]. }
  destruct Hpk as (pk & Hh2 & Hpk & Hf2).
  pose proof (frame_trans _ _ _ Hf1 Hf2) as (Hd02 & Hm02 & _).
  apply bind_Ret in H as (d' & ? & (-> & Hd')%load_daemon_Ret & H).
  assert (d' = d) as -> by congruence.
  apply bind_Ret in H as (m' & ? & (-> & l' & Hl' & Hm')%load_model_Ret & H).
  assert (m' = m) as -> by congruence.
  apply bind_Ret in H as (out & s3 & Hstart & H).
  destruct out.2; [done|].
  assert (s3 = record (EvStart (start_command d m)) s2) as ->.
  { unfold runCommand in Hstart. destruct (sh_start _ _ _); by injection Hstart. }
  apply bind_Ret in H as (started & s4 & H4 & H).
  pose proof (rel_of_Ret _ _ _ _ _ (waits_IsExist _ _ _) H4) as [Hf4 (w2 & Hh4 & Hw2)].
  destruct started; simpl in H; [|done].
  apply bind_Ret in H as (d2 & ? & (-> & Hd2)%load_daemon_Ret & H).
  assert (d2 = d) as ->.
  { destruct Hf4 as (E & _). rewrite E in Hd2. simpl in Hd2. congruence. }
  apply bind_Ret in H as (q & s5 & Hmk & H).
  unfold make_chan in Hmk. destruct (_ <? 0); [done|]. injection Hmk as <- <-.
  apply bind_Ret in H as ([] & s6 & Hst & H). injection Hst as <-.
  apply bind_Ret in H as ([] & s7 & Hfill & H). injection H as _ <-.
  unfold makeTCPConnQueue in Hfill.
  rewrite (bind_eq _ _ _ (set_queue d (Some (fresh (dom (chans s4))))) _) in Hfill
    by (apply load_daemon_eq; simpl; by rewrite lookup_insert_eq).
  eapply fill_queue_history in Hfill; [|simpl; by rewrite lookup_insert_eq].
  simpl in Hfill. exists w1, pk, w2. split; [|done].
  rewrite Hfill, Hh4. simpl. rewrite Hh2, Hh1. unfold run_events.
  by rewrite <- !app_assoc.
Qed.

Lemma seen_kill_and_polls_start port pk :
  kill_and_polls port pk ->
  seen start_of pk = [] \/ seen start_of pk = [pkill_command port].
Proof.
  intros [->|(w & -> & Hw)]; [by left|right].
  by rewrite seen_app, (seen_polling _ _ polling_start_of Hw), app_nil_r.
Qed.

Lemma seen_kill_and_polls_mute {A} (f : Event -> option A) port pk :
  (forall e, polling e = true -> f e = None) -> (forall c, f (EvStart c) = None) ->
  kill_and_polls port pk -> seen f pk = [].
Proof.
  intros Hp Hs [->|(w & -> & Hw)]; [done|].
  rewrite seen_app, (seen_polling _ _ Hp Hw), app_nil_r. unfold seen. simpl. by rewrite Hs.
Qed.

(** X9. A [Run] that returns has, since it was called, dialed exactly
    [Children / 2] connections, all to the port of its handle, started the
    daemon once, after at most one kill of a daemon found on that port,
    and started no model watcher. *)
Theorem Run_dials_and_starts :
  forall (vw : loc) (d : VWDaemon) (l : loc) (m : VWModel) (r : option error) (s s' : State),
    daemons s !! vw = Some d -> Model d = Some l -> models s !! l = Some m ->
    Run vw s = Ret r s' ->
    seen dial_of (history s')
    = seen dial_of (history s) ++ replicate (Z.to_nat (GoInt.div (Children d) 2)) (Port d)
    /\ (exists pk, (pk = [] \/ pk = [pkill_command (Port d)])
                   /\ started (history s')
                      = started (history s) ++ pk ++ [start_command d m])
    /\ seen go_of (history s') = seen go_of (history s).
Proof.
  intros vw d l m r s s' Hd Hl Hm H.
  destruct (Run_Ret_history _ _ _ _ _ _ _ H Hd Hl Hm) as (w1 & pk & w2 & -> & Hw1 & Hpk & Hw2).
  unfold run_events. rewrite started_seen. rewrite !seen_app.
  rewrite (seen_polling _ _ polling_dial_of Hw1), (seen_polling _ _ polling_dial_of Hw2),
    (seen_polling _ _ polling_start_of Hw1), (seen_polling _ _ polling_start_of Hw2),
    (seen_polling _ _ polling_go_of Hw1), (seen_polling _ _ polling_go_of Hw2).
  rewrite (seen_kill_and_polls_mute dial_of _ _ polling_dial_of (fun _ => eq_refl) Hpk),
    (seen_kill_and_polls_mute go_of _ _ polling_go_of (fun _ => eq_refl) Hpk).
  rewrite (seen_replicate dial_of _ (Port d)) by done.
  rewrite (seen_replicate_None start_of) by done.
  rewrite (seen_replicate_None go_of) by done.
  rewrite !seen_singleton. simpl. rewrite !app_nil_r.
  split; [done|]. split; [|done].
  exists (seen start_of pk). split; [by apply (seen_kill_and_polls_start (Port d))|].
  by rewrite <- started_seen.
Qed.

Lemma Run_dials_and_starts_witness :
  Run 1%positive ready4 = Ret None (final (Run 1%positive ready4))
  /\ seen dial_of (history (final (Run 1%positive ready4))) = [26542; 26542].
Proof.
  assert (Hrun : Run 1%positive ready4 = Ret None (final (Run 1%positive ready4)))
    by (vm_compute; reflexivity).
  split; [exact Hrun|].
  destruct (Run_dials_and_starts 1%positive handle4 1%positive model4 None ready4 _
              eq_refl eq_refl eq_refl Hrun) as (Hdial & _).
  rewrite Hdial. reflexivity.
Defined.

Lemma NewDaemon_Ret_history binPath port children modelPath test quiet updatable l s s' :
  NewDaemon binPath port children modelPath test quiet updatable s = Ret l s' ->
  history s' = (if updatable then [EvGo l] else []) ++ EvStat modelPath :: history s.
Proof.
  unfold NewDaemon. intros H.
  apply bind_Ret in H as (info & s1 & Hstat & H). injection Hstat as <- <-.
  destruct (os_stat (env s) (now s) modelPath) as [t|]; [|done].
  apply bind_Ret in H as (lm & s2 & Hm & H). injection Hm as <- <-.
  apply bind_Ret in H as (l' & s3 & Hd & H). injection Hd as <- <-.
  apply bind_Ret in H as ([] & s4 & Hgo & H). injection H as <- <-.
  destruct updatable; by injection Hgo as <-.
Qed.

(** The history of a [RecreateDaemon] that returns. *)
Lemma RecreateDaemon_Ret_history d old l m s s' :
  RecreateDaemon d s = Ret tt s' ->
  daemons s !! d = Some old -> Model old = Some l -> models s !! l = Some m ->
  exists newVW lm w1 pk w2 w3,
    daemons s !! newVW = None /\ newVW <> d
    /\ history s' = reload_events old m newVW lm w1 pk w2 w3 ++ history s
    /\ Forall (fun e => polling e = true) w1
    /\ kill_and_polls (alternate_port (Port old)) pk
    /\ Forall (fun e => polling e = true) w2
    /\ Forall (fun e => polling e = true) w3.
Proof.
  intros H Hold Hl Hm. rewrite RecreateDaemon_unfold in H.
  apply bind_Ret in H as (tmp & s1 & HD & H).
  pose proof HD as (Hg1 & Hh1 & old' & Hold' & Htmp & cm & Hcopy)%DeepCopy_Ret.
  assert (old' = old) as -> by congruence.
  pose proof Hg1 as (He1 & _ & _ & Hds1 & Hms1).
  apply defer_Ret in H as (s4 & Hbody & Hstop).
  apply bind_Ret in Hbody as (old1 & ? & (-> & Hold1)%load_daemon_Ret & Hbody).
  assert (old1 = old) as ->.
  { pose proof (lookup_weaken _ _ _ _ Hold Hds1). congruence. }
  apply bind_Ret in Hbody as (m1 & ? & (-> & l1 & Hl1 & Hm1)%load_model_Ret & Hbody).
  assert (m1 = m) as ->.
  { pose proof (lookup_weaken _ _ _ _ Hm Hms1). congruence. }
  apply bind_Ret in Hbody as (newVW & s2 & HN & Hbody).
  pose proof (NewDaemon_Ret_history _ _ _ _ _ _ _ _ _ _ HN) as Hh2.
  apply NewDaemon_Ret in HN as (Hg2 & t & lm & Ht & Hlm & Hnew & Hms2 & Hds2).
  apply bind_Ret in Hbody as (err & s3 & HR & Hbody).
  assert (Hn2 : daemons s2 !! newVW = Some (replacement old lm None))
    by (by rewrite Hds2, lookup_insert_eq).
  assert (Hm2 : models s2 !! lm = Some (mkModel (Path m) t (Updatable m)))
    by (by rewrite Hms2, lookup_insert_eq).
  destruct (Run_Ret_history _ _ _ _ _ _ _ HR Hn2 eq_refl Hm2)
    as (w1 & pk & w2 & Hh3 & Hw1 & Hpk & Hw2).
  apply Run_Ret in HR as (-> & n & ln & mn & q & buf & s21 & Hn & _ & _ & _ & _ & _ & Hds3 & _).
  apply bind_Ret in Hbody as (new & ? & (-> & Hnew3)%load_daemon_Ret & Hbody).
  injection Hbody as <-.
  apply bind_Ret in Hstop as (rs & s5 & Hstop & Hret). injection Hret as <-.
  assert (Hne_tmp_new : tmp <> newVW).
  { intros ->. rewrite Hnew in Hcopy. done. }
  assert (Hne_tmp_d : tmp <> d) by (intros ->; congruence).
  assert (Hne_new_d : newVW <> d).
  { intros ->. rewrite Hold1 in Hnew. done. }
  eapply Stop_Ret_waits in Hstop as [_ (w3 & Hh5 & Hw3)].
  2:{ simpl. rewrite lookup_insert_ne by done. rewrite Hds3, lookup_insert_ne by done.
      rewrite Hds2, lookup_insert_ne by done. exact Hcopy. }
  exists newVW, lm, w1, pk, w2, w3.
  split; [by eapply lookup_weaken_None|]. split; [done|].
  split; [|done].
  rewrite Hh5. unfold killed. simpl. rewrite Hh3, Hh2, Hh1.
  unfold reload_events, run_events. simpl.
  repeat first [rewrite <- app_assoc | rewrite <- app_comm_cons]. reflexivity.
Qed.



(** X11. A reload that returns has started one more model watcher exactly
    when the model is updatable, and that watcher is bound to the handle the
    reload allocated for the new daemon, not to the handle [d] that was
    reloaded.  It has dialed [Children / 2] connections, all to the alternate
    port. *)
Theorem RecreateDaemon_starts_a_watcher_on_the_new_handle :
  forall (d : loc) (old : VWDaemon) (l : loc) (m : VWModel) (s s' : State),
    daemons s !! d = Some old -> Model old = Some l -> models s !! l = Some m ->
    RecreateDaemon d s = Ret tt s' ->
    exists (newVW : loc),
      newVW <> d /\ daemons s !! newVW = None
      /\ seen go_of (history s')
         = seen go_of (history s) ++ (if Updatable m then [newVW] else [])
      /\ seen dial_of (history s')
         = seen dial_of (history s)
           ++ replicate (Z.to_nat (GoInt.div (Children old) 2)) (alternate_port (Port old)).
Proof.
  intros d old l m s s' Hold Hl Hm H.
  destruct (RecreateDaemon_Ret_history _ _ _ _ _ _ H Hold Hl Hm)
    as (newVW & lm & w1 & pk & w2 & w3 & Hnew & Hne & Hh & Hw1 & Hpk & Hw2 & Hw3).
  exists newVW. split; [done|]. split; [done|].
  rewrite Hh. unfold reload_events, run_events.
  rewrite !seen_app, !seen_singleton.
  rewrite (seen_polling _ _ polling_go_of Hw1), (seen_polling _ _ polling_go_of Hw2),
    (seen_polling _ _ polling_go_of Hw3), (seen_polling _ _ polling_dial_of Hw1),
    (seen_polling _ _ polling_dial_of Hw2), (seen_polling _ _ polling_dial_of Hw3).
  rewrite (seen_kill_and_polls_mute dial_of _ _ polling_dial_of (fun _ => eq_refl) Hpk),
    (seen_kill_and_polls_mute go_of _ _ polling_go_of (fun _ => eq_refl) Hpk).
  rewrite (seen_replicate_None go_of) by done.
  rewrite (seen_replicate dial_of _ (alternate_port (Port old))) by done.
  simpl. rewrite !app_nil_r. split.
  - by destruct (Updatable m).
  - destruct (Updatable m); simpl; by rewrite ?app_nil_r.
Qed.

Lemma RecreateDaemon_starts_a_watcher_on_the_new_handle_witness :
  RecreateDaemon 1%positive reload4 = Ret tt (final (RecreateDaemon 1%positive reload4))
  /\ exists newVW : loc,
       newVW <> 1%positive
       /\ seen go_of (history (final (RecreateDaemon 1%positive reload4))) = [newVW]
       /\ seen dial_of (history (final (RecreateDaemon 1%positive reload4))) = [26543; 26543].
Proof.
  assert (Hrun : RecreateDaemon 1%positive reload4
                 = Ret tt (final (RecreateDaemon 1%positive reload4)))
    by (vm_compute; reflexivity).
  split; [exact Hrun|].
  destruct (RecreateDaemon_starts_a_watcher_on_the_new_handle 1%positive handle4 1%positive
              model4 reload4 _ eq_refl eq_refl eq_refl Hrun) as (newVW & Hne & _ & Hgo & Hdial).
  exists newVW. split; [exact Hne|]. rewrite Hgo, Hdial. split; reflexivity.
Defined.

(** ** The model watcher at work *)

Lemma modelFileChecker_unchanged rounds vw d l m : forall s,
  daemons s !! vw = Some d -> Model d = Some l -> models s !! l = Some m ->
  (forall t, os_stat (env s) t (Path m) = Some (ModTime m)) ->
  exists s', modelFileChecker rounds vw s = Ret tt s'
             /\ frame s s'
             /\ history s' = idle_rounds m rounds ++ history s.
Proof.
  induction rounds as [|n IH]; intros s Hd Hl Hm Hstat.
  - exists s. split; [done|]. split; [apply frame_refl|done].
  - set (s1 := record (EvStat (Path m)) (record (EvSleep 1000) s)).
    destruct (IH s1) as (s' & Hrun & Hf & Hh); [done..|].
    exists s'. split; [|split].
    + simpl. unfold bind at 1, sleep.
      rewrite (bind_eq _ _ _ d (record (EvSleep 1000) s)) by (by apply load_daemon_eq).
      rewrite Hl.
      rewrite (bind_eq _ _ _ false s1).
      * by rewrite (bind_eq _ _ _ tt s1).
      * rewrite (IsChanged_eq l m) by done. simpl. rewrite Hstat.
        by rewrite bool_decide_false by (intros ?; done).
    + eapply frame_trans; [|exact Hf].
      eapply frame_trans; apply frame_record.
    + rewrite Hh. unfold idle_rounds. rewrite replicate_S_end, concat_app. simpl.
      by rewrite <- app_assoc.
Qed.

Lemma seen_idle_rounds {A} (f : Event -> option A) m rounds :
  seen f (idle_rounds m rounds)
  = concat (replicate rounds (seen f [EvStat (Path m); EvSleep 1000])).
Proof.
  unfold idle_rounds. induction rounds as [|n IH]; [done|].
  rewrite replicate_S, concat_cons, seen_app, IH.
  rewrite (replicate_S_end n), concat_app. simpl. by rewrite app_nil_r.
Qed.

(** X12. While the model file keeps the modification time the handle has
    stored, the model watcher only sleeps and stats: after any number of
    rounds it has started no command and no watcher, slept one second per
    round, and left the heap as it was. *)
Theorem modelFileChecker_idle_while_unchanged :
  forall (rounds : nat) (vw : loc) (d : VWDaemon) (l : loc) (m : VWModel) (s : State),
    daemons s !! vw = Some d -> Model d = Some l -> models s !! l = Some m ->
    (forall t, os_stat (env s) t (Path m) = Some (ModTime m)) ->
    exists s', modelFileChecker rounds vw s = Ret tt s'
               /\ frame s s'
               /\ started (history s') = started (history s)
               /\ seen go_of (history s') = seen go_of (history s)
               /\ seen sleep_of (history s') = seen sleep_of (history s) ++ replicate rounds 1000.
Proof.
  intros rounds vw d l m s Hd Hl Hm Hstat.
  destruct (modelFileChecker_unchanged rounds vw d l m s Hd Hl Hm Hstat) as (s' & H & Hf & Hh).
  exists s'. split; [done|]. split; [done|].
  rewrite Hh, !started_seen, !seen_app, !seen_idle_rounds.
  assert (Hnil : forall B n, concat (replicate n (@nil B)) = []).
  { intros B n. induction n as [|n IH]; [done|]. by rewrite replicate_S, concat_cons, IH. }
  assert (Hone : forall n, concat (replicate n [1000]) = replicate n 1000).
  { intros n. induction n as [|n IH]; [done|]. by rewrite !replicate_S, concat_cons, IH. }
  change (seen start_of [EvStat (Path m); EvSleep 1000]) with (@nil string).
  change (seen go_of [EvStat (Path m); EvSleep 1000]) with (@nil loc).
  change (seen sleep_of [EvStat (Path m); EvSleep 1000]) with [1000].
  rewrite !Hnil, Hone, !app_nil_r. done.
Qed.

Lemma modelFileChecker_idle_while_unchanged_witness :
  exists s', modelFileChecker 3 1%positive ready4 = Ret tt s'
             /\ started (history s') = []
             /\ seen sleep_of (history s') = [1000; 1000; 1000].
Proof.
  destruct (modelFileChecker_idle_while_unchanged 3 1%positive handle4 1%positive model4 ready4
              eq_refl eq_refl eq_refl (fun _ => eq_refl)) as (s' & H & _ & Hst & _ & Hsl).
  exists s'. split; [exact H|]. rewrite Hst, Hsl. split; reflexivity.
Defined.



(** ** A reload whose daemon does not come up *)

Lemma length_append (a b : string) :
  String.length (a +:+ b) = (String.length a + String.length b)%nat.
Proof.
  induction a as [|c a IH]; [done|].
  change (S (String.length (a +:+ b)) = S (String.length a + String.length b)).
  by rewrite IH.
Qed.

Lemma append_inj_r (t a b : string) : a +:+ t = b +:+ t -> a = b.
Proof.
  revert b. induction a as [|c a IH]; intros [|c' b] H.
  - done.
  - apply (f_equal String.length) in H.
    change (String c' b +:+ t) with (String c' (b +:+ t)) in H.
    change (EmptyString +:+ t) with t in H. simpl in H. rewrite length_append in H. lia.
  - apply (f_equal String.length) in H.
    change (String c a +:+ t) with (String c (a +:+ t)) in H.
    change (EmptyString +:+ t) with t in H. simpl in H. rewrite length_append in H. lia.
  - change (String c (a +:+ t) = String c' (b +:+ t)) in H.
    injection H as -> H. f_equal. by apply IH.
Qed.

Lemma pkill_command_inj (p q : Z) : pkill_command p = pkill_command q -> p = q.
Proof.
  unfold pkill_command. intros H.
  do 3 apply String.app_inj in H.
  by apply append_inj_r, pretty_Z_inj in H.
Qed.

Lemma start_command_not_pkill (d : VWDaemon) (m : VWModel) (p : Z) :
  start_command d m <> pkill_command p.
Proof.
  unfold start_command, pkill_command. intros H.
  apply (f_equal (fun c => match c with String a _ => Some a | EmptyString => None end)) in H.
  destruct (decide _), (Test d); rewrite ?append_assoc in H; done.
Qed.

Ltac other_exit H lem :=
  exfalso;
  assert (Hne : not_the_start_exit (Fatal "Failed to start daemon!"));
  [eapply lem; try exact H; by unfold not_the_start_exit | by apply Hne].

(** The history of a [Run] that exits because its daemon is not seen. *)
Lemma Run_start_exit_history vw d l m s s' :
  Run vw s = Abort (Fatal "Failed to start daemon!") s' ->
  daemons s !! vw = Some d -> Model d = Some l -> models s !! l = Some m ->
  frame s s'
  /\ exists w1 pk w2,
       history s' = w2 ++ [EvStart (start_command d m)] ++ pk ++ w1 ++ history s
       /\ Forall (fun e => polling e = true) w1
       /\ kill_and_polls (Port d) pk
       /\ Forall (fun e => polling e = true) w2.
Proof.
  unfold Run. intros H Hd Hl Hm.
  apply bind_Abort in H as [H|(running & s1 & H1 & H)];
    [other_exit H (fails_only_IsExist_from not_the_start_exit)|].
  pose proof (rel_of_Ret _ _ _ _ _ (waits_IsExist _ _ _) H1) as [Hf1 (w1 & Hh1 & Hw1)].
  assert (Hd1 : daemons s1 !! vw = Some d) by (destruct Hf1 as (-> & _); done).
  apply bind_Abort in H as [H|(? & s2 & H2 & H)].
  { destruct running; [|done].
    apply bind_Abort in H as [H|(? & ? & _ & H)];
      [other_exit H (fails_only_Stop not_the_start_exit)|done]. }
  assert (Hpk : exists pk, history s2 = pk ++ history s1 /\ kill_and_polls (Port d) pk
                           /\ frame s1 s2).
  { destruct running.
    - apply bind_Ret in H2 as (rs & s2' & HS & H2). injection H2 as _ <-.
      pose proof (Stop_Ret_waits _ _ _ _ _ HS Hd1) as [_ (wk & Hwk & Hpw)].
      exists (wk ++ [EvStart (pkill_command (Port d))]). split; [|split].
      + rewrite Hwk. unfold killed. simpl. by rewrite <- app_assoc.
      + right. by exists wk.
      + by eapply frame_of_Ret; [apply pure_io_Stop|].
    - injection H2 as _ <-. exists []. split; [done|]. split; [by left|apply frame_refl]. }
  destruct Hpk as (pk & Hh2 & Hpk & Hf2).
  pose proof (frame_trans _ _ _ Hf1 Hf2) as Hf02.
  pose proof Hf02 as (Hd02 & Hm02 & _).
  rewrite (bind_eq _ _ _ d s2) in H by (apply load_daemon_eq; by rewrite Hd02).
  rewrite Hl in H.
  rewrite (bind_eq _ _ _ m s2) in H by (apply load_model_eq; by rewrite Hm02).
  apply bind_Abort in H as [H|(out & s3 & Hstart & H)].
  { unfold runCommand in H. by destruct (sh_start _ _ _). }
  destruct out.2; [done|].
  assert (s3 = record (EvStart (start_command d m)) s2) as ->.
  { unfold runCommand in Hstart. destruct (sh_start _ _ _); by injection Hstart. }
  apply bind_Abort in H as [H|(started & s4 & H4 & H)];
    [other_exit H (fails_only_IsExist_from not_the_start_exit)|].
  pose proof (rel_of_Ret _ _ _ _ _ (waits_IsExist _ _ _) H4) as [Hf4 (w2 & Hh4 & Hw2)].
  destruct started; simpl in H.
  - exfalso.
    assert (Hd4 : daemons s4 !! vw = Some d).
    { destruct Hf4 as (E & _). rewrite E. simpl. by rewrite Hd02. }
    rewrite (bind_eq _ _ _ d s4) in H by (by apply load_daemon_eq).
    apply bind_Abort in H as [H|(q & s5 & Hmk & H)].
    { unfold make_chan in H. by destruct (_ <? 0). }
    unfold make_chan in Hmk. destruct (_ <? 0) eqn:Hneg; [done|]. injection Hmk as <- <-.
    apply bind_Abort in H as [H|([] & s6 & Hst & H)]; [done|]. injection Hst as <-.
    apply bind_Abort in H as [H|([] & s7 & _ & H)]; [|done].
    unfold makeTCPConnQueue in H.
    rewrite (bind_eq _ _ _ (set_queue d (Some (fresh (dom (chans s4))))) _) in H
      by (apply load_daemon_eq; simpl; by rewrite lookup_insert_eq).
    assert (Hne : not_the_start_exit (Fatal "Failed to start daemon!")); [|by apply Hne].
    eapply (fails_only_fill_queue not_the_start_exit); [..|exact H];
      try (by unfold not_the_start_exit).
    + simpl. by rewrite lookup_insert_eq.
    + done.
    + simpl. by rewrite lookup_insert_eq.
    + simpl. apply Z.ltb_ge in Hneg. lia.
  - injection H as <-. split.
    + eapply frame_trans; [exact Hf02|]. eapply frame_trans; [apply frame_record|exact Hf4].
    + exists w1, pk, w2. split; [|done].
      rewrite Hh4. simpl. rewrite Hh2, Hh1. by rewrite <- ?app_assoc.
Qed.

Lemma defer_Fatal {A} (d : M unit) (body : M A) msg s s' :
  defer d body s = Abort (Fatal msg) s' ->
  body s = Abort (Fatal msg) s'
  \/ exists s1, d s1 = Abort (Fatal msg) s'.
Proof.
  unfold defer. destruct (body s) as [a s1|[msg1|msg1|] s1].
  - destruct (d s1) as [|f1 s2] eqn:E; [done|]. intros [= <- <-]. right. by exists s1.
  - intros [= <- <-]. by left.
  - destruct (d s1) as [|f1 s2] eqn:E; [done|]. intros [= <- <-]. right. by exists s1.
  - done.
Qed.

(** X14. When a reload exits because the new daemon is not seen running,
    the old daemon has not been killed and the handle still describes it:
    since the call only the kill of a daemon found on the alternate port, if
    there was one, and the start of the new daemon were run, and neither is
    the kill on the port of the handle. *)
Theorem RecreateDaemon_start_exit_spares_the_old_daemon :
  forall (d : loc) (old : VWDaemon) (l : loc) (m : VWModel) (s s' : State),
    daemons s !! d = Some old -> Model old = Some l -> models s !! l = Some m ->
    RecreateDaemon d s = Abort (Fatal "Failed to start daemon!") s' ->
    daemons s' !! d = Some old
    /\ models s' !! l = Some m
    /\ exists (lm : loc) (cmds : list string),
         started (history s') = started (history s) ++ cmds
         /\ (cmds = [start_command (replacement old lm None) m]
             \/ cmds = [pkill_command (alternate_port (Port old));
                        start_command (replacement old lm None) m])
         /\ ~ In (pkill_command (Port old)) cmds.
Proof.
  intros d old l m s s' Hold Hl Hm H. rewrite RecreateDaemon_unfold in H.
  apply bind_Abort in H as [H|(tmp & s1 & HD & H)];
    [other_exit H (fails_only_DeepCopy not_the_start_exit)|].
  pose proof HD as (Hg1 & Hh1 & _)%DeepCopy_Ret.
  pose proof Hg1 as (He1 & _ & _ & Hds1 & Hms1).
  pose proof (lookup_weaken _ _ _ _ Hold Hds1) as Hold1.
  pose proof (lookup_weaken _ _ _ _ Hm Hms1) as Hm1.
  apply defer_Fatal in H as [H|(sx & H)].
  2:{ apply bind_Abort in H as [H|(? & ? & _ & H)];
        [other_exit H (fails_only_Stop not_the_start_exit)|done]. }
  rewrite (bind_eq _ _ _ old s1) in H by (by apply load_daemon_eq).
  rewrite Hl in H.
  rewrite (bind_eq _ _ _ m s1) in H by (by apply load_model_eq).
  apply bind_Abort in H as [H|(newVW & s2 & HN & H)];
    [other_exit H (fails_only_NewDaemon not_the_start_exit)|].
  pose proof (NewDaemon_Ret_history _ _ _ _ _ _ _ _ _ _ HN) as Hh2.
  apply NewDaemon_Ret in HN as (Hg2 & t & lm & Ht & Hlm & Hnew & Hms2 & Hds2).
  pose proof Hg2 as (_ & _ & _ & Hds12 & Hms12).
  assert (Hn2 : daemons s2 !! newVW = Some (replacement old lm None))
    by (by rewrite Hds2, lookup_insert_eq).
  assert (Hm2 : models s2 !! lm = Some (mkModel (Path m) t (Updatable m)))
    by (by rewrite Hms2, lookup_insert_eq).
  apply bind_Abort in H as [H|(err & s3 & HR & H)].
  2:{ apply Run_Ret in HR as (-> & n & ln & mn & q & buf & s21 & Hn & _ & _ & _ & _ & _ & Hds3 & _).
      exfalso. apply bind_Abort in H as [H|(new & ? & _ & H)]; [|done].
      unfold load_daemon in H. rewrite Hds3, lookup_insert_eq in H. done. }
  destruct (Run_start_exit_history _ _ _ _ _ _ H Hn2 eq_refl Hm2)
    as ((Hds & Hms & _) & w1 & pk & w2 & Hh3 & Hw1 & Hpk & Hw2).
  split; [|split].
  - rewrite Hds. by apply (lookup_weaken _ _ _ _ Hold1 Hds12).
  - rewrite Hms. by apply (lookup_weaken _ _ _ _ Hm1 Hms12).
  - exists lm, (seen start_of pk ++ [start_command (replacement old lm None) m]).
    split; [|split].
    + rewrite Hh3, Hh2, Hh1, !started_seen.
      rewrite !seen_app, seen_cons, !seen_singleton.
      rewrite (seen_polling _ _ polling_start_of Hw1), (seen_polling _ _ polling_start_of Hw2).
      assert (seen start_of (if Updatable m then [EvGo newVW] else []) = []) as ->
        by (by destruct (Updatable m)).
      simpl. by rewrite !app_nil_r, <- ?app_assoc.
    + destruct (seen_kill_and_polls_start _ _ Hpk) as [->| ->]; [by left|by right].
    + intros [Hin|Hin]%in_app_or.
      * destruct (seen_kill_and_polls_start _ _ Hpk) as [E|E]; rewrite E in Hin; [done|].
        destruct Hin as [Hin|[]]. apply pkill_command_inj in Hin.
        by apply (alternate_port_ne (Port old)).
      * destruct Hin as [Hin|[]]. by apply start_command_not_pkill in Hin.
Qed.

Lemma RecreateDaemon_start_exit_spares_the_old_daemon_witness :
  RecreateDaemon 1%positive never4
  = Abort (Fatal "Failed to start daemon!") (final (RecreateDaemon 1%positive never4))
  /\ daemons (final (RecreateDaemon 1%positive never4)) !! (1%positive : loc) = Some handle4.
Proof.
  assert (Hrun : RecreateDaemon 1%positive never4
                 = Abort (Fatal "Failed to start daemon!")
                         (final (RecreateDaemon 1%positive never4)))
    by (vm_compute; reflexivity).
  split; [exact Hrun|].
  exact (proj1 (RecreateDaemon_start_exit_spares_the_old_daemon 1%positive handle4 1%positive
                  model4 never4 _ eq_refl eq_refl eq_refl Hrun)).
Defined.

(** X15. A round of the model watcher that finds the file with another
    modification time than the stored one reloads the handle it watches: when
    the round returns, the handle is on the alternate port, and the time it
    stores is the one [NewDaemon] read from the file, one stat after the
    comparison of [IsChanged]. *)
Theorem modelFileChecker_reloads_on_change :
  forall (vw : loc) (d : VWDaemon) (l : loc) (m : VWModel) (t : Z) (s s' : State),
    daemons s !! vw = Some d -> Model d = Some l -> models s !! l = Some m ->
    os_stat (env s) (S (now s)) (Path m) = Some t -> t <> ModTime m ->
    modelFileChecker 1 vw s = Ret tt s' ->
    swapped vw (record (EvStat (Path m)) (record (EvSleep 1000) s)) s'
    /\ port_of vw s' = Some (alternate_port (Port d))
    /\ stored_mtime vw s' = os_stat (env s) (S (S (now s))) (Path m).
Proof.
  intros vw d l m t s s' Hd Hl Hm Ht Hne H.
  set (s1 := record (EvStat (Path m)) (record (EvSleep 1000) s)).
  simpl in H. unfold bind at 1, sleep in H.
  rewrite (bind_eq _ _ _ d (record (EvSleep 1000) s)) in H by (by apply load_daemon_eq).
  rewrite Hl in H.
  rewrite (bind_eq _ _ _ true s1) in H.
  2:{ rewrite (IsChanged_eq l m) by done.
      change (now (record (EvSleep 1000) s)) with (S (now s)).
      change (env (record (EvSleep 1000) s)) with (env s). rewrite Ht.
      by rewrite bool_decide_true by congruence. }
  apply bind_Ret in H as ([] & s2 & H & Hret). injection Hret as <-.
  pose proof (RecreateDaemon_Ret _ _ _ H) as Hswap. split; [exact Hswap|].
  destruct Hswap as (old & l1 & m1 & t1 & newVW & lm & q & ch & Hold & Hl1 & Hm1 & Ht1 & _ & _
                     & _ & _ & Hd' & _ & Hm' & _).
  change (daemons s1) with (daemons s) in Hold. change (models s1) with (models s) in Hm1.
  assert (old = d) as -> by congruence.
  assert (l1 = l) as -> by congruence.
  assert (m1 = m) as -> by congruence.
  split.
  - unfold port_of. by rewrite Hd'.
  - unfold stored_mtime. rewrite Hd'. simpl. rewrite Hm'. simpl. by rewrite <- Ht1.
Qed.

Lemma modelFileChecker_reloads_on_change_witness :
  modelFileChecker 1 1%positive touched4
  = Ret tt (final (modelFileChecker 1 1%positive touched4))
  /\ port_of 1%positive (final (modelFileChecker 1 1%positive touched4)) = Some 26543
  /\ stored_mtime 1%positive (final (modelFileChecker 1 1%positive touched4)) = Some 200.
Proof.
  assert (Hrun : modelFileChecker 1 1%positive touched4
                 = Ret tt (final (modelFileChecker 1 1%positive touched4)))
    by (vm_compute; reflexivity).
  split; [exact Hrun|].
  exact (proj2 (modelFileChecker_reloads_on_change 1%positive handle4 1%positive model4 200
                  touched4 _ eq_refl eq_refl eq_refl eq_refl ltac:(done) Hrun)).
Defined.

(** ** Predictions in a row *)

Lemma Predict_Ret {P} (parse : string -> P) vw d q ch conn rest pData r s s' :
  daemons s !! vw = Some d -> TCPQueue d = Some q ->
  chans s !! q = Some ch -> ch_buf ch = conn :: rest ->
  Predict parse vw pData s = Ret r s' ->
  exists wire, s' = predicted q ch conn rest wire s.
Proof.
  intros Hd Hq Hch Hbuf.
  unfold Predict, abort. destruct (terminate pData) as [wire|]; [|done].
  rewrite (bind_eq _ _ _ _ _ (load_daemon_eq vw d s Hd)).
  assert (Hrecv : chan_recv (TCPQueue d) s = Ret conn (set_chan q (mkChan (ch_cap ch) rest) s)).
  { unfold chan_recv. rewrite Hq. simpl. rewrite Hch. simpl. unfold chan_take. by rewrite Hbuf. }
  rewrite (bind_eq _ _ _ _ _ Hrecv). unfold bind at 1, conn_write. simpl.
  destruct (tcp_write _ _ conn wire); simpl; [|done].
  unfold bind at 1, conn_read_line. simpl.
  destruct (tcp_read _ _ conn) as [line|]; [|done].
  rewrite (bind_eq _ _ _ d _) by (apply load_daemon_eq; simpl; exact Hd).
  unfold bind, chan_send. rewrite Hq. simpl. rewrite lookup_insert_eq. simpl.
  unfold chan_put. simpl.
  destruct (Z.ltb_spec (Z.of_nat (length rest)) (ch_cap ch)); simpl; [|done].
  unfold set_chan, record. simpl. rewrite insert_insert_eq.
  intros [= <- <-]. by exists wire.
Qed.

(** X16. Predictions made one after the other are served by the
    connections of the queue in turn: [k] calls that return, [k] at most the
    number of connections, wrote to the first [k] connections in their
    order and moved them to the end of the queue; after as many calls as
    there are connections the queue is as it was. *)
Theorem Predict_serves_round_robin :
  forall (P : Type) (ParsePredictResult : string -> P) (vw : loc) (d : VWDaemon) (q : loc)
         (reqs : list (list byte)) (ch : Chan) (s : State)
         (rs : list (P * option error)) (s' : State),
    daemons s !! vw = Some d -> TCPQueue d = Some q -> chans s !! q = Some ch ->
    (length reqs <= length (ch_buf ch))%nat ->
    Predict_each ParsePredictResult vw reqs s = Ret rs s' ->
    let k := length reqs in
    chans s' !! q = Some (mkChan (ch_cap ch) (drop k (ch_buf ch) ++ take k (ch_buf ch)))
    /\ (k = length (ch_buf ch) -> chans s' !! q = Some ch)
    /\ seen write_of (history s') = seen write_of (history s) ++ take k (ch_buf ch)
    /\ daemons s' = daemons s.
Proof.
  intros P parse vw d q reqs ch s rs s' Hd Hq Hch Hlen H k.
  assert (Hmain : chans s' !! q
                  = Some (mkChan (ch_cap ch) (drop k (ch_buf ch) ++ take k (ch_buf ch)))
                  /\ seen write_of (history s') = seen write_of (history s) ++ take k (ch_buf ch)
                  /\ daemons s' = daemons s).
  { subst k. revert ch s rs s' Hd Hch Hlen H.
    induction reqs as [|pData reqs IH]; intros ch s rs s' Hd Hch Hlen H.
    - injection H as _ <-. simpl. rewrite take_0, !app_nil_r. by destruct ch.
    - destruct ch as [cap [|conn rest]]; simpl in Hlen; [lia|].
      simpl in H. apply bind_Ret in H as (r & s1 & H1 & H).
      apply bind_Ret in H as (rs' & s2 & H2 & H). injection H as _ <-.
      destruct (Predict_Ret parse vw d q _ conn rest pData r s s1 Hd Hq Hch eq_refl H1)
        as (wire & ->).
      edestruct (IH (mkChan cap (rest ++ [conn]))) as (Hq2 & Hw2 & Hd2); [| | |exact H2|].
      + done.
      + simpl. by rewrite lookup_insert_eq.
      + simpl. rewrite length_app. simpl. lia.
      + simpl in *. split; [|split; [|done]].
        * rewrite Hq2. do 2 f_equal.
          rewrite drop_app_le, take_app_le by lia. by rewrite <- app_assoc.
        * rewrite Hw2, !seen_cons. simpl. rewrite app_nil_r, <- app_assoc. simpl.
          by rewrite take_app_le by lia. }
  destruct Hmain as (Hq' & Hw' & Hd'). split; [done|]. split; [|done].
  intros Hk. rewrite Hq', Hk, drop_all, take_ge by lia. by destruct ch.
Qed.

Lemma Predict_serves_round_robin_witness :
  exists q ch rs s',
    Predict_each (fun line => line) 1%positive [[x31]; [x32]] (final (Run 1%positive ready4))
    = Ret rs s'
    /\ chans (final (Run 1%positive ready4)) !! q = Some ch
    /\ chans s' !! q = Some ch.
Proof.
  set (s := final (Run 1%positive ready4)).
  assert (Hq : exists q, TCPQueue <$> daemons s !! 1%positive = Some (Some q)
                         /\ exists ch, chans s !! q = Some ch /\ length (ch_buf ch) = 2%nat).
  { vm_compute. eexists. split; [reflexivity|]. eexists. split; reflexivity. }
  destruct Hq as (q & Hd & ch & Hch & Hlen).
  destruct (daemons s !! 1%positive) as [d|] eqn:Ed; [|done].
  injection Hd as HqD.
  assert (Hrun : exists rs,
            Predict_each (fun line => line) 1%positive [[x31]; [x32]] s
            = Ret rs (final (Predict_each (fun line => line) 1%positive [[x31]; [x32]] s)))
    by (vm_compute; eexists; reflexivity).
  destruct Hrun as (rs & Hrun).
  exists q, ch, rs, (final (Predict_each (fun line => line) 1%positive [[x31]; [x32]] s)).
  split; [exact Hrun|]. split; [exact Hch|].
  refine (proj1 (proj2 (Predict_serves_round_robin _ _ 1%positive d q [[x31]; [x32]] ch s rs _
                          Ed HqD Hch _ Hrun)) _).
  - rewrite Hlen. simpl. lia.
  - by rewrite Hlen.
Defined.
